(** * ROSA ROS1 tools: a shallow embedding of [src/rosa/tools/ros1.py]

    The Python module is a set of tool functions over the ROS master
    (graph registry), the parameter server, and the log directory.  Every
    function is embedded as a Rocq function of the same name.  A Python call
    either returns a value or raises: that is the [result] type below.  The
    external collaborators are explicit: the registry, the graph state and
    the filesystem are arguments, the [regex] library and the parameter
    server are interfaces (type classes) the tools are generic in. *)

From Stdlib Require Import List String Ascii ZArith Bool Arith Lia.
From Stdlib Require Import Sorted Permutation.
Import ListNotations.
Open Scope string_scope.

(** ** Python results: a value, or a raised exception carrying its text *)

Inductive result (A : Type) : Type :=
| Ok (a : A)
| Raise (e : string).
Arguments Ok {A} a.
Arguments Raise {A} e.

Definition bind {A B} (m : result A) (k : A -> result B) : result B :=
  match m with
  | Ok a => k a
  | Raise e => Raise e
  end.

Notation "x <- m ;; k" := (bind m (fun x => k))
  (at level 61, m at next level, right associativity).
Notation "' p <- m ;; k" := (bind m (fun x => match x with p => k end))
  (at level 61, p pattern, m at next level, right associativity).

Definition rmap {A B} (f : A -> B) (m : result A) : result B :=
  x <- m ;; Ok (f x).

(** [list(filter(f, l))] where [f] may raise: elements are tested left to
    right and the first exception aborts the whole pass. *)
Fixpoint filterM {A} (f : A -> result bool) (l : list A) : result (list A) :=
  match l with
  | [] => Ok []
  | x :: l' =>
      b <- f x ;;
      r <- filterM f l' ;;
      Ok (if b then x :: r else r)
  end.

(** [any(f(p) for p in l)]: stops at the first truthy element. *)
Fixpoint anyM {A} (f : A -> result bool) (l : list A) : result bool :=
  match l with
  | [] => Ok false
  | x :: l' => b <- f x ;; if b then Ok true else anyM f l'
  end.

(** ** Python built-ins used by the module *)

(** Truthiness of an [Optional[str]]: [None] and the empty string are falsy. *)
Definition truthy_str (o : option string) : bool :=
  match o with
  | Some s => negb (s =? "")
  | None => false
  end.

(** Truthiness of an optional list: [None] and [[]] are falsy. *)
Definition truthy_list {A} (o : option (list A)) : bool :=
  match o with
  | Some (_ :: _) => true
  | _ => false
  end.

(** What an f-string prints for an [Optional[str]]. *)
Definition fmt_opt (o : option string) : string :=
  match o with
  | Some s => s
  | None => "None"
  end.

(** [x.startswith(p)] *)
Definition startswith (x p : string) : bool := String.prefix p x.

(** [x.endswith(p)] *)
Definition str_rev (s : string) : string :=
  string_of_list_ascii (rev (list_ascii_of_string s)).
Definition endswith (x p : string) : bool := String.prefix (str_rev p) (str_rev x).

(** [sorted(l)] on strings: code-point order, by insertion. *)
Fixpoint insert_str (x : string) (l : list string) : list string :=
  match l with
  | [] => [x]
  | y :: l' => if String.leb x y then x :: l else y :: insert_str x l'
  end.

Fixpoint py_sorted (l : list string) : list string :=
  match l with
  | [] => []
  | x :: l' => insert_str x (py_sorted l')
  end.

(** [len(set(l))] and the elements of [set(l)]; the iteration order of a
    Python set is unspecified, the module only sorts or counts it. *)
Definition py_set (l : list string) : list string := nodup string_dec l.

(** [s.replace(old, new)]: non-overlapping occurrences, scanned left to
    right in one pass.  [skip] counts the characters of a matched [old]
    that remain to be dropped. *)
Fixpoint replace_from (old new s : string) (skip : nat) : string :=
  match s with
  | EmptyString => EmptyString
  | String c s' =>
      match skip with
      | S k => replace_from old new s' k
      | O =>
          if String.prefix old s
          then new ++ replace_from old new s' (String.length old - 1)
          else String c (replace_from old new s' 0)
      end
  end.

Definition str_replace (old new s : string) : string := replace_from old new s 0.

(** [needle in s] *)
Fixpoint contains (needle s : string) : bool :=
  String.prefix needle s ||
  match s with
  | EmptyString => false
  | String _ s' => contains needle s'
  end.

(** ** The ROS master as seen by the entity lister *)

(** One row of [rostopic.get_topic_list()]: topic name, message type, node
    names.  The module reads [x[0]] only. *)
Definition topic_row : Type := string * string * list string.
Definition row_name (x : topic_row) : string := fst (fst x).

Record registry : Type := {
  get_topic_list : result (list topic_row * list topic_row);
  get_node_names : result (list string)
}.

(** The three placeholder texts of [get_entities]. *)
Definition none_in_system (type : string) : string :=
  "There are currently no " ++ type ++ "s available in the system.".
Definition none_in_namespace (type : string) (namespace : option string) : string :=
  "There are currently no " ++ type ++ "s available using the '"
    ++ fmt_opt namespace ++ "' namespace.".
Definition none_matching (type : string) : string :=
  "There are currently no " ++ type ++ "s available matching the specified pattern.".

(** ** External libraries, as interfaces *)

(** [regex.match(pattern, text)] of the third-party [regex] package: whether
    the pattern matches at the start of the text, or [regex.error] when the
    pattern does not compile. *)
Class Regex : Type :=
  regex_match : string -> string -> result bool.

(** Python's [repr] of a list of strings, as an f-string prints it. *)
Class Repr : Type :=
  repr_list : list string -> string.

(** The parameter server: a state of type [pserver] and the three
    [rosparam] calls the module makes on it.  A call returns or raises;
    [set_param] also yields the server state it leaves behind. *)
Class ParamServer (pserver : Type) : Type := {
  list_params : string -> pserver -> result (list string);
  get_param : string -> pserver -> result string;
  set_param : string -> string -> pserver -> result unit * pserver
}.

Section Tools.

Context {rx : Regex} {rp : Repr}.

(** The blacklist test shared by the listers:
    [any(regex.match(f".*{pattern}", x) for pattern in blacklist)]. *)
Definition blacklisted (blacklist : list string) (x : string) : result bool :=
  anyM (fun pattern => regex_match (".*" ++ pattern) x) blacklist.

Definition blacklist_filter (blacklist : list string) (l : list string)
  : result (list string) :=
  filterM (fun x => rmap negb (blacklisted blacklist x)) l.

(** The entities the registry reports for a kind (lines 37-45). *)
Definition fetch_entities (reg : registry) (type : string) : result (list string) :=
  if type =? "topic" then
    ' (pub, sub) <- get_topic_list reg ;;
    Ok (py_sorted (py_set (map row_name pub ++ map row_name sub)))
  else if type =? "node" then get_node_names reg
  else Ok [].

Definition namespace_stage (namespace : option string) (l : list string) : list string :=
  if truthy_str namespace
  then filter (fun x => startswith x (fmt_opt namespace ++ "/")) l
  else l.

Definition pattern_stage (pattern : option string) (l : list string)
  : result (list string) :=
  if truthy_str pattern
  then filterM (fun x => regex_match (".*" ++ fmt_opt pattern) x) l
  else Ok l.

Definition blacklist_stage (blacklist : option (list string)) (l : list string)
  : result (list string) :=
  if truthy_list blacklist
  then blacklist_filter (match blacklist with Some b => b | None => [] end) l
  else Ok l.

(** Lines 56-65: the list is replaced by one explanatory string, chosen
    from the counters. *)
Definition substitute_empty (type : string) (namespace : option string)
    (total in_namespace match_pattern : nat) (l : list string) : list string :=
  if (total =? 0)%nat then [none_in_system type]
  else if (in_namespace =? 0)%nat then [none_in_namespace type namespace]
  else if (match_pattern =? 0)%nat then [none_matching type]
  else l.

Record listing : Type := {
  total : nat;
  in_namespace : nat;
  match_pattern : nat;
  entities : list string
}.

Definition get_entities (reg : registry) (type : string)
    (pattern namespace : option string) (blacklist : option (list string))
  : result listing :=
  entities0 <- fetch_entities reg type ;;
  let total := List.length entities0 in
  let entities1 := namespace_stage namespace entities0 in
  let in_namespace := List.length entities1 in
  entities2 <- pattern_stage pattern entities1 ;;
  let match_pattern := List.length entities2 in
  let entities3 :=
    substitute_empty type namespace total in_namespace match_pattern entities2 in
  entities4 <- blacklist_stage blacklist entities3 ;;
  Ok {| total := total; in_namespace := in_namespace;
        match_pattern := match_pattern; entities := py_sorted entities4 |}.

(** [rostopic_list] and [rosnode_list]: the whole call to [get_entities]
    sits in a [try]; any exception becomes an error payload. *)
Inductive list_reply : Type :=
| ListError (error : string)
| ListOk (namespace pattern : string) (l : listing).

Definition list_tool (reg : registry) (type failure : string)
    (pattern namespace : option string) (blacklist : option (list string))
  : result list_reply :=
  match get_entities reg type pattern namespace blacklist with
  | Raise e => Ok (ListError (failure ++ e))
  | Ok l =>
      Ok (ListOk (if truthy_str namespace then fmt_opt namespace else "/")
                 (if truthy_str pattern then fmt_opt pattern else ".*") l)
  end.

Definition rostopic_list (reg : registry)
    (pattern namespace : option string) (blacklist : option (list string))
  : result list_reply :=
  list_tool reg "topic" "Failed to get ROS topics: " pattern namespace blacklist.

Definition rosnode_list (reg : registry)
    (pattern namespace : option string) (blacklist : option (list string))
  : result list_reply :=
  list_tool reg "node" "Failed to get ROS nodes: " pattern namespace blacklist.

(** ** The graph builder *)

(** A row of [getSystemState()]: a topic and the nodes attached to it. *)
Definition state_row : Type := string * list string.

(** [Master("/rosout").getSystemState()]: publishers, subscribers, services. *)
Definition master : Type :=
  result (list state_row * list state_row * list state_row).

(** A Python [dict] with string keys, in insertion order. *)
Definition dict (V : Type) : Type := list (string * V).

Fixpoint dict_get {V} (k : string) (d : dict V) : option V :=
  match d with
  | [] => None
  | (k', v) :: d' => if k =? k' then Some v else dict_get k d'
  end.

(** [d[k] = v]: an existing key keeps its position. *)
Fixpoint dict_set {V} (k : string) (v : V) (d : dict V) : dict V :=
  match d with
  | [] => [(k, v)]
  | (k', v') :: d' =>
      if k =? k' then (k', v) :: d' else (k', v') :: dict_set k v d'
  end.

(** Lines 122-125: append to the topic's list, or start one. *)
Definition dict_add_node (topic node : string) (d : dict (list string))
  : dict (list string) :=
  match dict_get topic d with
  | Some nodes => dict_set topic (nodes ++ [node])%list d
  | None => dict_set topic [node] d
  end.

(** Lines 118-125 (and 127-134): one of the two topic maps. *)
Definition build_topic_map (namespace : option string) (rows : list state_row)
  : dict (list string) :=
  fold_left
    (fun d row =>
       fold_left
         (fun d node =>
            if truthy_str namespace && negb (startswith node (fmt_opt namespace))
            then d
            else dict_add_node (fst row) node d)
         (snd row) d)
    rows [].

Definition triple : Type := string * string * string.
Definition publisher (x : triple) : string := fst (fst x).
Definition topic_of (x : triple) : string := snd (fst x).
Definition subscriber (x : triple) : string := snd x.

Fixpoint flat_mapM {A B} (f : A -> result (list B)) (l : list A)
  : result (list B) :=
  match l with
  | [] => Ok []
  | x :: l' => r <- f x ;; rs <- flat_mapM f l' ;; Ok (r ++ rs)%list
  end.

(** Lines 137-143: the join of the two maps, topic pattern applied per edge. *)
Definition join_maps (topic_pattern : option string)
    (topic_pub_map topic_sub_map : dict (list string)) : result (list triple) :=
  flat_mapM
    (fun entry : string * list string =>
       let (topic, pubs) := entry in
       match dict_get topic topic_sub_map with
       | None => Ok []
       | Some subs =>
           flat_mapM
             (fun pub =>
                flat_mapM
                  (fun sub =>
                     keep <- (if truthy_str topic_pattern
                              then regex_match (fmt_opt topic_pattern) topic
                              else Ok true) ;;
                     Ok (if keep then [(pub, topic, sub)] else []))
                  subs)
             pubs
       end)
    topic_pub_map.

(** Lines 149-151: [word] varies slowest, the three fields fastest. *)
Definition triple_blacklisted (blacklist : list string) (x : triple) : result bool :=
  anyM (fun we : string * string => regex_match (".*" ++ fst we ++ ".*") (snd we))
       (list_prod blacklist [publisher x; topic_of x; subscriber x]).

Definition graph_blacklist_filter (blacklist : list string) (graph : list triple)
  : result (list triple) :=
  filterM (fun x => rmap negb (triple_blacklisted blacklist x)) graph.

Definition node_pattern_filter (node_pattern : option string) (graph : list triple)
  : result (list triple) :=
  if truthy_str node_pattern then
    filterM
      (fun x =>
         b <- regex_match (fmt_opt node_pattern) (publisher x) ;;
         if b then Ok true else regex_match (fmt_opt node_pattern) (subscriber x))
      graph
  else Ok graph.

Definition self_connection_filter (exclude_self_connections : bool)
    (graph : list triple) : list triple :=
  if exclude_self_connections
  then filter (fun x => negb (publisher x =? subscriber x)) graph
  else graph.

Definition max_render_size : nat := 50.

Definition graph_warning : string :=
  "The graph is too large to display or render (size > 50. Please make "
  ++ "some recommendations to the user on how to filter the graph to a more manageable "
  ++ "size. Do not attempt to render the graph.".

Record graph_response : Type := {
  graph_convention : string;
  nuance : string;
  node_count : nat;
  topic_count : nat;
  total_connections : nat;
  graph : list triple;
  warning : option string
}.

Inductive graph_reply : Type :=
| GraphError (error : string)
| GraphOk (response : graph_response).

(** Lines 114-167: the edge list before the emptiness test. *)
Definition filtered_graph (publishers subscribers : list state_row)
    (namespace node_pattern topic_pattern : option string)
    (blacklist : list string) (exclude_self_connections : bool)
  : result (list triple) :=
  let topic_pub_map := build_topic_map namespace publishers in
  let topic_sub_map := build_topic_map namespace subscribers in
  graph0 <- join_maps topic_pattern topic_pub_map topic_sub_map ;;
  graph1 <- graph_blacklist_filter blacklist graph0 ;;
  graph2 <- node_pattern_filter node_pattern graph1 ;;
  Ok (self_connection_filter exclude_self_connections graph2).

(** [blacklist if blacklist else []] *)
Definition or_empty (blacklist : option (list string)) : list string :=
  if truthy_list blacklist
  then match blacklist with Some b => b | None => [] end
  else [].

Definition rosgraph_get (m : master)
    (namespace node_pattern topic_pattern : option string)
    (blacklist : option (list string)) (exclude_self_connections : bool)
  : result graph_reply :=
  match m with
  | Raise e => Ok (GraphError ("Failed to get ROS graph: " ++ e))
  | Ok (publishers, subscribers, services) =>
      let blacklist := or_empty blacklist in
      graph <- filtered_graph publishers subscribers namespace node_pattern
                 topic_pattern blacklist exclude_self_connections ;;
      match graph with
      | [] =>
          Ok (GraphError
                ("No results found for the specified parameters. Note that the "
                 ++ "following have been excluded: " ++ repr_list blacklist))
      | _ :: _ =>
          let unique_nodes :=
            py_set (flat_map (fun x => [publisher x; subscriber x]) graph) in
          let unique_topics := py_set (map topic_of graph) in
          Ok (GraphOk
                {| graph_convention :=
                     "Each tuple in the graph is of the form (publisher, topic, subscriber).";
                   nuance := "Disconnected nodes are not included in this graph.";
                   node_count := List.length unique_nodes;
                   topic_count := List.length unique_topics;
                   total_connections := List.length graph;
                   graph := graph;
                   warning := if (50 <? List.length graph)%nat
                              then Some graph_warning else None |})
      end
  end.

(** ** Parameter accessors *)

Context {pserver : Type} {ps : ParamServer pserver}.

Inductive param_list_reply : Type :=
| ParamListError (error : string)
| ParamListOk (namespace : string) (total : nat) (ros_params : list string).

(** The whole body of [rosparam_list] is inside the [try]. *)
Definition rosparam_list (namespace : string) (blacklist : option (list string))
    (st : pserver) : result param_list_reply :=
  match
    params <- list_params namespace st ;;
    params <- blacklist_stage blacklist params ;;
    Ok (ParamListOk namespace (List.length params) params)
  with
  | Ok reply => Ok reply
  | Raise e => Ok (ParamListError ("Failed to get ROS parameters: " ++ e))
  end.

(** [rosparam_get]: no [try]; the first failing key aborts the batch. *)
Fixpoint rosparam_get_loop (params : list string) (values : dict string)
    (st : pserver) : result (dict string) :=
  match params with
  | [] => Ok values
  | param :: rest =>
      p <- get_param param st ;;
      rosparam_get_loop rest (dict_set param p values) st
  end.

Definition rosparam_get (params : list string) (st : pserver)
  : result (dict string) :=
  rosparam_get_loop params [] st.

(** Lines 521-522: the key [rosparam_set] hands to the server. *)
Definition target_key (param : string) (is_rosa_param : bool) : string :=
  if is_rosa_param && negb (startswith param "/rosa")
  then str_replace "//" "/" ("/rosa/" ++ param)
  else param.

Definition rosparam_set (param value : string) (is_rosa_param : bool)
    (st : pserver) : result string * pserver :=
  let param := target_key param is_rosa_param in
  match set_param param value st with
  | (Ok _, st') =>
      (Ok ("Set parameter '" ++ param ++ "' to '" ++ value ++ "'."), st')
  | (Raise e, st') =>
      (Ok ("Failed to set parameter '" ++ param ++ "' to '" ++ value ++ "': "
           ++ e ++ ". Try again!"), st')
  end.

(** ** The log lister *)

(** The calls [roslog_list] makes on the filesystem. *)
Record filesystem : Type := {
  get_log_dir : result string;
  listdir : string -> result (list string);
  getsize : string -> result Z
}.

(** [os.path.join(a, b)] for two components. *)
Definition path_join (a b : string) : string :=
  if startswith b "/" then b
  else if (a =? "") || endswith a "/" then a ++ b
  else a ++ "/" ++ b.

(** [sorted(items, key=lambda item: item[1], reverse=True)]: stable, so
    entries of equal size keep their relative order. *)
Fixpoint insert_by_size (x : string * Z) (l : list (string * Z)) : list (string * Z) :=
  match l with
  | [] => [x]
  | y :: l' => if (snd y <=? snd x)%Z then x :: l else y :: insert_by_size x l'
  end.

Fixpoint sorted_by_size_desc (l : list (string * Z)) : list (string * Z) :=
  match l with
  | [] => []
  | x :: l' => insert_by_size x (sorted_by_size_desc l')
  end.

(** [dict(items)] *)
Definition dict_of_items {V} (items : list (string * V)) : dict V :=
  fold_left (fun d kv => dict_set (fst kv) (snd kv) d) items [].

(** Lines 628-633.  The generator inside [any] iterates [blacklist]
    itself: on [None] that raises as soon as one name is tested. *)
Definition log_blacklisted (blacklist : option (list string)) (x : string)
  : result bool :=
  match blacklist with
  | Some b => blacklisted b x
  | None => Raise "'NoneType' object is not iterable"
  end.

(** Lines 636-641 *)
Fixpoint collect_sizes (fs : filesystem) (log_dir : string) (min_size : Z)
    (logs : list string) (log_sizes : dict Z) : result (dict Z) :=
  match logs with
  | [] => Ok log_sizes
  | log :: rest =>
      size <- getsize fs (path_join log_dir log) ;;
      collect_sizes fs log_dir min_size rest
        (if (min_size <=? size)%Z then dict_set log size log_sizes else log_sizes)
  end.

Record log_listing : Type := {
  log_file_directory : string;
  logs_with_size_in_bytes : dict Z;
  notes : string
}.

Definition default_min_size : Z := 2048.

Definition roslog_list (fs : filesystem) (min_size : Z)
    (blacklist : option (list string)) : result log_listing :=
  dir <- get_log_dir fs ;;
  let log_dir := dir ++ "/" in
  logs <- listdir fs log_dir ;;
  logs <- filterM (fun x => rmap negb (log_blacklisted blacklist x)) logs ;;
  log_sizes <- collect_sizes fs log_dir min_size logs [] ;;
  let log_sizes := dict_of_items (sorted_by_size_desc log_sizes) in
  Ok {| log_file_directory := log_dir;
        logs_with_size_in_bytes := log_sizes;
        notes := "Recommend only displaying the top N log files when you "
                 ++ "present this list to the user." |}.

(** ** The filter stages of the entity lister, in an arbitrary order

    The source applies namespace, pattern, blacklist.  To compare that
    order with the others, the stages are named and run from a list. *)

Inductive stage : Type := NamespaceStage | PatternStage | BlacklistStage.

Definition implemented_order : list stage :=
  [NamespaceStage; PatternStage; BlacklistStage].

Definition run_stage (pattern namespace : option string)
    (blacklist : option (list string)) (s : stage) (l : list string)
  : result (list string) :=
  match s with
  | NamespaceStage => Ok (namespace_stage namespace l)
  | PatternStage => pattern_stage pattern l
  | BlacklistStage => blacklist_stage blacklist l
  end.

(** The filters alone, without counters or placeholder. *)
Fixpoint run_stages (pattern namespace : option string)
    (blacklist : option (list string)) (order : list stage) (l : list string)
  : result (list string) :=
  match order with
  | [] => Ok l
  | s :: order' =>
      l' <- run_stage pattern namespace blacklist s l ;;
      run_stages pattern namespace blacklist order' l'
  end.

(** The state of the reordered lister: the current list and the counters
    measured so far. *)
Record progress : Type := {
  current : list string;
  seen_namespace : option nat;
  seen_pattern : option nat
}.

(** As in the source, the placeholder is chosen as soon as both counted
    stages have run. *)
Definition settle (type : string) (namespace : option string) (total : nat)
    (p : progress) (was_settled : bool) : progress :=
  match seen_namespace p, seen_pattern p with
  | Some n, Some m =>
      if was_settled then p
      else {| current := substitute_empty type namespace total n m (current p);
              seen_namespace := Some n; seen_pattern := Some m |}
  | _, _ => p
  end.

Definition settled (p : progress) : bool :=
  match seen_namespace p, seen_pattern p with
  | Some _, Some _ => true
  | _, _ => false
  end.

Definition step_stage (type : string) (pattern namespace : option string)
    (blacklist : option (list string)) (total : nat) (s : stage) (p : progress)
  : result progress :=
  l <- run_stage pattern namespace blacklist s (current p) ;;
  let p' :=
    match s with
    | NamespaceStage =>
        {| current := l; seen_namespace := Some (List.length l);
           seen_pattern := seen_pattern p |}
    | PatternStage =>
        {| current := l; seen_namespace := seen_namespace p;
           seen_pattern := Some (List.length l) |}
    | BlacklistStage =>
        {| current := l; seen_namespace := seen_namespace p;
           seen_pattern := seen_pattern p |}
    end in
  Ok (settle type namespace total p' (settled p)).

Fixpoint step_stages (type : string) (pattern namespace : option string)
    (blacklist : option (list string)) (total : nat) (order : list stage)
    (p : progress) : result progress :=
  match order with
  | [] => Ok p
  | s :: order' =>
      p' <- step_stage type pattern namespace blacklist total s p ;;
      step_stages type pattern namespace blacklist total order' p'
  end.

(** [get_entities] with its three filter stages taken in [order]: each
    counter is the length of the list right after its own stage. *)
Definition get_entities_in_order (order : list stage) (reg : registry)
    (type : string) (pattern namespace : option string)
    (blacklist : option (list string)) : result listing :=
  entities0 <- fetch_entities reg type ;;
  let total := List.length entities0 in
  p <- step_stages type pattern namespace blacklist total order
         {| current := entities0; seen_namespace := None; seen_pattern := None |} ;;
  Ok {| total := total;
        in_namespace := match seen_namespace p with Some n => n | None => total end;
        match_pattern := match seen_pattern p with Some m => m | None => total end;
        entities := py_sorted (current p) |}.

End Tools.

(** * The remaining tools *)

(** ** More Python string methods *)

(** A Python [str] is embedded as the [string] of its UTF-8 bytes.  The
    prefix, suffix, substring, replace, split and ordering functions of
    this file agree with Python's on these encodings: the encoding of a
    character never starts inside the encoding of another, and the order
    of the encodings byte by byte is the order of the code points.
    [str.strip] is the one method of the module that tells characters
    beyond the first 128 apart. *)
Definition utf8 (bytes : list nat) : string :=
  string_of_list_ascii (map ascii_of_nat bytes).

(** The encodings of the characters [str.isspace] accepts, which are the
    ones [str.strip()] removes: U+0009 to U+000D, U+001C to U+0020, U+0085,
    U+00A0, U+1680, U+2000 to U+200A, U+2028, U+2029, U+202F, U+205F and
    U+3000. *)
Definition whitespace : list string :=
  map utf8
    ([[9]; [10]; [11]; [12]; [13]; [28]; [29]; [30]; [31]; [32];
      [194; 133]; [194; 160]; [225; 154; 128]]
     ++ map (fun b => [226; 128; b]) (seq 128 11)
     ++ [[226; 128; 168]; [226; 128; 169]; [226; 128; 175];
         [226; 129; 159]; [227; 128; 128]])%list.

(** The string without the run of [blanks] it starts with.  [skip] counts
    the bytes of a blank just found that remain to be dropped. *)
Fixpoint strip_leading (blanks : list string) (s : string) (skip : nat)
  : string :=
  match s with
  | EmptyString => EmptyString
  | String c s' =>
      match skip with
      | S k => strip_leading blanks s' k
      | O =>
          match find (fun b => startswith s b) blanks with
          | Some b => strip_leading blanks s' (String.length b - 1)
          | None => s
          end
      end
  end.

(** [s.lstrip()] *)
Definition lstrip (s : string) : string := strip_leading whitespace s 0.

(** [s.rstrip()]: the same scan from the other end, on the reversed bytes
    against the reversed encodings. *)
Definition rstrip (s : string) : string :=
  str_rev (strip_leading (map str_rev whitespace) (str_rev s) 0).

(** [s.strip()] *)
Definition py_strip (s : string) : string := rstrip (lstrip s).

(** The line feed character. *)
Definition lf : ascii := "010"%char.

(** [s.split("\n")]: never empty, one more piece than there are line feeds. *)
Fixpoint split_lines (s : string) : list string :=
  match s with
  | EmptyString => [EmptyString]
  | String c s' =>
      if (c =? lf)%char then EmptyString :: split_lines s'
      else match split_lines s' with
           | line :: rest => String c line :: rest
           | [] => [String c EmptyString]
           end
  end.

(** The text of one line feed, ["\n"]. *)
Definition line_feed : string := String lf EmptyString.

(** The characters of [s] up to its first line feed. *)
Fixpoint first_line (s : string) : string :=
  match s with
  | EmptyString => EmptyString
  | String c s' =>
      if (c =? lf)%char then EmptyString else String c (first_line s')
  end.

Fixpoint drop_chars (n : nat) (s : string) : string :=
  match n, s with
  | S k, String _ s' => drop_chars k s'
  | _, _ => s
  end.

(** [regex.match(r"Type: (.+)", text)] and its [group(1)]: the pattern is
    a constant of the source.  It matches when the text starts with
    ["Type: "] followed by at least one character other than a line feed,
    and the group is the longest run of such characters. *)
Definition type_match (info_text : string) : option string :=
  if startswith info_text "Type: " then
    match first_line (drop_chars 6 info_text) with
    | EmptyString => None
    | group => Some group
    end
  else None.

(** ** The registry calls of the detail fetchers *)

(** An entry of [rosservice.get_service_list]: a service name, or with
    [include_nodes] the pair of the name and its provider nodes. *)
Inductive service_item : Type :=
| ServiceName (name : string)
| ServiceWithNodes (name : string) (nodes : list string).

Record introspection : Type := {
  get_info_text : string -> result string;
  get_node_info_description : string -> result string;
  get_service_list :
    option string -> option string -> bool -> result (list service_item);
  get_service_uri : string -> result (option string);
  get_service_headers : string -> option string -> result (dict string);
  get_msg_text : string -> result string;
  get_srv_text : string -> bool -> result string
}.

(** The loop shared by the detail fetchers:
    [for name in names: details[name] = fetch(name)], no [try]. *)
Fixpoint fetch_details {V} (fetch : string -> result V) (names : list string)
    (details : dict V) : result (dict V) :=
  match names with
  | [] => Ok details
  | name :: rest =>
      v <- fetch name ;;
      fetch_details fetch rest (dict_set name v details)
  end.

(** ** [rostopic_info] *)

(** The record under each topic: keys [topic], [type], [publishers],
    [subscribers]. *)
Record topic_details : Type := {
  td_topic : string;
  td_type : option string;
  td_publishers : list string;
  td_subscribers : list string
}.

(** Lines 309-310 *)
Definition strip_star (line : string) : string :=
  str_replace "* " "" (py_strip line).

(** The state of the line loop (lines 306-325). *)
Record capture : Type := {
  capture_publishers : bool;
  capture_subscribers : bool;
  seen_publishers : list string;
  seen_subscribers : list string
}.

Definition scan_line (st : capture) (line : string) : capture :=
  if contains "Publishers:" line then
    {| capture_publishers := true;
       capture_subscribers := capture_subscribers st;
       seen_publishers := seen_publishers st;
       seen_subscribers := seen_subscribers st |}
  else if contains "Subscribers:" line then
    {| capture_publishers := false;
       capture_subscribers := true;
       seen_publishers := seen_publishers st;
       seen_subscribers := seen_subscribers st |}
  else
    let line1 := if capture_publishers st then strip_star line else line in
    let line2 := if capture_subscribers st then strip_star line1 else line1 in
    {| capture_publishers := capture_publishers st;
       capture_subscribers := capture_subscribers st;
       seen_publishers :=
         if capture_publishers st
         then (seen_publishers st ++ [line1])%list else seen_publishers st;
       seen_subscribers :=
         if capture_subscribers st
         then (seen_subscribers st ++ [line2])%list else seen_subscribers st |}.

Definition scan_lines (lines : list string) (st : capture) : capture :=
  fold_left scan_line lines st.

Definition parse_info_text (topic info_text : string) : topic_details :=
  let st := scan_lines (split_lines info_text)
              {| capture_publishers := false; capture_subscribers := false;
                 seen_publishers := []; seen_subscribers := [] |} in
  {| td_topic := topic;
     td_type := type_match info_text;
     td_publishers := seen_publishers st;
     td_subscribers := seen_subscribers st |}.

Definition rostopic_info (ros : introspection) (topics : list string)
  : result (dict topic_details) :=
  fetch_details
    (fun topic => rmap (parse_info_text topic) (get_info_text ros topic))
    topics [].

(** ** [rosnode_info], [rosservice_info], [rosmsg_info], [rossrv_info] *)

Definition rosnode_info (ros : introspection) (nodes : list string)
  : result (dict string) :=
  fetch_details
    (fun node =>
       rmap (str_replace line_feed " ") (get_node_info_description ros node))
    nodes [].

Definition rosservice_info (ros : introspection) (services : list string)
  : result (dict (dict string)) :=
  fetch_details
    (fun service =>
       service_uri <- get_service_uri ros service ;;
       get_service_headers ros service service_uri)
    services [].

Definition rosmsg_info (ros : introspection) (msg_type : list string)
  : result (dict string) :=
  fetch_details (get_msg_text ros) msg_type [].

Definition rossrv_info (ros : introspection) (srv_type : list string) (raw : bool)
  : result (dict string) :=
  fetch_details (fun srv => get_srv_text ros srv raw) srv_type [].

(** ** [roslog_get_log_directory] *)

Definition roslog_get_log_directory (fs : filesystem) : result string :=
  dir <- get_log_dir fs ;; Ok (dir ++ "/").

(** ** The package index *)

(** A package manifest: its [__slots__] and [getattr]. *)
Record manifest (attr : Type) : Type := {
  slots : list string;
  getattr : string -> attr
}.
Arguments slots {attr} m.
Arguments getattr {attr} m member.

(** [rospkg.RosPack()] *)
Record rospack (attr : Type) : Type := {
  list_packages : result (list string);
  get_path : string -> result string;
  get_depends_on : string -> result (list string);
  get_manifest : string -> result (manifest attr)
}.
Arguments list_packages {attr} r.
Arguments get_path {attr} r package.
Arguments get_depends_on {attr} r package.
Arguments get_manifest {attr} r package.

Record package_listing : Type := {
  pkg_total : nat;
  msg_pkg_count : nat;
  pkg_match_pattern : nat;
  packages : list string
}.

(** A value stored under a package: its path, its dependents, or a
    manifest attribute. *)
Inductive info_value (attr : Type) : Type :=
| InfoPath (path : string)
| InfoDependencies (dependencies : list string)
| InfoAttr (a : attr).
Arguments InfoPath {attr} path.
Arguments InfoDependencies {attr} dependencies.
Arguments InfoAttr {attr} a.

Section MoreTools.

Context {rx : Regex}.

(** ** [rosservice_list] *)

(** [x.startswith(p)] on an entry: a list has no such method. *)
Definition item_startswith (x : service_item) (p : string) : result bool :=
  match x with
  | ServiceName name => Ok (startswith name p)
  | ServiceWithNodes _ _ =>
      Raise "'list' object has no attribute 'startswith'"
  end.

(** [word in x]: a substring test on a name, an element test on a list
    (the list of nodes is never equal to a string). *)
Definition item_contains (word : string) (x : service_item) : bool :=
  match x with
  | ServiceName name => contains word name
  | ServiceWithNodes name _ => word =? name
  end.

(** [regex.match(pattern, x)]: a list is not a string. *)
Definition item_match (pattern : string) (x : service_item) : result bool :=
  match x with
  | ServiceName name => regex_match pattern name
  | ServiceWithNodes _ _ => Raise "expected string or buffer"
  end.

Definition item_blacklisted (blacklist : list string) (x : service_item)
  : result bool :=
  anyM (fun pattern => item_match (".*" ++ pattern) x) blacklist.

Definition rosservice_list (ros : introspection)
    (node namespace : option string) (include_nodes : bool)
    (regex_pattern : option string)
    (exclude_logging exclude_rosapi exclude_parameters : bool)
    (exclude_pattern : option string) (blacklist : option (list string))
  : result (list service_item) :=
  services <- get_service_list ros node namespace include_nodes ;;
  services <-
    (if exclude_logging then
       services <- filterM (fun x => rmap negb (item_startswith x "/rosout"))
                     services ;;
       Ok (filter (fun x => negb (item_contains "logger" x)) services)
     else Ok services) ;;
  services <-
    (if exclude_rosapi
     then filterM (fun x => rmap negb (item_startswith x "/rosapi")) services
     else Ok services) ;;
  let services :=
    if exclude_parameters
    then filter (fun x => negb (item_contains "param" x)) services
    else services in
  services <-
    (if truthy_str exclude_pattern
     then filterM
            (fun x => rmap negb (item_match (".*" ++ fmt_opt exclude_pattern) x))
            services
     else Ok services) ;;
  services <-
    (if truthy_str regex_pattern
     then filterM (fun x => item_match (".*" ++ fmt_opt regex_pattern) x) services
     else Ok services) ;;
  if truthy_list blacklist
  then filterM
         (fun x =>
            rmap negb
              (item_blacklisted
                 (match blacklist with Some b => b | None => [] end) x))
         services
  else Ok services.

(** ** [rospkg_list] and [rospkg_info] *)

Definition rospkg_list {attr} (rp : rospack attr) (package_pattern : string)
    (ignore_msgs : bool) (blacklist : option (list string))
  : result package_listing :=
  packages0 <- list_packages rp ;;
  let count := List.length packages0 in
  let packages1 :=
    if ignore_msgs
    then filter (fun x => negb (endswith x "msgs")) packages0
    else packages0 in
  let msg_pkg_count := count - List.length packages1 in
  packages2 <-
    (if negb (package_pattern =? "") && negb (package_pattern =? ".*")
     then filterM (fun x => regex_match (".*" ++ package_pattern) x) packages1
     else Ok packages1) ;;
  packages3 <- blacklist_stage blacklist packages2 ;;
  let matches := List.length packages3 in
  Ok {| pkg_total := count; msg_pkg_count := msg_pkg_count;
        pkg_match_pattern := matches; packages := py_sorted packages3 |}.

(** Lines 597-604: the public, truthy attributes of the manifest. *)
Definition add_members {attr} (attr_truthy : attr -> bool) (m : manifest attr)
    (entry : dict (info_value attr)) : dict (info_value attr) :=
  fold_left
    (fun entry member =>
       if startswith member "_" then entry
       else if attr_truthy (getattr m member)
            then dict_set member (InfoAttr (getattr m member)) entry
            else entry)
    (slots m) entry.

Definition rospkg_info {attr} (attr_truthy : attr -> bool) (rp : rospack attr)
    (packages : list string) : result (dict (dict (info_value attr))) :=
  fetch_details
    (fun package =>
       package_path <- get_path rp package ;;
       dependencies <- get_depends_on rp package ;;
       m <- get_manifest rp package ;;
       Ok (add_members attr_truthy m
             [("path", InfoPath package_path);
              ("dependencies", InfoDependencies dependencies)]))
    packages [].

End MoreTools.

(** ** A reference matcher and sample collaborators

    The properties below hold for every [Regex]; the examples run the
    tools on a small matcher for the fragment of patterns built from
    literal characters, [.] and a postfix [*]. *)

Definition newline : ascii := "010"%char.

Definition char_matches (c t : ascii) : bool :=
  if (c =? ".")%char then negb (t =? newline)%char else (c =? t)%char.

Fixpoint match_here (re text : list ascii) : bool :=
  match re with
  | [] => true
  | c :: re1 =>
      match re1 with
      | "*"%char :: re2 =>
          (fix star (text : list ascii) : bool :=
             match_here re2 text
             || match text with
                | t :: text' => char_matches c t && star text'
                | [] => false
                end) text
      | _ =>
          match text with
          | t :: text' => char_matches c t && match_here re1 text'
          | [] => false
          end
      end
  end.

Definition metachars : list ascii :=
  list_ascii_of_string "()[]{}|+?\^$".

(** Patterns outside the fragment are refused, as [regex.error]. *)
Fixpoint in_fragment (re : list ascii) (after_atom : bool) : bool :=
  match re with
  | [] => true
  | c :: re' =>
      if existsb (Ascii.eqb c) metachars then false
      else if (c =? "*")%char then after_atom && in_fragment re' false
      else in_fragment re' true
  end.

Definition simple_regex : Regex :=
  fun pattern text =>
    if in_fragment (list_ascii_of_string pattern) false
    then Ok (match_here (list_ascii_of_string pattern) (list_ascii_of_string text))
    else Raise "regex.error".

(** A printer for lists of strings, enough for the examples. *)
Definition simple_repr : Repr :=
  fun l => "[" ++ String.concat ", " (map (fun s => "'" ++ s ++ "'") l) ++ "]".

(** ** Vocabulary of the statements *)

(** What a returned pass kept: exactly the elements tested [Ok true]. *)
Definition passes {A} (f : A -> result bool) (x : A) : bool :=
  match f x with
  | Ok true => true
  | _ => false
  end.

(** A pattern compiles when matching it never raises. *)
Definition compiles {rx : Regex} (pattern : string) : Prop :=
  forall text, exists b, regex_match pattern text = Ok b.

(** [k in d] *)
Definition dict_has {V} (k : string) (d : dict V) : bool :=
  match dict_get k d with
  | Some _ => true
  | None => false
  end.

(** The test a stage applies to one name. *)
Definition stage_test {rx : Regex} (pattern namespace : option string)
    (blacklist : option (list string)) (s : stage) (x : string) : result bool :=
  match s with
  | NamespaceStage =>
      Ok (if truthy_str namespace
          then startswith x (fmt_opt namespace ++ "/") else true)
  | PatternStage =>
      if truthy_str pattern
      then regex_match (".*" ++ fmt_opt pattern) x else Ok true
  | BlacklistStage =>
      if truthy_list blacklist
      then rmap negb
             (blacklisted (match blacklist with Some b => b | None => [] end) x)
      else Ok true
  end.

(** A name survives a set of stages when each of them tests it [Ok true]. *)
Definition survives {rx : Regex} (pattern namespace : option string)
    (blacklist : option (list string)) (order : list stage) (x : string) : bool :=
  forallb (fun s => passes (stage_test pattern namespace blacklist s) x) order.

(** No blacklist pattern matches [text]: there is no blacklist to apply,
    or every pattern was tried on the text and none matched. *)
Definition spared {rx : Regex} (blacklist : option (list string))
    (text : string) : Prop :=
  truthy_list blacklist = false \/
  exists b, blacklist = Some b /\ blacklisted b text = Ok false.

(** The test of a blacklist pass, [not any(...)], came out true on [x]. *)
Definition unmatched {rx : Regex} (blacklist : option (list string))
    (x : string) : bool :=
  match blacklisted (or_empty blacklist) x with
  | Ok false => true
  | _ => false
  end.

(** The placeholder [text] is what the caller sees, unless the blacklist
    matched it and left nothing. *)
Definition shown_unless_blacklisted {rx : Regex}
    (blacklist : option (list string)) (text : string) (l : list string) : Prop :=
  l = [text] \/
  (l = [] /\ exists b, blacklist = Some b /\ blacklisted b text = Ok true).

(** [param] without one leading slash. *)
Definition strip_slash (param : string) : string :=
  if startswith param "/"
  then match param with String _ rest => rest | EmptyString => param end
  else param.

(** Descending by size, as the log lister orders its mapping. *)
Definition size_ge (a b : string * Z) : Prop := (snd b <= snd a)%Z.

(** The entries the log lister keeps from [logs]: name and size of each
    file that is at least [min_size] bytes long. *)
Definition sized_logs (fs : filesystem) (log_dir : string) (min_size : Z)
    (logs : list string) : list (string * Z) :=
  flat_map
    (fun log =>
       match getsize fs (path_join log_dir log) with
       | Ok size => if (min_size <=? size)%Z then [(log, size)] else []
       | Raise _ => []
       end)
    logs.

(** Ascending order on names, as [sorted] leaves them. *)
Definition str_le (a b : string) : Prop := String.leb a b = true.


(** [d[topic]], or nothing when the topic is not a key. *)
Definition nodes_of (topic : string) (d : dict (list string)) : list string :=
  match dict_get topic d with
  | Some nodes => nodes
  | None => []
  end.

(** Lines 120 and 129: the node is kept by the namespace test. *)
Definition in_namespace_node (namespace : option string) (node : string) : bool :=
  negb (truthy_str namespace && negb (startswith node (fmt_opt namespace))).

(** The nodes the system state attaches to a topic, namespace applied. *)
Definition attached_nodes (namespace : option string) (rows : list state_row)
    (topic : string) : list string :=
  flat_map
    (fun row : state_row =>
       if fst row =? topic
       then filter (in_namespace_node namespace) (snd row)
       else [])
    rows.

(** Lines 160-161: the test of the node pattern on one triple. *)
Definition node_pattern_test {rx : Regex} (node_pattern : option string)
    (x : triple) : result bool :=
  b <- regex_match (fmt_opt node_pattern) (publisher x) ;;
  if b then Ok true else regex_match (fmt_opt node_pattern) (subscriber x).

(** A line that is neither of the two section headers. *)
Definition plain_line (line : string) : bool :=
  negb (contains "Publishers:" line) && negb (contains "Subscribers:" line).

(** The manifest members [rospkg_info] copies: public and truthy. *)
Definition copied_member {attr} (attr_truthy : attr -> bool) (m : manifest attr)
    (member : string) : bool :=
  negb (startswith member "_") && attr_truthy (getattr m member).

(** The file [log] of the directory has exactly [z] bytes. *)
Definition has_size (fs : filesystem) (log_dir log : string) (z : Z) : bool :=
  match getsize fs (path_join log_dir log) with
  | Ok size => (size =? z)%Z
  | Raise _ => false
  end.

(** ** Sample registries *)

Definition empty_registry : registry :=
  {| get_topic_list := Ok ([], []); get_node_names := Ok [] |}.

Definition one_node_registry : registry :=
  {| get_topic_list := Ok ([], []); get_node_names := Ok ["/a/x"] |}.

Definition two_topic_registry : registry :=
  {| get_topic_list :=
       Ok ([("/a/scan", "sensor_msgs/LaserScan", ["/a/lidar"]);
            ("/rosout", "rosgraph_msgs/Log", ["/a/lidar"])],
           [("/a/scan", "sensor_msgs/LaserScan", ["/a/nav"])]);
     get_node_names := Ok ["/a/nav"; "/a/lidar"; "/rosout"] |}.

(** ** Sample graph states *)

Definition two_node_master : master :=
  Ok ([("/a/t1", ["/a/n1"])], [("/a/t1", ["/a/n2"])], []).

Definition self_loop_master : master :=
  Ok ([("/a/t1", ["/a/n1"])], [("/a/t1", ["/a/n1"])], []).

(** One publisher on ["/fan"] and [n] subscribers ["/s"], ["/sx"], ... *)
Definition fan_out_master (n : nat) : master :=
  Ok ([("/fan", ["/pub"])],
      [("/fan", map (fun i => "/s" ++ String.concat "" (repeat "x" i)) (seq 0 n))],
      []).

(** The edges of [fan_out_master n]. *)
Definition fan_out_graph (n : nat) : list triple :=
  map (fun i => ("/pub", "/fan", "/s" ++ String.concat "" (repeat "x" i)))
    (seq 0 n).

(** ** Sample parameter servers *)

(** A server that keeps its parameters in a dictionary. *)
Definition store_server : ParamServer (dict string) := {|
  list_params := fun namespace st =>
    Ok (filter (fun k => startswith k namespace) (map fst st));
  get_param := fun param st =>
    match dict_get param st with
    | Some v => Ok v
    | None => Raise ("Parameter [" ++ param ++ "] is not set")
    end;
  set_param := fun param value st => (Ok tt, dict_set param value st)
|}.

(** A server that cannot be reached. *)
Definition offline_server : ParamServer unit := {|
  list_params := fun _ _ => Raise "Unable to communicate with master!";
  get_param := fun _ _ => Raise "Unable to communicate with master!";
  set_param := fun _ _ st => (Raise "Unable to communicate with master!", st)
|}.

(** ** Sample log directories *)

(** Two files, of 1024 and 4096 bytes. *)
Definition two_logs : filesystem := {|
  get_log_dir := Ok "/home/ros/.ros/log";
  listdir := fun d =>
    if d =? "/home/ros/.ros/log/" then Ok ["rosout.log"; "master.log"]
    else Raise ("[Errno 2] No such file or directory: '" ++ d ++ "'");
  getsize := fun path =>
    if path =? "/home/ros/.ros/log/rosout.log" then Ok 1024%Z
    else if path =? "/home/ros/.ros/log/master.log" then Ok 4096%Z
    else Raise ("[Errno 2] No such file or directory: '" ++ path ++ "'")
|}.

(** A log directory that does not exist. *)
Definition missing_logs : filesystem := {|
  get_log_dir := Ok "/home/ros/.ros/log";
  listdir := fun d => Raise ("[Errno 2] No such file or directory: '" ++ d ++ "'");
  getsize := fun path =>
    Raise ("[Errno 2] No such file or directory: '" ++ path ++ "'")
|}.

(** ** Sample introspection answers *)

(** What [rostopic info /chatter] prints. *)
Definition chatter_info : string :=
  String.concat line_feed
    ["Type: std_msgs/String"; "";
     "Publishers: "; " * /talker (http://host:40001/)"; "";
     "Subscribers: "; " * /listener (http://host:40002/)"; ""; ""].

Definition talker_description : string :=
  "Node [/talker]" ++ line_feed ++ "Publications: " ++ line_feed
  ++ " * /chatter [std_msgs/String]".

Definition sample_ros : introspection := {|
  get_info_text := fun topic =>
    if topic =? "/chatter" then Ok chatter_info
    else Raise ("Unknown topic " ++ topic);
  get_node_info_description := fun node =>
    if node =? "/talker" then Ok talker_description
    else Raise ("cannot contact [" ++ node ++ "]");
  get_service_list := fun _ _ include_nodes =>
    if include_nodes
    then Ok [ServiceWithNodes "/add_two_ints" ["/adder"]]
    else Ok [ServiceName "/rosout/get_loggers";
             ServiceName "/talker/set_logger_level";
             ServiceName "/rosapi/topics";
             ServiceName "/camera/set_parameters";
             ServiceName "/add_two_ints"];
  get_service_uri := fun service =>
    if service =? "/add_two_ints" then Ok (Some "rosrpc://host:40003")
    else Ok None;
  get_service_headers := fun service uri =>
    match uri with
    | Some _ => Ok [("type", "rospy_tutorials/AddTwoInts")]
    | None => Raise ("Unknown service [" ++ service ++ "]")
    end;
  get_msg_text := fun msg =>
    if msg =? "std_msgs/String" then Ok "string data"
    else Raise ("Cannot locate message [" ++ msg ++ "]");
  get_srv_text := fun srv _ =>
    if srv =? "rospy_tutorials/AddTwoInts"
    then Ok ("int64 a" ++ line_feed ++ "int64 b" ++ line_feed ++ "---"
             ++ line_feed ++ "int64 sum")
    else Raise ("Cannot locate service [" ++ srv ++ "]")
|}.

(** A registry that cannot be reached. *)
Definition offline_ros : introspection := {|
  get_info_text := fun _ => Raise "Unable to communicate with master!";
  get_node_info_description := fun _ => Raise "Unable to communicate with master!";
  get_service_list := fun _ _ _ => Raise "Unable to communicate with master!";
  get_service_uri := fun _ => Raise "Unable to communicate with master!";
  get_service_headers := fun _ _ => Raise "Unable to communicate with master!";
  get_msg_text := fun _ => Raise "Unable to communicate with master!";
  get_srv_text := fun _ _ => Raise "Unable to communicate with master!"
|}.

(** ** A sample package index, with text attributes *)

Definition text_truthy (a : string) : bool := negb (a =? "").

Definition sample_manifest : manifest string := {|
  slots := ["description"; "license"; "url"; "_dirs"];
  getattr := fun member =>
    if member =? "description" then "Tutorial nodes"
    else if member =? "license" then "BSD"
    else if member =? "_dirs" then "/opt/ros"
    else ""
|}.

Definition sample_rospack : rospack string := {|
  list_packages := Ok ["rospy_tutorials"; "std_msgs"; "roscpp"; "sensor_msgs"];
  get_path := fun package =>
    if package =? "rospy_tutorials"
    then Ok "/opt/ros/noetic/share/rospy_tutorials"
    else Raise package;
  get_depends_on := fun _ => Ok [];
  get_manifest := fun _ => Ok sample_manifest
|}.

(** Three files, two of them of the same size. *)
Definition tied_logs : filesystem := {|
  get_log_dir := Ok "/home/ros/.ros/log";
  listdir := fun _ => Ok ["a.log"; "b.log"; "c.log"];
  getsize := fun path =>
    if path =? "/home/ros/.ros/log/b.log" then Ok 200%Z else Ok 100%Z
|}.

(** * Properties *)

(** ** The [result] monad and the fallible list passes *)

Lemma bind_ok {A B} (m : result A) (k : A -> result B) (b : B) :
  bind m k = Ok b -> exists a, m = Ok a /\ k a = Ok b.
Proof.
  destruct m as [a | e]; simpl; intros H.
  - exists a. split; [reflexivity | exact H].
  - discriminate H.
Qed.

Lemma rmap_ok {A B} (f : A -> B) (m : result A) (b : B) :
  rmap f m = Ok b -> exists a, m = Ok a /\ b = f a.
Proof.
  unfold rmap. intros H. apply bind_ok in H. destruct H as (a & Hm & Hk).
  exists a. split; [exact Hm | congruence].
Qed.

Ltac bind_inv H :=
  let a := fresh "a" in
  let Hm := fresh "Hm" in
  apply bind_ok in H; destruct H as (a & Hm & H).

Lemma filterM_ok_filter {A} (f : A -> result bool) (l l' : list A) :
  filterM f l = Ok l' -> l' = filter (passes f) l.
Proof.
  revert l'. induction l as [| x l IH]; simpl; intros l' H.
  - congruence.
  - bind_inv H. bind_inv H. unfold passes at 1. rewrite Hm.
    rewrite <- (IH _ Hm0). destruct a; congruence.
Qed.

Lemma filterM_all_true {A} (f : A -> result bool) (l : list A) :
  (forall x, In x l -> f x = Ok true) -> filterM f l = Ok l.
Proof.
  induction l as [| x l IH]; simpl; intros H.
  - reflexivity.
  - rewrite (H x (or_introl eq_refl)). simpl.
    rewrite IH by (intros y Hy; apply H; right; exact Hy). reflexivity.
Qed.

Lemma filterM_incl {A} (f : A -> result bool) (l l' : list A) :
  filterM f l = Ok l' -> incl l' l.
Proof.
  intros H x Hx. rewrite (filterM_ok_filter _ _ _ H) in Hx.
  apply filter_In in Hx. tauto.
Qed.

Lemma filterM_kept {A} (f : A -> result bool) (l l' : list A) (x : A) :
  filterM f l = Ok l' -> In x l' -> f x = Ok true.
Proof.
  intros H Hx. rewrite (filterM_ok_filter _ _ _ H) in Hx.
  apply filter_In in Hx. destruct Hx as [_ Hp]. unfold passes in Hp.
  destruct (f x) as [[|] | e]; congruence.
Qed.

Lemma filterM_idempotent {A} (f : A -> result bool) (l l' : list A) :
  filterM f l = Ok l' -> filterM f l' = Ok l'.
Proof.
  intros H. apply filterM_all_true. intros x Hx.
  exact (filterM_kept _ _ _ _ H Hx).
Qed.

Lemma filterM_length {A} (f : A -> result bool) (l l' : list A) :
  filterM f l = Ok l' -> List.length l' <= List.length l.
Proof.
  intros H. rewrite (filterM_ok_filter _ _ _ H). apply filter_length_le.
Qed.

(** A pass whose test never raises on the list returns. *)
Lemma filterM_total {A} (f : A -> result bool) (l : list A) :
  (forall x, In x l -> exists b, f x = Ok b) -> exists l', filterM f l = Ok l'.
Proof.
  induction l as [| x l IH]; simpl; intros H.
  - eexists. reflexivity.
  - destruct (H x (or_introl eq_refl)) as [b Hb]. rewrite Hb. simpl.
    destruct IH as [l' Hl'].
    + intros y Hy. apply H. right. exact Hy.
    + rewrite Hl'. simpl. eexists. reflexivity.
Qed.


Section EntityLister.

Context {rx : Regex}.

(** ** Blacklist filtering *)

Lemma blacklist_stage_incl blacklist l l' :
  blacklist_stage blacklist l = Ok l' -> incl l' l.
Proof.
  unfold blacklist_stage, blacklist_filter.
  destruct (truthy_list blacklist); intros H.
  - exact (filterM_incl _ _ _ H).
  - injection H as <-. apply incl_refl.
Qed.

Lemma blacklist_stage_idempotent blacklist l l' :
  blacklist_stage blacklist l = Ok l' -> blacklist_stage blacklist l' = Ok l'.
Proof.
  unfold blacklist_stage, blacklist_filter.
  destruct (truthy_list blacklist); intros H.
  - exact (filterM_idempotent _ _ _ H).
  - reflexivity.
Qed.

(** C6.  Blacklist filtering only removes and is idempotent, for the pass
    over names ([get_entities] and the other listers) and for the pass over
    graph triples ([rosgraph_get]): whenever the pass returns, each element
    of its output is an element of its input, and running the same pass on
    the output returns the output unchanged. *)
Theorem blacklist_subtractive_idempotent :
  (forall (blacklist : list string) (l l' : list string),
      blacklist_filter blacklist l = Ok l' ->
      incl l' l /\ blacklist_filter blacklist l' = Ok l') /\
  (forall (blacklist : option (list string)) (l l' : list string),
      blacklist_stage blacklist l = Ok l' ->
      incl l' l /\ blacklist_stage blacklist l' = Ok l') /\
  (forall (blacklist : list string) (g g' : list triple),
      graph_blacklist_filter blacklist g = Ok g' ->
      incl g' g /\ graph_blacklist_filter blacklist g' = Ok g').
Proof.
  repeat split.
  - exact (filterM_incl _ _ _ H).
  - exact (filterM_idempotent _ _ _ H).
  - exact (blacklist_stage_incl _ _ _ H).
  - exact (blacklist_stage_idempotent _ _ _ H).
  - exact (filterM_incl _ _ _ H).
  - exact (filterM_idempotent _ _ _ H).
Qed.

(** ** Counters *)

(** The counters are computed before the blacklist is looked at. *)
Lemma get_entities_counters reg type pattern namespace blacklist r :
  get_entities reg type pattern namespace blacklist = Ok r ->
  exists raw matched,
    fetch_entities reg type = Ok raw /\
    pattern_stage pattern (namespace_stage namespace raw) = Ok matched /\
    total r = List.length raw /\
    in_namespace r = List.length (namespace_stage namespace raw) /\
    match_pattern r = List.length matched /\
    rmap py_sorted
      (blacklist_stage blacklist
         (substitute_empty type namespace (total r) (in_namespace r)
            (match_pattern r) matched)) = Ok (entities r).
Proof.
  unfold get_entities. intros H.
  apply bind_ok in H. destruct H as (raw & Hraw & H).
  apply bind_ok in H. destruct H as (matched & Hmatched & H).
  apply bind_ok in H. destruct H as (final & Hfinal & H).
  injection H as <-. simpl.
  exists raw, matched. rewrite Hfinal. simpl. repeat split; assumption.
Qed.

(** C10.  The counters [total], [in_namespace] and [match_pattern] do not
    depend on the blacklist: two returning calls of [get_entities] on the
    same registry, kind, pattern and namespace report the same three
    counters, whatever their blacklists. *)
Theorem counters_independent_of_blacklist
    reg type pattern namespace blacklist1 blacklist2 r1 r2 :
  get_entities reg type pattern namespace blacklist1 = Ok r1 ->
  get_entities reg type pattern namespace blacklist2 = Ok r2 ->
  total r1 = total r2 /\
  in_namespace r1 = in_namespace r2 /\
  match_pattern r1 = match_pattern r2.
Proof.
  intros H1 H2.
  apply get_entities_counters in H1. destruct H1 as (raw1 & m1 & F1 & P1 & T1 & N1 & M1 & _).
  apply get_entities_counters in H2. destruct H2 as (raw2 & m2 & F2 & P2 & T2 & N2 & M2 & _).
  assert (raw1 = raw2) by congruence. subst raw2.
  assert (m1 = m2) by congruence. subst m2.
  repeat split; congruence.
Qed.

(** ** Placeholder and blacklist *)

(** C9.  The blacklist runs after the placeholder substitution: when the
    registry reports no entity at all and the blacklist matches the
    "none in the system" text, [get_entities] returns an empty list, with
    no explanatory string in it. *)
Theorem blacklist_removes_placeholder reg type pattern namespace blacklist :
  fetch_entities reg type = Ok [] ->
  blacklisted blacklist (none_in_system type) = Ok true ->
  get_entities reg type pattern namespace (Some blacklist)
  = Ok {| total := 0; in_namespace := 0; match_pattern := 0; entities := [] |}.
Proof.
  intros Hraw Hbl. unfold get_entities. rewrite Hraw. cbn [bind].
  assert (Hns : namespace_stage namespace [] = []).
  { unfold namespace_stage. destruct (truthy_str namespace); reflexivity. }
  rewrite Hns.
  assert (Hpat : pattern_stage pattern [] = Ok []).
  { unfold pattern_stage. destruct (truthy_str pattern); reflexivity. }
  rewrite Hpat. cbn [bind List.length]. unfold substitute_empty. cbn [Nat.eqb].
  unfold blacklist_stage.
  destruct blacklist as [| b bs].
  - simpl in Hbl. discriminate Hbl.
  - cbn [truthy_list]. unfold blacklist_filter. cbn [filterM].
    rewrite Hbl. reflexivity.
Qed.

Lemma append_cancel_l (p a b : string) : p ++ a = p ++ b -> a = b.
Proof.
  induction p as [| c p IH]; simpl; intros H.
  - exact H.
  - injection H as H. exact (IH H).
Qed.

Lemma placeholders_distinct type namespace :
  none_in_system type <> none_in_namespace type namespace /\
  none_in_system type <> none_matching type /\
  none_in_namespace type namespace <> none_matching type.
Proof.
  unfold none_in_system, none_in_namespace, none_matching.
  repeat split; intros H;
    apply append_cancel_l in H; apply append_cancel_l in H;
    simpl in H; discriminate H.
Qed.

Lemma namespace_stage_length namespace l :
  List.length (namespace_stage namespace l) <= List.length l.
Proof.
  unfold namespace_stage. destruct (truthy_str namespace).
  - apply filter_length_le.
  - apply Nat.le_refl.
Qed.

Lemma pattern_stage_length pattern l l' :
  pattern_stage pattern l = Ok l' -> List.length l' <= List.length l.
Proof.
  unfold pattern_stage. destruct (truthy_str pattern); intros H.
  - exact (filterM_length _ _ _ H).
  - injection H as <-. apply Nat.le_refl.
Qed.

Lemma blacklist_stage_single blacklist text l :
  blacklist_stage blacklist [text] = Ok l ->
  shown_unless_blacklisted blacklist text l.
Proof.
  unfold blacklist_stage, shown_unless_blacklisted, blacklist_filter.
  destruct blacklist as [[| b bs] |]; cbn [truthy_list]; intros H;
    try (injection H as <-; left; reflexivity).
  cbn [filterM] in H. apply bind_ok in H. destruct H as (keep & Hkeep & H).
  apply rmap_ok in Hkeep. destruct Hkeep as (hit & Hhit & ->).
  simpl in H. injection H as <-.
  destruct hit; simpl.
  - right. split; [reflexivity |]. exists (b :: bs). split; [reflexivity | exact Hhit].
  - left. reflexivity.
Qed.

Lemma insert_str_perm x l : Permutation (insert_str x l) (x :: l).
Proof.
  induction l as [| y l IH]; simpl.
  - apply Permutation_refl.
  - destruct (String.leb x y).
    + apply Permutation_refl.
    + apply perm_trans with (y :: x :: l).
      * apply perm_skip. exact IH.
      * apply perm_swap.
Qed.

Lemma py_sorted_perm l : Permutation (py_sorted l) l.
Proof.
  induction l as [| x l IH]; simpl.
  - apply perm_nil.
  - apply perm_trans with (x :: py_sorted l).
    + apply insert_str_perm.
    + apply perm_skip. exact IH.
Qed.

Lemma py_sorted_in l x : In x (py_sorted l) <-> In x l.
Proof.
  split; apply Permutation_in;
    [apply py_sorted_perm | apply Permutation_sym, py_sorted_perm].
Qed.

Lemma blacklist_stage_spares blacklist l l' x :
  blacklist_stage blacklist l = Ok l' -> In x l' ->
  In x l /\ spared blacklist x.
Proof.
  unfold blacklist_stage, blacklist_filter, spared.
  destruct blacklist as [[| b bs] |]; cbn [truthy_list]; intros H Hx;
    try (injection H as <-; split; [exact Hx | left; reflexivity]).
  split; [exact (filterM_incl _ _ _ H x Hx) |].
  right. exists (b :: bs). split; [reflexivity |].
  pose proof (filterM_kept _ _ _ _ H Hx) as Hkept.
  cbv beta in Hkept. revert Hkept.
  destruct (blacklisted (b :: bs) x) as [[|] | e]; intros Hkept;
    try discriminate Hkept; reflexivity.
Qed.

Lemma spared_not_matched blacklist text b :
  spared blacklist text -> blacklist = Some b ->
  blacklisted b text = Ok true -> False.
Proof.
  intros [Hfalsy | (b' & Hb' & Hmiss)] Hb Hhit.
  - rewrite Hb in Hfalsy.
    destruct b as [| p b]; [discriminate Hhit | discriminate Hfalsy].
  - rewrite Hb in Hb'. injection Hb' as <-. congruence.
Qed.

(** C3, as amended.  When the registry reports nothing, or the namespace
    stage leaves nothing, or the pattern stage leaves nothing, the list
    handed to the blacklist is one explanatory string: the "in the system"
    text, the namespace text, or the pattern text, three different
    strings; and when no blacklist pattern matches that string (in
    particular without a blacklist) the caller receives exactly that one
    string.  A blacklist stage that leaves nothing has no explanatory
    string of its own: when the pattern stage is not empty the returned
    list is the sorted output of the blacklist stage, it holds only names
    of the registry that the blacklist spared, and is empty when it spared
    none. *)
Theorem empty_stage_placeholder reg type pattern namespace blacklist r :
  get_entities reg type pattern namespace blacklist = Ok r ->
  (total r = 0 ->
   spared blacklist (none_in_system type) ->
   entities r = [none_in_system type]) /\
  (total r <> 0 -> in_namespace r = 0 ->
   spared blacklist (none_in_namespace type namespace) ->
   entities r = [none_in_namespace type namespace]) /\
  (in_namespace r <> 0 -> match_pattern r = 0 ->
   spared blacklist (none_matching type) ->
   entities r = [none_matching type]) /\
  none_in_system type <> none_in_namespace type namespace /\
  none_in_system type <> none_matching type /\
  none_in_namespace type namespace <> none_matching type /\
  (match_pattern r <> 0 ->
   exists raw matched kept,
     fetch_entities reg type = Ok raw /\
     pattern_stage pattern (namespace_stage namespace raw) = Ok matched /\
     blacklist_stage blacklist matched = Ok kept /\
     entities r = py_sorted kept /\
     (kept = [] -> entities r = []) /\
     forall x, In x (entities r) -> In x raw /\ spared blacklist x).
Proof.
  intros H. apply get_entities_counters in H.
  destruct H as (raw & matched & Hraw & Hpat & Ht & Hn & Hm & Hout).
  apply rmap_ok in Hout. destruct Hout as (final & Hfinal & Hsorted).
  assert (Hle : in_namespace r <= total r).
  { rewrite Hn, Ht. apply namespace_stage_length. }
  assert (Hle2 : match_pattern r <= in_namespace r).
  { rewrite Hn, Hm. exact (pattern_stage_length _ _ _ Hpat). }
  assert (Hshow : forall text,
             substitute_empty type namespace (total r) (in_namespace r)
               (match_pattern r) matched = [text] ->
             spared blacklist text -> entities r = [text]).
  { intros text Hsub Hspared. rewrite Hsub in Hfinal.
    apply blacklist_stage_single in Hfinal. rewrite Hsorted.
    destruct Hfinal as [-> | [-> (b & Hb & Hhit)]]; [reflexivity |].
    exfalso. exact (spared_not_matched _ _ _ Hspared Hb Hhit). }
  destruct (placeholders_distinct type namespace) as (D1 & D2 & D3).
  split; [| split; [| split; [| split; [exact D1 | split; [exact D2 |
    split; [exact D3 |]]]]]].
  - intros H0. apply Hshow. unfold substitute_empty. rewrite H0. reflexivity.
  - intros H0 H1. apply Hshow. unfold substitute_empty.
    destruct (Nat.eqb_spec (total r) 0); [contradiction |].
    rewrite H1. reflexivity.
  - intros H0 H1. apply Hshow. unfold substitute_empty.
    destruct (Nat.eqb_spec (total r) 0); [lia |].
    destruct (Nat.eqb_spec (in_namespace r) 0); [contradiction |].
    rewrite H1. reflexivity.
  - intros H0. unfold substitute_empty in Hfinal.
    destruct (Nat.eqb_spec (total r) 0); [lia |].
    destruct (Nat.eqb_spec (in_namespace r) 0); [lia |].
    destruct (Nat.eqb_spec (match_pattern r) 0); [contradiction |].
    exists raw, matched, final.
    split; [exact Hraw |]. split; [exact Hpat |]. split; [exact Hfinal |].
    split; [exact Hsorted |].
    split; [intros ->; exact Hsorted |]. intros x Hx.
    rewrite Hsorted in Hx. apply (proj1 (py_sorted_in _ _)) in Hx.
    destruct (blacklist_stage_spares _ _ _ _ Hfinal Hx) as [Hin Hsp].
    split; [| exact Hsp].
    assert (Hns : incl (namespace_stage namespace raw) raw).
    { unfold namespace_stage. destruct (truthy_str namespace);
        [apply incl_filter | apply incl_refl]. }
    apply Hns. unfold pattern_stage in Hpat.
    destruct (truthy_str pattern).
    + exact (filterM_incl _ _ _ Hpat x Hin).
    + injection Hpat as <-. exact Hin.
Qed.

(** ** Order of the filter stages *)

Lemma filterM_pure {A} (g : A -> bool) (l : list A) :
  filterM (fun x => Ok (g x)) l = Ok (filter g l).
Proof.
  induction l as [| x l IH]; simpl.
  - reflexivity.
  - rewrite IH. simpl. destruct (g x); reflexivity.
Qed.

Lemma filter_all {A} (l : list A) : filter (fun _ => true) l = l.
Proof. induction l as [| x l IH]; simpl; congruence. Qed.

Lemma filter_twice {A} (f g : A -> bool) (l : list A) :
  filter g (filter f l) = filter (fun x => f x && g x) l.
Proof.
  induction l as [| x l IH]; simpl.
  - reflexivity.
  - destruct (f x); simpl; [destruct (g x) |]; rewrite IH; reflexivity.
Qed.

Lemma run_stage_filterM pattern namespace blacklist s l :
  run_stage pattern namespace blacklist s l
  = filterM (stage_test pattern namespace blacklist s) l.
Proof.
  destruct s; unfold run_stage, stage_test.
  - unfold namespace_stage. destruct (truthy_str namespace).
    + symmetry. exact (filterM_pure _ l).
    + rewrite (filterM_pure (fun _ => true)), filter_all. reflexivity.
  - unfold pattern_stage. destruct (truthy_str pattern); [reflexivity |].
    rewrite (filterM_pure (fun _ => true)), filter_all. reflexivity.
  - unfold blacklist_stage. destruct (truthy_list blacklist); [reflexivity |].
    rewrite (filterM_pure (fun _ => true)), filter_all. reflexivity.
Qed.

(** A returning run keeps exactly the names that survive every stage. *)
Lemma run_stages_survivors pattern namespace blacklist order l l' :
  run_stages pattern namespace blacklist order l = Ok l' ->
  l' = filter (survives pattern namespace blacklist order) l.
Proof.
  revert l l'. induction order as [| s order IH]; simpl; intros l l' H.
  - injection H as <-. symmetry. apply filter_all.
  - apply bind_ok in H. destruct H as (l1 & H1 & H).
    rewrite run_stage_filterM in H1. apply filterM_ok_filter in H1.
    rewrite (IH _ _ H), H1. apply filter_twice.
Qed.



Lemma anyM_total {A} (f : A -> result bool) (l : list A) :
  (forall x, In x l -> exists b, f x = Ok b) -> exists b, anyM f l = Ok b.
Proof.
  induction l as [| x l IH]; simpl; intros H.
  - eexists. reflexivity.
  - destruct (H x (or_introl eq_refl)) as [b Hb]. rewrite Hb. simpl.
    destruct b; [eexists; reflexivity |].
    apply IH. intros y Hy. apply H. right. exact Hy.
Qed.


(** Run from the list [implemented_order], the reordered lister is the
    source's [get_entities]. *)
Lemma get_entities_in_implemented_order reg type pattern namespace blacklist :
  get_entities_in_order implemented_order reg type pattern namespace blacklist
  = get_entities reg type pattern namespace blacklist.
Proof.
  unfold get_entities_in_order, get_entities.
  destruct (fetch_entities reg type) as [raw | e]; [| reflexivity].
  unfold implemented_order. cbn [step_stages]. unfold step_stage.
  cbn [bind run_stage current seen_namespace seen_pattern settle settled].
  destruct (pattern_stage pattern (namespace_stage namespace raw))
    as [matched | e]; [| reflexivity].
  cbn [bind current seen_namespace seen_pattern settle settled].
  destruct (blacklist_stage blacklist _) as [final | e]; reflexivity.
Qed.


End EntityLister.

Section GraphBuilder.

Context {rx : Regex} {rp : Repr}.

(** ** Dictionaries *)

Lemma dict_get_in {V} (k : string) (v : V) (d : dict V) :
  dict_get k d = Some v -> In (k, v) d.
Proof.
  induction d as [| [k' v'] d IH]; simpl; intros H.
  - discriminate H.
  - destruct (String.eqb_spec k k') as [-> | Hne].
    + injection H as ->. left. reflexivity.
    + right. exact (IH H).
Qed.

Lemma in_dict_has {V} (k : string) (v : V) (d : dict V) :
  In (k, v) d -> dict_has k d = true.
Proof.
  unfold dict_has. induction d as [| [k' v'] d IH]; simpl; intros H.
  - contradiction.
  - destruct (String.eqb_spec k k') as [-> | Hne]; [reflexivity |].
    destruct H as [H | H]; [congruence | exact (IH H)].
Qed.

Lemma in_dict_get_nodup {V} (k : string) (v : V) (d : dict V) :
  NoDup (map fst d) -> In (k, v) d -> dict_get k d = Some v.
Proof.
  induction d as [| [k' v'] d IH]; simpl; intros Hnd H.
  - contradiction.
  - inversion Hnd as [| ? ? Hnotin Hnd']; subst.
    destruct H as [H | H].
    + injection H as -> ->. rewrite String.eqb_refl. reflexivity.
    + destruct (String.eqb_spec k k') as [-> | Hne].
      * exfalso. apply Hnotin. apply (in_map fst) in H. exact H.
      * exact (IH Hnd' H).
Qed.

Lemma dict_set_keys {V} (k : string) (v : V) (d : dict V) :
  map fst (dict_set k v d)
  = if dict_has k d then map fst d else (map fst d ++ [k])%list.
Proof.
  unfold dict_has. induction d as [| [k' v'] d IH]; simpl.
  - reflexivity.
  - destruct (String.eqb_spec k k') as [-> | Hne]; simpl.
    + reflexivity.
    + rewrite IH. destruct (dict_get k d); reflexivity.
Qed.

Lemma dict_has_keys {V} (k : string) (d : dict V) :
  dict_has k d = true <-> In k (map fst d).
Proof.
  unfold dict_has. induction d as [| [k' v'] d IH]; simpl.
  - split; [discriminate | contradiction].
  - destruct (String.eqb_spec k k') as [-> | Hne].
    + split; auto.
    + rewrite IH. split; [auto | intros [H | H]; [congruence | exact H]].
Qed.

Lemma dict_set_nodup {V} (k : string) (v : V) (d : dict V) :
  NoDup (map fst d) -> NoDup (map fst (dict_set k v d)).
Proof.
  intros Hnd. rewrite dict_set_keys.
  destruct (dict_has k d) eqn:Hk; [exact Hnd |].
  apply NoDup_app; [exact Hnd | repeat constructor; intros [] | ].
  intros x Hx [<- | []].
  apply dict_has_keys in Hx. congruence.
Qed.

Lemma build_topic_map_nodup namespace rows :
  NoDup (map fst (build_topic_map namespace rows)).
Proof.
  unfold build_topic_map.
  assert (Hinner : forall topic nodes d,
             NoDup (map fst d) ->
             NoDup (map fst
                      (fold_left
                         (fun d node =>
                            if truthy_str namespace
                               && negb (startswith node (fmt_opt namespace))
                            then d else dict_add_node topic node d)
                         nodes d))).
  { intros topic nodes. induction nodes as [| node nodes IH]; simpl; intros d Hd.
    - exact Hd.
    - apply IH. destruct (_ && _); [exact Hd |].
      unfold dict_add_node. destruct (dict_get topic d); apply dict_set_nodup, Hd. }
  assert (Houter : forall d, NoDup (map fst d) ->
             NoDup (map fst
                      (fold_left
                         (fun d row =>
                            fold_left
                              (fun d node =>
                                 if truthy_str namespace
                                    && negb (startswith node (fmt_opt namespace))
                                 then d else dict_add_node (fst row) node d)
                              (snd row) d)
                         rows d))).
  { induction rows as [| row rows IH]; simpl; intros d Hd.
    - exact Hd.
    - apply IH. apply Hinner. exact Hd. }
  apply Houter. constructor.
Qed.

(** ** The join *)

Lemma flat_mapM_in {A B} (f : A -> result (list B)) (l : list A)
    (r : list B) (y : B) :
  flat_mapM f l = Ok r -> In y r ->
  exists x r', In x l /\ f x = Ok r' /\ In y r'.
Proof.
  revert r. induction l as [| x l IH]; simpl; intros r H Hy.
  - injection H as <-. contradiction.
  - apply bind_ok in H. destruct H as (r1 & H1 & H).
    apply bind_ok in H. destruct H as (r2 & H2 & H).
    injection H as <-. apply in_app_or in Hy. destruct Hy as [Hy | Hy].
    + exists x, r1. auto.
    + destruct (IH _ H2 Hy) as (x' & r' & Hx' & Hf & Hin).
      exists x', r'. auto.
Qed.

(** Every joined triple is an edge of both maps. *)
Lemma join_maps_in topic_pattern topic_pub_map topic_sub_map g x :
  join_maps topic_pattern topic_pub_map topic_sub_map = Ok g ->
  In x g ->
  exists pubs subs,
    In (topic_of x, pubs) topic_pub_map /\ In (publisher x) pubs /\
    dict_get (topic_of x) topic_sub_map = Some subs /\ In (subscriber x) subs.
Proof.
  unfold join_maps. intros H Hx.
  destruct (flat_mapM_in _ _ _ _ H Hx) as ([topic pubs] & r1 & Hentry & Hf & Hx1).
  destruct (dict_get topic topic_sub_map) as [subs |] eqn:Hsubs.
  - destruct (flat_mapM_in _ _ _ _ Hf Hx1) as (pub & r2 & Hpub & Hf2 & Hx2).
    destruct (flat_mapM_in _ _ _ _ Hf2 Hx2) as (sub & r3 & Hsub & Hf3 & Hx3).
    apply bind_ok in Hf3. destruct Hf3 as (keep & _ & Hf3).
    injection Hf3 as <-.
    destruct keep; [| contradiction].
    destruct Hx3 as [<- | []].
    exists pubs, subs. simpl. auto.
  - injection Hf as <-. contradiction.
Qed.

Lemma self_connection_filter_in exclude g x :
  In x (self_connection_filter exclude g) ->
  In x g /\ (exclude = true -> publisher x <> subscriber x).
Proof.
  unfold self_connection_filter. destruct exclude; intros H.
  - apply filter_In in H. destruct H as [Hin Hneq]. split; [exact Hin |].
    intros _ Heq. rewrite Heq, String.eqb_refl in Hneq. discriminate Hneq.
  - split; [exact H | discriminate].
Qed.

Lemma node_pattern_filter_incl node_pattern g g' :
  node_pattern_filter node_pattern g = Ok g' -> incl g' g.
Proof.
  unfold node_pattern_filter. destruct (truthy_str node_pattern); intros H.
  - exact (filterM_incl _ _ _ H).
  - injection H as <-. apply incl_refl.
Qed.

Lemma filtered_graph_in publishers subscribers namespace node_pattern
    topic_pattern blacklist exclude g x :
  filtered_graph publishers subscribers namespace node_pattern topic_pattern
    blacklist exclude = Ok g ->
  In x g ->
  (exists pubs subs,
      dict_get (topic_of x) (build_topic_map namespace publishers) = Some pubs /\
      In (publisher x) pubs /\
      dict_get (topic_of x) (build_topic_map namespace subscribers) = Some subs /\
      In (subscriber x) subs) /\
  (exclude = true -> publisher x <> subscriber x).
Proof.
  unfold filtered_graph. intros H Hx.
  apply bind_ok in H. destruct H as (g0 & H0 & H).
  apply bind_ok in H. destruct H as (g1 & H1 & H).
  apply bind_ok in H. destruct H as (g2 & H2 & H).
  injection H as <-.
  apply self_connection_filter_in in Hx. destruct Hx as [Hx Hself].
  apply (node_pattern_filter_incl _ _ _ H2) in Hx.
  apply (filterM_incl _ _ _ H1) in Hx.
  destruct (join_maps_in _ _ _ _ _ H0 Hx) as (pubs & subs & Hp & Hpi & Hs & Hsi).
  split; [| exact Hself].
  exists pubs, subs. repeat split; try assumption.
  apply in_dict_get_nodup; [apply build_topic_map_nodup | exact Hp].
Qed.

(** What a successful reply of [rosgraph_get] is made of. *)
Lemma rosgraph_get_ok m namespace node_pattern topic_pattern blacklist exclude resp :
  rosgraph_get m namespace node_pattern topic_pattern blacklist exclude
  = Ok (GraphOk resp) ->
  exists publishers subscribers services,
    m = Ok (publishers, subscribers, services) /\
    filtered_graph publishers subscribers namespace node_pattern topic_pattern
      (or_empty blacklist) exclude = Ok (graph resp) /\
    graph resp <> [] /\
    total_connections resp = List.length (graph resp) /\
    warning resp
    = if (50 <? List.length (graph resp))%nat then Some graph_warning else None.
Proof.
  unfold rosgraph_get. intros H.
  destruct m as [[[publishers subscribers] services] | e]; [| discriminate H].
  apply bind_ok in H. destruct H as (g & Hg & H).
  destruct g as [| x g]; [discriminate H |].
  injection H as <-. cbn [graph total_connections warning].
  exists publishers, subscribers, services.
  repeat split; try assumption. discriminate.
Qed.

(** The reply [rosgraph_get] gives for a filtered edge list that is not
    empty. *)
Lemma rosgraph_get_reply publishers subscribers services namespace node_pattern
    topic_pattern blacklist exclude g :
  filtered_graph publishers subscribers namespace node_pattern topic_pattern
    (or_empty blacklist) exclude = Ok g ->
  g <> [] ->
  exists resp,
    rosgraph_get (Ok (publishers, subscribers, services)) namespace node_pattern
      topic_pattern blacklist exclude = Ok (GraphOk resp) /\
    graph resp = g /\
    total_connections resp = List.length g /\
    warning resp
    = if (50 <? List.length g)%nat then Some graph_warning else None.
Proof.
  intros Hg Hne. unfold rosgraph_get. rewrite Hg. cbn [bind].
  destruct g as [| x g]; [contradiction Hne; reflexivity |].
  eexists. split; [reflexivity |].
  cbn [graph total_connections warning]. repeat split.
Qed.

(** C4.  Whenever the filtered edge list is not empty, [rosgraph_get]
    answers with a successful reply that holds the whole list, never a
    truncation of it, with [total_connections] its length, and that
    carries the oversize warning when the list has more than 50 triples
    and no warning when it has 50 or fewer.  Conversely a successful reply
    carries the warning exactly when its edge list has more than 50
    triples, and its edge list is the whole filtered graph. *)
Theorem graph_warning_threshold
    m namespace node_pattern topic_pattern blacklist exclude :
  (forall publishers subscribers services g,
     m = Ok (publishers, subscribers, services) ->
     filtered_graph publishers subscribers namespace node_pattern topic_pattern
       (or_empty blacklist) exclude = Ok g ->
     g <> [] ->
     exists resp,
       rosgraph_get m namespace node_pattern topic_pattern blacklist exclude
       = Ok (GraphOk resp) /\
       graph resp = g /\
       total_connections resp = List.length g /\
       (50 < List.length g -> warning resp = Some graph_warning) /\
       (List.length g <= 50 -> warning resp = None)) /\
  (forall resp,
     rosgraph_get m namespace node_pattern topic_pattern blacklist exclude
     = Ok (GraphOk resp) ->
     (warning resp = Some graph_warning <-> 50 < List.length (graph resp)) /\
     (warning resp = None <-> List.length (graph resp) <= 50) /\
     total_connections resp = List.length (graph resp) /\
     exists publishers subscribers services,
       m = Ok (publishers, subscribers, services) /\
       filtered_graph publishers subscribers namespace node_pattern
         topic_pattern (or_empty blacklist) exclude = Ok (graph resp)).
Proof.
  split.
  - intros pubs subs srvs g -> Hg Hne.
    destruct (rosgraph_get_reply pubs subs srvs namespace node_pattern
                topic_pattern blacklist exclude g Hg Hne)
      as (resp & Hreply & Hgraph & Hlen & Hwarn).
    exists resp. repeat split; try assumption.
    + intros Hbig. rewrite Hwarn.
      destruct (Nat.ltb_spec 50 (List.length g)); [reflexivity | lia].
    + intros Hsmall. rewrite Hwarn.
      destruct (Nat.ltb_spec 50 (List.length g)); [lia | reflexivity].
  - intros resp H. apply rosgraph_get_ok in H.
    destruct H as (pubs & subs & srvs & Hm & Hg & _ & Hlen & Hwarn).
    split; [| split; [| split]].
    + rewrite Hwarn. destruct (Nat.ltb_spec 50 (List.length (graph resp))).
      * split; auto.
      * split; [discriminate | lia].
    + rewrite Hwarn. destruct (Nat.ltb_spec 50 (List.length (graph resp))).
      * split; [discriminate | lia].
      * split; auto.
    + exact Hlen.
    + exists pubs, subs, srvs. auto.
Qed.

(** C5.  Every triple of the graph [rosgraph_get] returns has its topic as
    a key of both the topic-to-publishers map and the topic-to-subscribers
    map built before any filter ran, with its publisher and its subscriber
    listed under that key; and with [exclude_self_connections] set, its
    publisher differs from its subscriber. *)
Theorem graph_triples_sound
    publishers subscribers services namespace node_pattern topic_pattern
    blacklist exclude resp x :
  rosgraph_get (Ok (publishers, subscribers, services)) namespace node_pattern
    topic_pattern blacklist exclude = Ok (GraphOk resp) ->
  In x (graph resp) ->
  dict_has (topic_of x) (build_topic_map namespace publishers) = true /\
  dict_has (topic_of x) (build_topic_map namespace subscribers) = true /\
  (exists pubs subs,
      dict_get (topic_of x) (build_topic_map namespace publishers) = Some pubs /\
      In (publisher x) pubs /\
      dict_get (topic_of x) (build_topic_map namespace subscribers) = Some subs /\
      In (subscriber x) subs) /\
  (exclude = true -> publisher x <> subscriber x).
Proof.
  intros H Hx. apply rosgraph_get_ok in H.
  destruct H as (pubs' & subs' & srvs' & Hm & Hg & _).
  injection Hm as <- <- <-.
  destruct (filtered_graph_in _ _ _ _ _ _ _ _ _ Hg Hx)
    as [(pubs & subs & Hp & Hpi & Hs & Hsi) Hself].
  unfold dict_has. rewrite Hp, Hs.
  repeat split; try reflexivity; try exact Hself.
  exists pubs, subs. auto.
Qed.

End GraphBuilder.

Section ParameterAccessors.

Context {rx : Regex} {pserver : Type} {ps : ParamServer pserver}.

(** ** The rerouted key *)

Lemma replace_copy (c : ascii) (s : string) :
  String.prefix "//" (String c s) = false ->
  replace_from "//" "/" (String c s) 0 = String c (replace_from "//" "/" s 0).
Proof. intros H. cbn [replace_from]. rewrite H. reflexivity. Qed.

Lemma replace_at_slash (s : string) :
  replace_from "//" "/" (String "/" s) 0
  = String "/" (if String.prefix "/" s
                then replace_from "//" "/" s 1
                else replace_from "//" "/" s 0).
Proof.
  change (replace_from "//" "/" (String "/" s) 0)
    with (if String.prefix "/" s
          then "/" ++ replace_from "//" "/" s 1
          else String "/" (replace_from "//" "/" s 0)).
  destruct (String.prefix "/" s); reflexivity.
Qed.

Lemma rerouted_key_unfold (param : string) :
  str_replace "//" "/" ("/rosa/" ++ param)
  = "/rosa/" ++ (if startswith param "/"
                 then replace_from "//" "/" param 1
                 else replace_from "//" "/" param 0).
Proof.
  unfold str_replace, startswith.
  change ("/rosa/" ++ param)
    with (String "/" (String "r" (String "o" (String "s" (String "a"
            (String "/" param)))))).
  rewrite replace_at_slash.
  change (String.prefix "/" (String "r" (String "o" (String "s" (String "a"
            (String "/" param)))))) with false.
  cbv iota.
  rewrite !replace_copy by reflexivity.
  rewrite replace_at_slash. reflexivity.
Qed.

Lemma replace_without_double_slash (s : string) :
  contains "//" s = false -> replace_from "//" "/" s 0 = s.
Proof.
  induction s as [| c s IH]; intros H.
  - reflexivity.
  - cbn [contains] in H. apply orb_false_elim in H. destruct H as [Hp Hc].
    rewrite (replace_copy _ _ Hp), (IH Hc). reflexivity.
Qed.

Lemma contains_cons (needle : string) (c : ascii) (s : string) :
  contains needle (String c s)
  = String.prefix needle (String c s) || contains needle s.
Proof. reflexivity. Qed.

Lemma rerouted_key_well_formed (param : string) :
  contains "//" param = false ->
  str_replace "//" "/" ("/rosa/" ++ param) = "/rosa/" ++ strip_slash param /\
  contains "//" ("/rosa/" ++ strip_slash param) = false.
Proof.
  intros H. rewrite rerouted_key_unfold. unfold strip_slash, startswith.
  assert (Hjoin : forall s, String.prefix "/" s = false ->
                            contains "//" s = false ->
                            contains "//" ("/rosa/" ++ s) = false).
  { intros s Hs Hc.
    change ("/rosa/" ++ s)
      with (String "/" (String "r" (String "o" (String "s" (String "a"
              (String "/" s)))))).
    rewrite !contains_cons.
    change (String.prefix "//" (String "/" s)) with (String.prefix "/" s).
    rewrite Hs, Hc. reflexivity. }
  destruct (String.prefix "/" param) eqn:Hslash.
  - destruct param as [| c rest]; [discriminate Hslash |].
    rewrite contains_cons in H. apply orb_false_elim in H. destruct H as [Hp Hc].
    assert (Hrest : String.prefix "/" rest = false).
    { assert (Hc' : c = "/"%char).
      { cbn [String.prefix] in Hslash. destruct (ascii_dec "/" c); [auto | discriminate]. }
      subst c. exact Hp. }
    change (replace_from "//" "/" (String c rest) 1)
      with (replace_from "//" "/" rest 0).
    rewrite (replace_without_double_slash _ Hc).
    split; [reflexivity | exact (Hjoin _ Hrest Hc)].
  - rewrite (replace_without_double_slash _ H).
    split; [reflexivity | exact (Hjoin _ Hslash H)].
Qed.

Lemma prefix_append (p s : string) : String.prefix p (p ++ s) = true.
Proof.
  induction p as [| c p IH].
  - destruct s; reflexivity.
  - cbn [append String.prefix]. destruct (ascii_dec c c); [exact IH | contradiction].
Qed.

Lemma rerouted_key_strip (param : string) :
  str_replace "//" "/" ("/rosa/" ++ param)
  = "/rosa/" ++ str_replace "//" "/" (strip_slash param).
Proof.
  rewrite rerouted_key_unfold. unfold strip_slash, str_replace, startswith.
  destruct (String.prefix "/" param) eqn:Hslash; [| reflexivity].
  destruct param as [| c rest]; [discriminate Hslash | reflexivity].
Qed.

(** C7, as amended.  With [is_rosa_param] set and a key that does not
    start with ["/rosa"], [rosparam_set] hands the parameter server the key
    ["/rosa/" ++ param] with ["//"] replaced by ["/"] in one pass from the
    left: that is ["/rosa/"] followed by the key without its leading
    slash, itself with ["//"] replaced by ["/"] in one pass.  The written
    key always starts with ["/rosa/"], and for a key that holds no double
    slash of its own it is ["/rosa/"] followed by the key without its
    leading slash, free of double slashes.  The reply names that key. *)
Theorem rosa_param_rerouted (param value : string) (st : pserver) :
  startswith param "/rosa" = false ->
  let key := str_replace "//" "/" ("/rosa/" ++ param) in
  target_key param true = key /\
  rosparam_set param value true st
  = (match fst (set_param key value st) with
     | Ok _ => Ok ("Set parameter '" ++ key ++ "' to '" ++ value ++ "'.")
     | Raise e =>
         Ok ("Failed to set parameter '" ++ key ++ "' to '" ++ value ++ "': "
             ++ e ++ ". Try again!")
     end, snd (set_param key value st)) /\
  key = "/rosa/" ++ str_replace "//" "/" (strip_slash param) /\
  startswith key "/rosa/" = true /\
  (contains "//" param = false ->
   key = "/rosa/" ++ strip_slash param /\ contains "//" key = false).
Proof.
  intros Hstart key.
  assert (Hkey : target_key param true = key).
  { unfold target_key. rewrite Hstart. reflexivity. }
  split; [exact Hkey |]. split; [| split; [| split]].
  - unfold rosparam_set. rewrite Hkey.
    destruct (set_param key value st) as [[u | e] st']; reflexivity.
  - apply rerouted_key_strip.
  - unfold key. rewrite rerouted_key_unfold. apply prefix_append.
  - intros Hwf. unfold key.
    destruct (rerouted_key_well_formed param Hwf) as [-> Hfree].
    split; [reflexivity | exact Hfree].
Qed.

End ParameterAccessors.

Section ErrorBoundary.

Context {rx : Regex} {rp : Repr} {pserver : Type} {ps : ParamServer pserver}.

Lemma list_tool_returns reg type failure pattern namespace blacklist :
  exists reply,
    list_tool reg type failure pattern namespace blacklist = Ok reply /\
    forall e, get_entities reg type pattern namespace blacklist = Raise e ->
              reply = ListError (failure ++ e).
Proof.
  unfold list_tool.
  destruct (get_entities reg type pattern namespace blacklist) as [l | e0].
  - eexists. split; [reflexivity | discriminate].
  - eexists. split; [reflexivity |]. intros e He. congruence.
Qed.

(** C1, as amended.  A failure of the registry or parameter call is turned
    into a value at the boundary of [rosgraph_get] (its [getSystemState]
    call), [rostopic_list], [rosnode_list], [rosparam_list] and
    [rosparam_set]: the first four return an error payload and the last a
    failure-prefixed string, each holding the text of the exception, and
    the last four never raise.  [rosparam_get] and [roslog_list] have no
    handler: a failure of [get_param] or of the directory listing reaches
    the caller as it is. *)
Theorem failures_at_the_boundary :
  (forall e namespace node_pattern topic_pattern blacklist exclude,
      rosgraph_get (Raise e) namespace node_pattern topic_pattern blacklist exclude
      = Ok (GraphError ("Failed to get ROS graph: " ++ e))) /\
  (forall reg pattern namespace blacklist,
      exists reply,
        rostopic_list reg pattern namespace blacklist = Ok reply /\
        forall e, get_topic_list reg = Raise e ->
                  reply = ListError ("Failed to get ROS topics: " ++ e)) /\
  (forall reg pattern namespace blacklist,
      exists reply,
        rosnode_list reg pattern namespace blacklist = Ok reply /\
        forall e, get_node_names reg = Raise e ->
                  reply = ListError ("Failed to get ROS nodes: " ++ e)) /\
  (forall namespace blacklist (st : pserver),
      exists reply,
        rosparam_list namespace blacklist st = Ok reply /\
        forall e, list_params namespace st = Raise e ->
                  reply = ParamListError ("Failed to get ROS parameters: " ++ e)) /\
  (forall param value is_rosa_param (st : pserver),
      exists message,
        fst (rosparam_set param value is_rosa_param st) = Ok message /\
        forall e,
          fst (set_param (target_key param is_rosa_param) value st) = Raise e ->
          message = "Failed to set parameter '" ++ target_key param is_rosa_param
                    ++ "' to '" ++ value ++ "': " ++ e ++ ". Try again!") /\
  (forall param rest (st : pserver) e,
      get_param param st = Raise e ->
      rosparam_get (param :: rest) st = Raise e) /\
  (forall fs min_size blacklist dir e,
      get_log_dir fs = Ok dir ->
      listdir fs (dir ++ "/") = Raise e ->
      roslog_list fs min_size blacklist = Raise e).
Proof.
  repeat apply conj.
  - reflexivity.
  - intros reg pattern namespace blacklist.
    destruct (list_tool_returns reg "topic" "Failed to get ROS topics: "
                pattern namespace blacklist) as (reply & Hreply & Herr).
    exists reply. split; [exact Hreply |].
    intros e He. apply Herr. unfold get_entities, fetch_entities.
    cbn [String.eqb Ascii.eqb Bool.eqb]. rewrite He. reflexivity.
  - intros reg pattern namespace blacklist.
    destruct (list_tool_returns reg "node" "Failed to get ROS nodes: "
                pattern namespace blacklist) as (reply & Hreply & Herr).
    exists reply. split; [exact Hreply |].
    intros e He. apply Herr. unfold get_entities, fetch_entities.
    cbn [String.eqb Ascii.eqb Bool.eqb]. rewrite He. reflexivity.
  - intros namespace blacklist st. unfold rosparam_list.
    destruct (list_params namespace st) as [params | e0]; cbn [bind].
    + destruct (blacklist_stage blacklist params) as [kept | e1]; cbn [bind];
        (eexists; split; [reflexivity | discriminate]).
    + eexists. split; [reflexivity |]. intros e He. congruence.
  - intros param value is_rosa_param st. unfold rosparam_set.
    destruct (set_param (target_key param is_rosa_param) value st)
      as [[u | e0] st']; cbn [fst].
    + eexists. split; [reflexivity | discriminate].
    + eexists. split; [reflexivity |]. intros e He. congruence.
  - intros param rest st e He. unfold rosparam_get. cbn [rosparam_get_loop].
    rewrite He. reflexivity.
  - intros fs min_size blacklist dir e Hdir Hlist. unfold roslog_list.
    rewrite Hdir. cbn [bind]. rewrite Hlist. reflexivity.
Qed.

End ErrorBoundary.

Section LogLister.

Context {rx : Regex}.

(** ** Sorting by size *)

Lemma insert_by_size_perm x l : Permutation (insert_by_size x l) (x :: l).
Proof.
  induction l as [| y l IH]; simpl.
  - apply Permutation_refl.
  - destruct (snd y <=? snd x)%Z.
    + apply Permutation_refl.
    + apply perm_trans with (y :: x :: l).
      * apply perm_skip. exact IH.
      * apply perm_swap.
Qed.

Lemma sorted_by_size_desc_perm l : Permutation (sorted_by_size_desc l) l.
Proof.
  induction l as [| x l IH]; simpl.
  - apply perm_nil.
  - apply perm_trans with (x :: sorted_by_size_desc l).
    + apply insert_by_size_perm.
    + apply perm_skip. exact IH.
Qed.

Lemma insert_by_size_sorted x l :
  StronglySorted size_ge l -> StronglySorted size_ge (insert_by_size x l).
Proof.
  induction l as [| y l IH]; simpl; intros Hs.
  - repeat constructor.
  - inversion Hs as [| ? ? Hs' Hall]; subst.
    destruct (Z.leb_spec (snd y) (snd x)) as [Hle | Hgt].
    + constructor; [exact Hs |].
      constructor; [exact Hle |].
      eapply Forall_impl; [| exact Hall].
      intros z Hz. unfold size_ge in *. lia.
    + constructor; [exact (IH Hs') |].
      apply (Permutation_Forall (Permutation_sym (insert_by_size_perm x l))).
      constructor; [unfold size_ge; lia | exact Hall].
Qed.

Lemma sorted_by_size_desc_sorted l : StronglySorted size_ge (sorted_by_size_desc l).
Proof.
  induction l as [| x l IH]; simpl.
  - constructor.
  - apply insert_by_size_sorted. exact IH.
Qed.

(** ** Dictionaries with fresh keys *)

Lemma dict_set_fresh {V} (k : string) (v : V) (d : dict V) :
  ~ In k (map fst d) -> dict_set k v d = (d ++ [(k, v)])%list.
Proof.
  induction d as [| [k' v'] d IH]; simpl; intros H.
  - reflexivity.
  - destruct (String.eqb_spec k k') as [-> | Hne].
    + exfalso. apply H. left. reflexivity.
    + rewrite IH; [reflexivity |]. intros Hin. apply H. right. exact Hin.
Qed.

Lemma dict_of_items_from {V} (items acc : dict V) :
  NoDup (map fst (acc ++ items)) ->
  fold_left (fun d kv => dict_set (fst kv) (snd kv) d) items acc
  = (acc ++ items)%list.
Proof.
  revert acc. induction items as [| [k v] items IH]; simpl; intros acc Hnd.
  - rewrite app_nil_r. reflexivity.
  - assert (Hfresh : ~ In k (map fst acc)).
    { rewrite map_app in Hnd. simpl in Hnd.
      apply NoDup_remove_2 in Hnd. intros Hin. apply Hnd.
      apply in_or_app. left. exact Hin. }
    rewrite (dict_set_fresh _ _ _ Hfresh).
    rewrite IH; rewrite <- app_assoc; [reflexivity | exact Hnd].
Qed.

Lemma dict_of_items_nodup {V} (items : dict V) :
  NoDup (map fst items) -> dict_of_items items = items.
Proof. intros H. exact (dict_of_items_from items [] H). Qed.

(** ** Collecting the sizes *)

Lemma sized_logs_in fs log_dir min_size logs log size :
  In (log, size) (sized_logs fs log_dir min_size logs) <->
  In log logs /\ getsize fs (path_join log_dir log) = Ok size /\
  (min_size <= size)%Z.
Proof.
  unfold sized_logs. rewrite in_flat_map. split.
  - intros (x & Hx & Hin).
    destruct (getsize fs (path_join log_dir x)) as [z | e] eqn:Hz; [| contradiction].
    destruct (Z.leb_spec min_size z) as [Hle | Hgt]; [| contradiction].
    destruct Hin as [Heq | []]. injection Heq as -> ->. auto.
  - intros (Hin & Hz & Hle). exists log. split; [exact Hin |].
    rewrite Hz. destruct (Z.leb_spec min_size size); [left; reflexivity | lia].
Qed.

Lemma sized_logs_keys fs log_dir min_size logs log :
  In log (map fst (sized_logs fs log_dir min_size logs)) -> In log logs.
Proof.
  intros H. apply in_map_iff in H. destruct H as ([k v] & <- & Hin).
  apply sized_logs_in in Hin. tauto.
Qed.

Lemma sized_logs_nodup fs log_dir min_size logs :
  NoDup logs -> NoDup (map fst (sized_logs fs log_dir min_size logs)).
Proof.
  induction logs as [| x logs IH]; intros Hnd.
  - constructor.
  - inversion Hnd as [| ? ? Hnotin Hnd']; subst.
    change (sized_logs fs log_dir min_size (x :: logs))
      with ((match getsize fs (path_join log_dir x) with
             | Ok size => if (min_size <=? size)%Z then [(x, size)] else []
             | Raise _ => []
             end ++ sized_logs fs log_dir min_size logs)%list).
    destruct (getsize fs (path_join log_dir x)) as [z | e]; [| exact (IH Hnd')].
    destruct (min_size <=? z)%Z; [| exact (IH Hnd')].
    simpl. constructor; [| exact (IH Hnd')].
    intros Hin. apply Hnotin. exact (sized_logs_keys _ _ _ _ _ Hin).
Qed.

Lemma collect_sizes_fresh fs log_dir min_size logs acc :
  (forall log, In log logs -> exists z, getsize fs (path_join log_dir log) = Ok z) ->
  NoDup (map fst acc ++ logs) ->
  collect_sizes fs log_dir min_size logs acc
  = Ok (acc ++ sized_logs fs log_dir min_size logs)%list.
Proof.
  revert acc. induction logs as [| x logs IH]; intros acc Hsize Hnd.
  - simpl. rewrite app_nil_r. reflexivity.
  - destruct (Hsize x (or_introl eq_refl)) as [z Hz].
    cbn [collect_sizes]. rewrite Hz. cbn [bind].
    unfold sized_logs. cbn [flat_map]. rewrite Hz. fold (sized_logs fs log_dir min_size logs).
    assert (Hrest : forall log, In log logs ->
                      exists z, getsize fs (path_join log_dir log) = Ok z).
    { intros log Hlog. apply Hsize. right. exact Hlog. }
    destruct (min_size <=? z)%Z.
    + assert (Hfresh : ~ In x (map fst acc)).
      { apply NoDup_remove_2 in Hnd. intros Hin. apply Hnd.
        apply in_or_app. left. exact Hin. }
      rewrite (dict_set_fresh _ _ _ Hfresh).
      rewrite IH; [rewrite <- app_assoc; reflexivity | exact Hrest |].
      rewrite map_app, <- app_assoc. exact Hnd.
    + rewrite IH; [reflexivity | exact Hrest |].
      exact (NoDup_remove_1 _ _ _ Hnd).
Qed.

(** X24.  With a blacklist that is a list of compiling patterns,
    [roslog_list] returns: the mapping holds exactly the files of the directory that no
    pattern matches and that are at least [min_size] bytes long, each with
    its size, largest first. *)
Lemma roslog_list_with_blacklist fs min_size blacklist dir names :
  get_log_dir fs = Ok dir ->
  listdir fs (dir ++ "/") = Ok names ->
  NoDup names ->
  (forall p, In p blacklist -> compiles (".*" ++ p)) ->
  (forall log, In log names ->
               exists z, getsize fs (path_join (dir ++ "/") log) = Ok z) ->
  exists r,
    roslog_list fs min_size (Some blacklist) = Ok r /\
    log_file_directory r = dir ++ "/" /\
    (forall log size,
        In (log, size) (logs_with_size_in_bytes r) <->
        In log names /\ blacklisted blacklist log = Ok false /\
        getsize fs (path_join (dir ++ "/") log) = Ok size /\
        (min_size <= size)%Z) /\
    StronglySorted size_ge (logs_with_size_in_bytes r) /\
    NoDup (map fst (logs_with_size_in_bytes r)).
Proof.
  intros Hdir Hlist Hnd Hbl Hsize.
  destruct (filterM_total
              (fun x => rmap negb (log_blacklisted (Some blacklist) x)) names)
    as [kept Hkept].
  { intros x _. cbn [log_blacklisted].
    destruct (anyM_total (fun p => regex_match (".*" ++ p) x) blacklist)
      as [hit Hhit].
    - intros p Hp. exact (Hbl p Hp x).
    - unfold blacklisted. rewrite Hhit. eexists. reflexivity. }
  pose proof (filterM_ok_filter _ _ _ Hkept) as Hfilter.
  assert (Hkept_nd : NoDup kept).
  { rewrite Hfilter. apply NoDup_filter. exact Hnd. }
  assert (Hkept_in : forall log,
             In log kept <-> In log names /\ blacklisted blacklist log = Ok false).
  { intros log. rewrite Hfilter, filter_In. unfold passes. cbn [log_blacklisted].
    destruct (blacklisted blacklist log) as [[|] | e]; cbn;
      split; intros [H1 H2]; split; congruence. }
  assert (Hcollect : collect_sizes fs (dir ++ "/") min_size kept []
                     = Ok (sized_logs fs (dir ++ "/") min_size kept)).
  { apply (collect_sizes_fresh fs (dir ++ "/") min_size kept []).
    - intros log Hlog. apply Hsize. apply Hkept_in in Hlog. tauto.
    - exact Hkept_nd. }
  pose proof (sorted_by_size_desc_perm (sized_logs fs (dir ++ "/") min_size kept))
    as Hperm.
  assert (Hkeys : NoDup (map fst (sorted_by_size_desc
                                     (sized_logs fs (dir ++ "/") min_size kept)))).
  { apply (Permutation_NoDup (l := map fst (sized_logs fs (dir ++ "/") min_size kept))).
    - apply Permutation_map. apply Permutation_sym. exact Hperm.
    - apply sized_logs_nodup. exact Hkept_nd. }
  eexists. split.
  - unfold roslog_list. rewrite Hdir. cbn [bind]. rewrite Hlist. cbn [bind].
    rewrite Hkept. cbn [bind]. rewrite Hcollect. cbn [bind].
    rewrite (dict_of_items_nodup _ Hkeys). reflexivity.
  - cbn [log_file_directory logs_with_size_in_bytes].
    split; [reflexivity |]. split; [| split].
    + intros log size. split.
      * intros Hin. apply (Permutation_in _ Hperm) in Hin.
        apply sized_logs_in in Hin. destruct Hin as (Hk & Hz & Hle).
        apply Hkept_in in Hk. tauto.
      * intros (Hn & Hb & Hz & Hle).
        apply (Permutation_in _ (Permutation_sym Hperm)).
        apply sized_logs_in. repeat split; try assumption.
        apply Hkept_in. tauto.
    + apply sorted_by_size_desc_sorted.
    + exact Hkeys.
Qed.

(** C8.  The scenario of the specification, with the arguments left at
    their defaults: a directory with one file of 1024 bytes and one of 4096
    bytes, [min_size] 2048 and no blacklist.  The blacklist pass iterates
    [None] and the call raises instead of returning the 4096-byte file. *)
Theorem roslog_list_default_blacklist_raises :
  roslog_list two_logs default_min_size None
  = Raise "'NoneType' object is not iterable".
Proof. reflexivity. Qed.

End LogLister.

(** * The tools on sample collaborators *)

(** ** Entity lister *)

Example topics_of_two_topic_registry :
  get_entities (rx := simple_regex) two_topic_registry "topic" None (Some "/a") None
  = Ok {| total := 2; in_namespace := 1; match_pattern := 1;
          entities := ["/a/scan"] |}.
Proof. reflexivity. Qed.

Lemma blacklist_subtractive_idempotent_witness :
  (incl ["/a/scan"] ["/a/scan"; "/rosout"] /\
   blacklist_filter (rx := simple_regex) ["rosout"] ["/a/scan"] = Ok ["/a/scan"]) /\
  (incl ["/a/scan"] ["/a/scan"; "/rosout"] /\
   blacklist_stage (rx := simple_regex) (Some ["rosout"]) ["/a/scan"]
   = Ok ["/a/scan"]) /\
  (incl [("/a/n1", "/a/t1", "/a/n2")]
        [("/a/n1", "/a/t1", "/a/n2"); ("/rosout", "/a/t1", "/a/n2")] /\
   graph_blacklist_filter (rx := simple_regex) ["rosout"]
     [("/a/n1", "/a/t1", "/a/n2")] = Ok [("/a/n1", "/a/t1", "/a/n2")]).
Proof.
  destruct (blacklist_subtractive_idempotent (rx := simple_regex))
    as (Hnames & Hstage & Hgraph).
  split; [| split].
  - apply (Hnames ["rosout"] ["/a/scan"; "/rosout"]). reflexivity.
  - apply (Hstage (Some ["rosout"]) ["/a/scan"; "/rosout"]). reflexivity.
  - apply (Hgraph ["rosout"]
             [("/a/n1", "/a/t1", "/a/n2"); ("/rosout", "/a/t1", "/a/n2")]).
    reflexivity.
Defined.

Lemma counters_independent_of_blacklist_witness :
  let r1 := {| total := 3; in_namespace := 2; match_pattern := 2;
               entities := ["/a/lidar"; "/a/nav"] |} in
  let r2 := {| total := 3; in_namespace := 2; match_pattern := 2;
               entities := ["/a/nav"] |} in
  get_entities (rx := simple_regex) two_topic_registry "node" None (Some "/a") None
  = Ok r1 /\
  get_entities (rx := simple_regex) two_topic_registry "node" None (Some "/a")
    (Some ["lidar"]) = Ok r2 /\
  total r1 = total r2 /\ in_namespace r1 = in_namespace r2 /\
  match_pattern r1 = match_pattern r2.
Proof.
  intros r1 r2.
  split; [reflexivity |]. split; [reflexivity |].
  apply (counters_independent_of_blacklist (rx := simple_regex)
           two_topic_registry "node" None (Some "/a") None (Some ["lidar"]));
    reflexivity.
Defined.

Lemma blacklist_removes_placeholder_witness :
  fetch_entities empty_registry "topic" = Ok [] /\
  blacklisted (rx := simple_regex) ["available"] (none_in_system "topic") = Ok true /\
  get_entities (rx := simple_regex) empty_registry "topic" None None
    (Some ["available"])
  = Ok {| total := 0; in_namespace := 0; match_pattern := 0; entities := [] |}.
Proof.
  split; [reflexivity |]. split; [reflexivity |].
  apply (blacklist_removes_placeholder (rx := simple_regex)); reflexivity.
Defined.

(** C3, counterexample.  One node, /a/x, no namespace, no pattern and the
    blacklist ["x"]: the registry, the namespace stage and the pattern
    stage each leave one name, the blacklist stage leaves none, and the
    call returns an empty list where the claim promises one explanatory
    string.  And with no topic in the system and the blacklist ["system"]
    the call returns an empty list where the claim promises the "in the
    system" string. *)
Lemma empty_stage_placeholder_counterexample :
  ~ (forall (rx : Regex) reg type pattern namespace blacklist r raw matched,
        get_entities reg type pattern namespace blacklist = Ok r ->
        fetch_entities reg type = Ok raw ->
        pattern_stage pattern (namespace_stage namespace raw) = Ok matched ->
        raw = [] \/ namespace_stage namespace raw = [] \/ matched = [] \/
        blacklist_stage blacklist matched = Ok [] ->
        exists text, entities r = [text]) /\
  ~ (forall (rx : Regex) reg type pattern namespace blacklist r,
        get_entities reg type pattern namespace blacklist = Ok r ->
        total r = 0 -> entities r = [none_in_system type]).
Proof.
  split; intros H.
  - destruct (H simple_regex one_node_registry "node" None None (Some ["x"])
                {| total := 1; in_namespace := 1; match_pattern := 1;
                   entities := [] |} ["/a/x"] ["/a/x"]
                eq_refl eq_refl eq_refl
                (or_intror (or_intror (or_intror eq_refl)))) as [text Htext].
    discriminate Htext.
  - specialize (H simple_regex empty_registry "topic" None None (Some ["system"])
                  {| total := 0; in_namespace := 0; match_pattern := 0;
                     entities := [] |} eq_refl eq_refl).
    discriminate H.
Qed.

Lemma empty_stage_placeholder_witness :
  let r := {| total := 1; in_namespace := 1; match_pattern := 0;
              entities := [none_matching "node"] |} in
  get_entities (rx := simple_regex) one_node_registry "node" (Some "y")
    (Some "/a") (Some ["rosout"]) = Ok r /\
  spared (rx := simple_regex) (Some ["rosout"]) (none_matching "node") /\
  entities r = [none_matching "node"].
Proof.
  intros r.
  assert (Hspared : spared (rx := simple_regex) (Some ["rosout"])
                      (none_matching "node")).
  { right. exists ["rosout"]. split; reflexivity. }
  split; [reflexivity |]. split; [exact Hspared |].
  destruct (empty_stage_placeholder (rx := simple_regex) one_node_registry
              "node" (Some "y") (Some "/a") (Some ["rosout"]) r eq_refl)
    as (_ & _ & Hpattern & _).
  apply Hpattern; [discriminate | reflexivity | exact Hspared].
Defined.

(** When it is the blacklist that leaves nothing, the list is empty. *)
Example blacklist_stage_leaves_nothing :
  get_entities (rx := simple_regex) one_node_registry "node" None None
    (Some ["x"])
  = Ok {| total := 1; in_namespace := 1; match_pattern := 1; entities := [] |}.
Proof. reflexivity. Qed.



(** ** Graph builder *)

Example graph_of_two_nodes :
  rosgraph_get (rx := simple_regex) (rp := simple_repr) two_node_master
    (Some "/a") (Some ".*") (Some ".*") None true
  = Ok (GraphOk
          {| graph_convention :=
               "Each tuple in the graph is of the form (publisher, topic, subscriber).";
             nuance := "Disconnected nodes are not included in this graph.";
             node_count := 2; topic_count := 1; total_connections := 1;
             graph := [("/a/n1", "/a/t1", "/a/n2")];
             warning := None |}).
Proof. reflexivity. Qed.

Example graph_of_self_loop :
  rosgraph_get (rx := simple_regex) (rp := simple_repr) self_loop_master
    (Some "/a") (Some ".*") (Some ".*") None true
  = Ok (GraphError
          ("No results found for the specified parameters. Note that the "
           ++ "following have been excluded: []")).
Proof. reflexivity. Qed.

(** The namespace of the graph builder is a plain prefix of the node
    name: /a admits the nodes of /ab. *)
Example graph_namespace_is_a_prefix :
  match rosgraph_get (rx := simple_regex) (rp := simple_repr)
          (Ok ([("/t", ["/ab/n1"])], [("/t", ["/ab/n2"])], []))
          (Some "/a") (Some ".*") (Some ".*") None true with
  | Ok (GraphOk resp) => graph resp = [("/ab/n1", "/t", "/ab/n2")]
  | _ => False
  end.
Proof. reflexivity. Qed.

(** Fifty edges: no warning.  Fifty-one: the warning, and all the edges. *)
Example graph_of_fifty_edges :
  match rosgraph_get (rx := simple_regex) (rp := simple_repr) (fan_out_master 50)
          (Some "/") (Some ".*") (Some ".*") None true with
  | Ok (GraphOk resp) =>
      List.length (graph resp) = 50 /\ warning resp = None
  | _ => False
  end.
Proof. vm_compute. split; reflexivity. Qed.

Example graph_of_fifty_one_edges :
  match rosgraph_get (rx := simple_regex) (rp := simple_repr) (fan_out_master 51)
          (Some "/") (Some ".*") (Some ".*") None true with
  | Ok (GraphOk resp) =>
      List.length (graph resp) = 51 /\ warning resp = Some graph_warning
  | _ => False
  end.
Proof. vm_compute. split; reflexivity. Qed.

Lemma graph_warning_threshold_witness :
  exists resp,
    rosgraph_get (rx := simple_regex) (rp := simple_repr) (fan_out_master 51)
      (Some "/") (Some ".*") (Some ".*") None true = Ok (GraphOk resp) /\
    List.length (graph resp) = 51 /\
    total_connections resp = 51 /\
    warning resp = Some graph_warning /\
    (warning resp = Some graph_warning <-> 50 < List.length (graph resp)).
Proof.
  destruct (graph_warning_threshold (rx := simple_regex) (rp := simple_repr)
              (fan_out_master 51) (Some "/") (Some ".*") (Some ".*") None true)
    as [Hforward Hbackward].
  destruct (Hforward _ _ _ (fan_out_graph 51) eq_refl)
    as (resp & Hreply & Hgraph & Hlen & Hbig & _).
  - vm_compute. reflexivity.
  - discriminate.
  - exists resp. split; [exact Hreply |].
    split; [rewrite Hgraph; reflexivity |].
    split; [rewrite Hlen; reflexivity |].
    split; [apply Hbig; vm_compute; lia |].
    apply (Hbackward resp Hreply).
Defined.

Lemma graph_triples_sound_witness :
  let x : triple := ("/a/n1", "/a/t1", "/a/n2") in
  dict_has (topic_of x) (build_topic_map (Some "/a") [("/a/t1", ["/a/n1"])]) = true /\
  dict_has (topic_of x) (build_topic_map (Some "/a") [("/a/t1", ["/a/n2"])]) = true /\
  (true = true -> publisher x <> subscriber x).
Proof.
  intros x.
  destruct (graph_triples_sound (rx := simple_regex) (rp := simple_repr)
              [("/a/t1", ["/a/n1"])] [("/a/t1", ["/a/n2"])] []
              (Some "/a") (Some ".*") (Some ".*") None true
              {| graph_convention :=
                   "Each tuple in the graph is of the form (publisher, topic, subscriber).";
                 nuance := "Disconnected nodes are not included in this graph.";
                 node_count := 2; topic_count := 1; total_connections := 1;
                 graph := [x]; warning := None |}
              x eq_refl (or_introl eq_refl))
    as (Hpub & Hsub & _ & Hself).
  split; [exact Hpub |]. split; [exact Hsub | exact Hself].
Defined.

(** ** Parameter accessors *)

Example set_rosa_param_foo :
  rosparam_set (ps := store_server) "foo" "1" true []
  = (Ok "Set parameter '/rosa/foo' to '1'.", [("/rosa/foo", "1")]).
Proof. reflexivity. Qed.

Example set_rosa_param_leading_slash :
  rosparam_set (ps := store_server) "/speed" "2" true [("/rosa/foo", "1")]
  = (Ok "Set parameter '/rosa/speed' to '2'.",
     [("/rosa/foo", "1"); ("/rosa/speed", "2")]).
Proof. reflexivity. Qed.

(** A key with a double slash of its own: the single pass shortens the
    run of three slashes to two. *)
Example set_rosa_param_double_slash :
  target_key "//x" true = "/rosa//x".
Proof. reflexivity. Qed.

Lemma rosa_param_rerouted_witness :
  startswith "foo" "/rosa" = false /\
  target_key "foo" true = "/rosa/foo" /\
  str_replace "//" "/" ("/rosa/" ++ "foo") = "/rosa/foo" /\
  dict_get "/rosa/foo" (snd (rosparam_set (ps := store_server) "foo" "1" true []))
  = Some "1".
Proof.
  destruct (rosa_param_rerouted (ps := store_server) "foo" "1" [] eq_refl)
    as (Hkey & Hset & _ & _ & Hwf).
  split; [reflexivity |]. split; [exact Hkey |].
  split; [exact (proj1 (Hwf eq_refl)) |].
  rewrite Hset. reflexivity.
Defined.

(** C7, counterexample.  The key //x does not start with /rosa, and the
    key written for it, /rosa//x, still holds a double slash: the pass
    that replaces the first two of the three slashes of /rosa///x does not
    look at its own output. *)
Lemma rosa_param_rerouted_counterexample :
  ~ (forall param : string,
        startswith param "/rosa" = false ->
        contains "//" (target_key param true) = false).
Proof.
  intros H. specialize (H "//x" eq_refl). discriminate H.
Qed.

(** C1, counterexample.  With the parameter server out of reach,
    [rosparam_get] raises. *)
Lemma failures_at_the_boundary_counterexample :
  ~ (forall (pserver : Type) (ps : ParamServer pserver) params (st : pserver),
        exists values, rosparam_get params st = Ok values).
Proof.
  intros H. destruct (H unit offline_server ["/rosa/foo"] tt) as [values Hv].
  discriminate Hv.
Qed.

Lemma failures_at_the_boundary_witness :
  rosparam_list (rx := simple_regex) (ps := offline_server) "/" None tt
  = Ok (ParamListError
          "Failed to get ROS parameters: Unable to communicate with master!") /\
  fst (rosparam_set (ps := offline_server) "foo" "1" true tt)
  = Ok ("Failed to set parameter '/rosa/foo' to '1': "
        ++ "Unable to communicate with master!. Try again!") /\
  rosparam_get (ps := offline_server) ["/rosa/foo"] tt
  = Raise "Unable to communicate with master!" /\
  roslog_list (rx := simple_regex) missing_logs default_min_size (Some [])
  = Raise "[Errno 2] No such file or directory: '/home/ros/.ros/log/'".
Proof.
  destruct (failures_at_the_boundary (rx := simple_regex) (rp := simple_repr)
              (ps := offline_server))
    as (_ & _ & _ & Hlist & Hset & Hget & Hlog).
  split; [| split; [| split]].
  - destruct (Hlist "/" None tt) as (reply & Hreply & Herr).
    rewrite Hreply. f_equal.
    exact (Herr "Unable to communicate with master!" eq_refl).
  - destruct (Hset "foo" "1" true tt) as (message & Hmessage & Herr).
    rewrite Hmessage. f_equal.
    exact (Herr "Unable to communicate with master!" eq_refl).
  - apply Hget. reflexivity.
  - apply (Hlog missing_logs default_min_size (Some []) "/home/ros/.ros/log");
      reflexivity.
Defined.

(** ** Log lister *)

(** The same directory with an empty blacklist: only the 4096-byte file. *)
Example roslog_list_two_logs :
  rmap logs_with_size_in_bytes
    (roslog_list (rx := simple_regex) two_logs default_min_size (Some []))
  = Ok [("master.log", 4096%Z)].
Proof. reflexivity. Qed.

Example roslog_list_sorted :
  rmap logs_with_size_in_bytes
    (roslog_list (rx := simple_regex) two_logs 0 (Some ["nothing"]))
  = Ok [("master.log", 4096%Z); ("rosout.log", 1024%Z)].
Proof. reflexivity. Qed.

(** * Further properties *)

(** ** Sorting names *)

Lemma insert_str_sorted x l : Sorted str_le l -> Sorted str_le (insert_str x l).
Proof.
  induction l as [| y l IH]; simpl; intros Hs.
  - repeat constructor.
  - destruct (String.leb x y) eqn:Hxy.
    + constructor; [exact Hs | constructor; exact Hxy].
    + inversion Hs as [| ? ? Hs' Hhd]; subst.
      constructor; [exact (IH Hs') |].
      assert (Hyx : str_le y x).
      { destruct (String.leb_total x y) as [H | H]; [congruence | exact H]. }
      destruct l as [| z l]; simpl.
      * constructor. exact Hyx.
      * inversion Hhd; subst.
        destruct (String.leb x z); constructor; assumption.
Qed.

Lemma py_sorted_sorted l : Sorted str_le (py_sorted l).
Proof.
  induction l as [| x l IH]; simpl.
  - constructor.
  - apply insert_str_sorted. exact IH.
Qed.

Section EntityListerMore.

Context {rx : Regex}.

(** X1.  The three counters of [get_entities] never grow along the
    pipeline: [match_pattern <= in_namespace <= total]. *)
Theorem stage_counters_monotone reg type pattern namespace blacklist r :
  get_entities reg type pattern namespace blacklist = Ok r ->
  match_pattern r <= in_namespace r /\ in_namespace r <= total r.
Proof.
  intros H. apply get_entities_counters in H.
  destruct H as (raw & matched & _ & Hpat & Ht & Hn & Hm & _).
  rewrite Ht, Hn, Hm. split.
  - exact (pattern_stage_length _ _ _ Hpat).
  - apply namespace_stage_length.
Qed.

Lemma blacklist_stage_survivors blacklist l l' :
  blacklist_stage blacklist l = Ok l' ->
  l' = filter (passes (stage_test None None blacklist BlacklistStage)) l.
Proof.
  intros H.
  change (blacklist_stage blacklist l)
    with (run_stage None None blacklist BlacklistStage l) in H.
  rewrite run_stage_filterM in H. exact (filterM_ok_filter _ _ _ H).
Qed.

Lemma namespace_test_passes pattern namespace blacklist x :
  passes (stage_test pattern namespace blacklist NamespaceStage) x = true <->
  (truthy_str namespace = true ->
   startswith x (fmt_opt namespace ++ "/") = true).
Proof.
  unfold passes, stage_test. destruct (truthy_str namespace).
  - destruct (startswith x (fmt_opt namespace ++ "/")); split; auto.
  - split; [discriminate | reflexivity].
Qed.

Lemma pattern_test_passes pattern namespace blacklist x :
  passes (stage_test pattern namespace blacklist PatternStage) x = true <->
  (truthy_str pattern = true ->
   regex_match (".*" ++ fmt_opt pattern) x = Ok true).
Proof.
  unfold passes, stage_test. destruct (truthy_str pattern).
  - destruct (regex_match (".*" ++ fmt_opt pattern) x) as [[|] | e];
      split; auto; try discriminate; intros H; discriminate (H eq_refl).
  - split; [discriminate | reflexivity].
Qed.

Lemma blacklist_test_passes pattern namespace blacklist x :
  passes (stage_test pattern namespace blacklist BlacklistStage) x = true <->
  (truthy_list blacklist = true ->
   exists b, blacklist = Some b /\ blacklisted b x = Ok false).
Proof.
  unfold passes, stage_test.
  destruct blacklist as [[| b bs] |]; cbn [truthy_list];
    try (split; [discriminate | reflexivity]).
  destruct (blacklisted (b :: bs) x) as [[|] | e] eqn:Hx;
    cbn [rmap bind negb]; split; try discriminate; try reflexivity.
  - intros H. destruct (H eq_refl) as (b' & Hb & Hx').
    injection Hb as <-. congruence.
  - intros _ _. exists (b :: bs). auto.
  - intros H. destruct (H eq_refl) as (b' & Hb & Hx').
    injection Hb as <-. congruence.
Qed.

(** X2.  The list [get_entities] returns is in ascending order, and
    unless a counted stage came out empty it holds exactly the reported
    names that lie under the namespace, match the pattern and match no
    blacklist pattern. *)
Theorem get_entities_sorted_and_exact
    reg type pattern namespace blacklist r raw :
  get_entities reg type pattern namespace blacklist = Ok r ->
  fetch_entities reg type = Ok raw ->
  Sorted str_le (entities r) /\
  (match_pattern r <> 0 ->
   forall x,
     In x (entities r) <->
     In x raw /\
     (truthy_str namespace = true ->
      startswith x (fmt_opt namespace ++ "/") = true) /\
     (truthy_str pattern = true ->
      regex_match (".*" ++ fmt_opt pattern) x = Ok true) /\
     (truthy_list blacklist = true ->
      exists b, blacklist = Some b /\ blacklisted b x = Ok false)).
Proof.
  intros Hget Hraw. apply get_entities_counters in Hget.
  destruct Hget as (raw' & matched & Hraw' & Hpat & Ht & Hn & Hm & Hout).
  assert (raw' = raw) by congruence. subst raw'.
  apply rmap_ok in Hout. destruct Hout as (final & Hfinal & ->).
  split; [apply py_sorted_sorted |].
  intros Hm0 x.
  pose proof (namespace_stage_length namespace raw) as Hle1.
  pose proof (pattern_stage_length _ _ _ Hpat) as Hle2.
  unfold substitute_empty in Hfinal.
  destruct (Nat.eqb_spec (total r) 0); [lia |].
  destruct (Nat.eqb_spec (in_namespace r) 0); [lia |].
  destruct (Nat.eqb_spec (match_pattern r) 0); [lia |].
  assert (Himpl : run_stages pattern namespace blacklist implemented_order raw
                  = Ok final).
  { cbn [run_stages implemented_order run_stage bind].
    rewrite Hpat. cbn [bind]. rewrite Hfinal. reflexivity. }
  apply run_stages_survivors in Himpl.
  rewrite py_sorted_in, Himpl, filter_In.
  unfold survives, implemented_order. cbn [forallb].
  rewrite !andb_true_iff, namespace_test_passes, pattern_test_passes,
    blacklist_test_passes.
  tauto.
Qed.

(** X23.  [get_entities] never lists a topic twice, and [total] counts
    each topic once even when it is both published and subscribed: it is
    the number of distinct names in the registry's two lists. *)
Theorem topic_listing_no_duplicates reg pattern namespace blacklist r :
  get_entities reg "topic" pattern namespace blacklist = Ok r ->
  NoDup (entities r) /\
  exists pub sub,
    get_topic_list reg = Ok (pub, sub) /\
    total r
    = List.length (nodup string_dec (map row_name pub ++ map row_name sub)) /\
    total r <= List.length pub + List.length sub.
Proof.
  intros H. apply get_entities_counters in H.
  destruct H as (raw & matched & Hraw & Hpat & Ht & Hn & Hm & Hout).
  apply rmap_ok in Hout. destruct Hout as (final & Hfinal & Hsorted).
  unfold fetch_entities in Hraw. rewrite String.eqb_refl in Hraw.
  apply bind_ok in Hraw. destruct Hraw as ([pub sub] & Hreg & Hraw).
  injection Hraw as <-.
  assert (Hnd_raw : NoDup (py_sorted (py_set (map row_name pub ++ map row_name sub)))).
  { apply (Permutation_NoDup (Permutation_sym (py_sorted_perm _))).
    apply NoDup_nodup. }
  split.
  - rewrite Hsorted.
    apply (Permutation_NoDup (Permutation_sym (py_sorted_perm _))).
    assert (Hmatched : NoDup matched).
    { unfold pattern_stage in Hpat.
      assert (Hns : NoDup (namespace_stage namespace
                             (py_sorted (py_set (map row_name pub
                                                 ++ map row_name sub))))).
      { unfold namespace_stage. destruct (truthy_str namespace);
          [apply NoDup_filter |]; exact Hnd_raw. }
      destruct (truthy_str pattern).
      - rewrite (filterM_ok_filter _ _ _ Hpat). apply NoDup_filter. exact Hns.
      - injection Hpat as <-. exact Hns. }
    apply blacklist_stage_survivors in Hfinal. rewrite Hfinal.
    apply NoDup_filter. unfold substitute_empty.
    destruct (total r =? 0)%nat; [repeat constructor; intros [] |].
    destruct (in_namespace r =? 0)%nat; [repeat constructor; intros [] |].
    destruct (match_pattern r =? 0)%nat; [repeat constructor; intros [] |].
    exact Hmatched.
  - exists pub, sub. split; [exact Hreg |].
    rewrite Ht, (Permutation_length (py_sorted_perm _)). unfold py_set.
    split; [reflexivity |].
    pose proof (NoDup_incl_length (NoDup_nodup string_dec
                                     (map row_name pub ++ map row_name sub))
                  (l' := (map row_name pub ++ map row_name sub)%list)) as Hle.
    rewrite length_app, !length_map in Hle. apply Hle.
    intros x Hx. apply nodup_In in Hx. exact Hx.
Qed.

End EntityListerMore.

(** ** The topic maps *)

Lemma dict_get_set {V} (t k : string) (v : V) (d : dict V) :
  dict_get t (dict_set k v d) = if t =? k then Some v else dict_get t d.
Proof.
  induction d as [| [k' v'] d IH]; simpl.
  - reflexivity.
  - destruct (String.eqb_spec k k') as [-> | Hne]; simpl.
    + destruct (String.eqb_spec t k'); reflexivity.
    + rewrite IH. destruct (String.eqb_spec t k') as [-> | Hne'].
      * destruct (String.eqb_spec k' k); [congruence | reflexivity].
      * reflexivity.
Qed.

Lemma nodes_of_add (t k n : string) (d : dict (list string)) :
  nodes_of t (dict_add_node k n d)
  = (nodes_of t d ++ (if t =? k then [n] else []))%list.
Proof.
  unfold dict_add_node, nodes_of.
  destruct (dict_get k d) as [nodes |] eqn:Hk; rewrite dict_get_set;
    destruct (String.eqb_spec t k) as [-> | Hne].
  - rewrite Hk. reflexivity.
  - rewrite app_nil_r. reflexivity.
  - rewrite Hk. reflexivity.
  - rewrite app_nil_r. reflexivity.
Qed.

Lemma nodes_of_row namespace (t k : string) (nodes : list string)
    (d : dict (list string)) :
  nodes_of t
    (fold_left
       (fun d node =>
          if truthy_str namespace && negb (startswith node (fmt_opt namespace))
          then d else dict_add_node k node d)
       nodes d)
  = (nodes_of t d
     ++ (if k =? t then filter (in_namespace_node namespace) nodes else []))%list.
Proof.
  revert d. induction nodes as [| n nodes IH]; simpl; intros d.
  - destruct (k =? t); rewrite app_nil_r; reflexivity.
  - rewrite IH. unfold in_namespace_node at 2.
    destruct (truthy_str namespace && negb (startswith n (fmt_opt namespace)));
      simpl.
    + reflexivity.
    + rewrite nodes_of_add, <- app_assoc. f_equal.
      rewrite (String.eqb_sym k t). destruct (t =? k); reflexivity.
Qed.

Lemma dict_has_add (t k n : string) (d : dict (list string)) :
  dict_has t (dict_add_node k n d) = (t =? k) || dict_has t d.
Proof.
  unfold dict_add_node, dict_has.
  destruct (dict_get k d) as [nodes |]; rewrite dict_get_set;
    destruct (t =? k); reflexivity.
Qed.

(** In the maps the graph builder makes, a key always has nodes. *)
Lemma keyed_add (t k n : string) (d : dict (list string)) :
  (dict_has t d = true <-> nodes_of t d <> []) ->
  (dict_has t (dict_add_node k n d) = true
   <-> nodes_of t (dict_add_node k n d) <> []).
Proof.
  intros H. rewrite dict_has_add, nodes_of_add.
  destruct (t =? k); simpl.
  - split; [| reflexivity]. intros _ Hnil.
    apply app_eq_nil in Hnil. destruct Hnil as [_ Hnil]. discriminate Hnil.
  - rewrite app_nil_r. exact H.
Qed.

Lemma build_topic_map_keyed namespace rows t :
  dict_has t (build_topic_map namespace rows) = true
  <-> nodes_of t (build_topic_map namespace rows) <> [].
Proof.
  unfold build_topic_map.
  assert (Hinner : forall k nodes d,
             (dict_has t d = true <-> nodes_of t d <> []) ->
             let d' :=
               fold_left
                 (fun d node =>
                    if truthy_str namespace
                       && negb (startswith node (fmt_opt namespace))
                    then d else dict_add_node k node d)
                 nodes d in
             dict_has t d' = true <-> nodes_of t d' <> []).
  { intros k nodes. induction nodes as [| n nodes IH]; simpl; intros d Hd.
    - exact Hd.
    - apply IH. destruct (_ && _); [exact Hd | apply keyed_add, Hd]. }
  assert (Houter : forall d,
             (dict_has t d = true <-> nodes_of t d <> []) ->
             let d' :=
               fold_left
                 (fun d row =>
                    fold_left
                      (fun d node =>
                         if truthy_str namespace
                            && negb (startswith node (fmt_opt namespace))
                         then d else dict_add_node (fst row) node d)
                      (snd row) d)
                 rows d in
             dict_has t d' = true <-> nodes_of t d' <> []).
  { induction rows as [| row rows IH]; simpl; intros d Hd.
    - exact Hd.
    - apply IH. apply Hinner. exact Hd. }
  apply Houter. unfold dict_has, nodes_of. simpl.
  split; [discriminate | intros H; contradiction H; reflexivity].
Qed.

Lemma build_topic_map_nodes namespace rows topic :
  nodes_of topic (build_topic_map namespace rows)
  = attached_nodes namespace rows topic.
Proof.
  assert (Hnodes : forall d,
             nodes_of topic
               (fold_left
                  (fun d row =>
                     fold_left
                       (fun d node =>
                          if truthy_str namespace
                             && negb (startswith node (fmt_opt namespace))
                          then d else dict_add_node (fst row) node d)
                       (snd row) d)
                  rows d)
             = (nodes_of topic d ++ attached_nodes namespace rows topic)%list).
  { unfold attached_nodes.
    induction rows as [| row rows IH]; simpl; intros d.
    - rewrite app_nil_r. reflexivity.
    - rewrite IH, nodes_of_row, <- app_assoc. reflexivity. }
  unfold build_topic_map. rewrite Hnodes. reflexivity.
Qed.

(** X3.  The topic map built from the rows of the system state lists,
    under each topic, the nodes of every row of that topic whose name
    starts with the namespace string, in row order and with repetitions; a
    topic is a key of the map exactly when that list is not empty. *)
Theorem topic_map_lookup namespace rows topic :
  nodes_of topic (build_topic_map namespace rows)
  = attached_nodes namespace rows topic /\
  (dict_has topic (build_topic_map namespace rows) = true <->
   attached_nodes namespace rows topic <> []).
Proof.
  split; [apply build_topic_map_nodes |].
  rewrite <- build_topic_map_nodes. apply build_topic_map_keyed.
Qed.

(** ** The edges of the graph *)

Lemma flat_mapM_ok_at {A B} (f : A -> result (list B)) (l : list A)
    (r : list B) (x : A) :
  flat_mapM f l = Ok r -> In x l -> exists r', f x = Ok r' /\ incl r' r.
Proof.
  revert r. induction l as [| y l IH]; simpl; intros r H Hx.
  - contradiction.
  - apply bind_ok in H. destruct H as (r1 & H1 & H).
    apply bind_ok in H. destruct H as (r2 & H2 & H).
    injection H as <-. destruct Hx as [-> | Hx].
    + exists r1. split; [exact H1 | apply incl_appl, incl_refl].
    + destruct (IH _ H2 Hx) as (r' & Hf & Hincl).
      exists r'. split; [exact Hf | apply incl_appr, Hincl].
Qed.

Lemma nodes_of_in (t n : string) (d : dict (list string)) :
  In n (nodes_of t d) <-> exists nodes, dict_get t d = Some nodes /\ In n nodes.
Proof.
  unfold nodes_of. destruct (dict_get t d) as [nodes |]; split.
  - intros H. exists nodes. auto.
  - intros (nodes' & Heq & H). congruence.
  - contradiction.
  - intros (nodes' & Heq & _). discriminate Heq.
Qed.

Lemma filterM_in {A} (f : A -> result bool) (l l' : list A) (x : A) :
  filterM f l = Ok l' -> (In x l' <-> In x l /\ f x = Ok true).
Proof.
  intros H. rewrite (filterM_ok_filter _ _ _ H), filter_In. unfold passes.
  destruct (f x) as [[|] | e]; split; intros [H1 H2]; split;
    auto; discriminate.
Qed.

Lemma nodup_length_le (l : list string) :
  List.length (nodup string_dec l) <= List.length l.
Proof.
  apply NoDup_incl_length; [apply NoDup_nodup |].
  intros x Hx. apply nodup_In in Hx. exact Hx.
Qed.

Lemma nodup_nonempty (l : list string) :
  l <> [] -> 1 <= List.length (nodup string_dec l).
Proof.
  destruct l as [| x l]; intros H; [contradiction H; reflexivity |].
  assert (Hin : In x (nodup string_dec (x :: l))).
  { apply nodup_In. left. reflexivity. }
  destruct (nodup string_dec (x :: l)); [contradiction | simpl; lia].
Qed.

Section GraphBuilderMore.

Context {rx : Regex} {rp : Repr}.

Lemma join_maps_exact topic_pattern topic_pub_map topic_sub_map g x :
  NoDup (map fst topic_pub_map) ->
  join_maps topic_pattern topic_pub_map topic_sub_map = Ok g ->
  In x g <->
  In (publisher x) (nodes_of (topic_of x) topic_pub_map) /\
  In (subscriber x) (nodes_of (topic_of x) topic_sub_map) /\
  (truthy_str topic_pattern = true ->
   regex_match (fmt_opt topic_pattern) (topic_of x) = Ok true).
Proof.
  unfold join_maps. intros Hnd H. split.
  - intros Hx.
    destruct (flat_mapM_in _ _ _ _ H Hx) as ([topic pubs] & r1 & Hentry & Hf & Hx1).
    destruct (dict_get topic topic_sub_map) as [subs |] eqn:Hsubs;
      [| injection Hf as <-; contradiction].
    destruct (flat_mapM_in _ _ _ _ Hf Hx1) as (pub & r2 & Hpub & Hf2 & Hx2).
    destruct (flat_mapM_in _ _ _ _ Hf2 Hx2) as (sub & r3 & Hsub & Hf3 & Hx3).
    apply bind_ok in Hf3. destruct Hf3 as (keep & Hkeep & Hf3).
    injection Hf3 as <-.
    destruct keep; [| contradiction].
    destruct Hx3 as [<- | []]. cbn [publisher topic_of subscriber fst snd].
    rewrite !nodes_of_in. split; [| split].
    + exists pubs. split; [| exact Hpub].
      apply in_dict_get_nodup; assumption.
    + exists subs. auto.
    + intros Htp. rewrite Htp in Hkeep. exact Hkeep.
  - destruct x as [[p t] s]. cbn [publisher topic_of subscriber fst snd].
    rewrite !nodes_of_in. intros ((pubs & Hpubs & Hp) & (subs & Hsubs & Hs) & Htp).
    apply dict_get_in in Hpubs.
    destruct (flat_mapM_ok_at _ _ _ _ H Hpubs) as (r1 & Hf & Hincl1).
    cbn beta iota in Hf. rewrite Hsubs in Hf.
    destruct (flat_mapM_ok_at _ _ _ _ Hf Hp) as (r2 & Hf2 & Hincl2).
    destruct (flat_mapM_ok_at _ _ _ _ Hf2 Hs) as (r3 & Hf3 & Hincl3).
    apply Hincl1, Hincl2, Hincl3.
    apply bind_ok in Hf3. destruct Hf3 as (keep & Hkeep & Hf3).
    injection Hf3 as <-.
    destruct (truthy_str topic_pattern).
    + rewrite (Htp eq_refl) in Hkeep. injection Hkeep as <-. left. reflexivity.
    + injection Hkeep as <-. left. reflexivity.
Qed.

(** X4.  The graph [rosgraph_get] returns holds exactly the triples
    (publisher, topic, subscriber) such that the publisher and the
    subscriber are attached to the topic and their names start with the
    namespace string (a plain prefix test, lines 120 and 129: the
    namespace /a also admits the node /ab/n1), the topic matches the topic
    pattern, no field matches a blacklist word, the publisher or the
    subscriber matches the node pattern, and, with
    [exclude_self_connections], the two nodes differ. *)
Theorem graph_edges_exact
    publishers subscribers services namespace node_pattern topic_pattern
    blacklist exclude resp x :
  rosgraph_get (Ok (publishers, subscribers, services)) namespace node_pattern
    topic_pattern blacklist exclude = Ok (GraphOk resp) ->
  In x (graph resp) <->
  In (publisher x) (attached_nodes namespace publishers (topic_of x)) /\
  In (subscriber x) (attached_nodes namespace subscribers (topic_of x)) /\
  (truthy_str topic_pattern = true ->
   regex_match (fmt_opt topic_pattern) (topic_of x) = Ok true) /\
  triple_blacklisted (or_empty blacklist) x = Ok false /\
  (truthy_str node_pattern = true -> node_pattern_test node_pattern x = Ok true) /\
  (exclude = true -> publisher x <> subscriber x).
Proof.
  intros H. apply rosgraph_get_ok in H.
  destruct H as (pubs' & subs' & srvs' & Hm & Hg & _).
  injection Hm as <- <- <-.
  unfold filtered_graph in Hg.
  apply bind_ok in Hg. destruct Hg as (g0 & H0 & Hg).
  apply bind_ok in Hg. destruct Hg as (g1 & H1 & Hg).
  apply bind_ok in Hg. destruct Hg as (g2 & H2 & Hg).
  injection Hg as Hg. rewrite <- Hg.
  rewrite <- (build_topic_map_nodes namespace publishers (topic_of x)).
  rewrite <- (build_topic_map_nodes namespace subscribers (topic_of x)).
  pose proof (join_maps_exact _ _ _ _ x (build_topic_map_nodup _ _) H0) as Hjoin.
  assert (Hbl : In x g1 <->
                In x g0 /\ triple_blacklisted (or_empty blacklist) x = Ok false).
  { unfold graph_blacklist_filter in H1. rewrite (filterM_in _ _ _ x H1).
    destruct (triple_blacklisted (or_empty blacklist) x) as [[|] | e];
      cbn [rmap bind negb]; split; intros [Ha Hb]; split; auto; discriminate. }
  assert (Hnp : In x g2 <->
                In x g1 /\
                (truthy_str node_pattern = true ->
                 node_pattern_test node_pattern x = Ok true)).
  { unfold node_pattern_filter in H2.
    destruct (truthy_str node_pattern).
    - rewrite (filterM_in _ _ _ x H2). unfold node_pattern_test. tauto.
    - injection H2 as <-. split; [intros Hx; split; [exact Hx | discriminate] | tauto]. }
  assert (Hself : In x (self_connection_filter exclude g2) <->
                  In x g2 /\ (exclude = true -> publisher x <> subscriber x)).
  { unfold self_connection_filter. destruct exclude.
    - rewrite filter_In. split; intros [Hx Hne]; split; auto.
      + intros _ Heq. rewrite Heq, String.eqb_refl in Hne. discriminate Hne.
      + destruct (String.eqb_spec (publisher x) (subscriber x)) as [Heq | _];
          [exfalso; exact (Hne eq_refl Heq) | reflexivity].
    - split; [intros Hx; split; [exact Hx | discriminate] | tauto]. }
  rewrite Hself, Hnp, Hbl, Hjoin. tauto.
Qed.

(** X5.  A successful reply of [rosgraph_get] is never empty, and its
    counts are consistent: at least one edge, between one and
    [total_connections] topics, between one and twice [total_connections]
    nodes. *)
Theorem graph_counts_bounds
    m namespace node_pattern topic_pattern blacklist exclude resp :
  rosgraph_get m namespace node_pattern topic_pattern blacklist exclude
  = Ok (GraphOk resp) ->
  graph resp <> [] /\
  1 <= total_connections resp /\
  1 <= topic_count resp <= total_connections resp /\
  1 <= node_count resp <= 2 * total_connections resp.
Proof.
  unfold rosgraph_get. intros H.
  destruct m as [[[publishers subscribers] services] | e]; [| discriminate H].
  apply bind_ok in H. destruct H as (g & _ & H).
  destruct g as [| x g]; [discriminate H |].
  injection H as <-. cbn [graph total_connections topic_count node_count].
  unfold py_set.
  pose proof (nodup_length_le (map topic_of (x :: g))) as Ht.
  pose proof (nodup_nonempty (map topic_of (x :: g))) as Ht1.
  pose proof (nodup_length_le
                (flat_map (fun x => [publisher x; subscriber x]) (x :: g))) as Hn.
  pose proof (nodup_nonempty
                (flat_map (fun x => [publisher x; subscriber x]) (x :: g))) as Hn1.
  rewrite length_map in Ht.
  assert (Hlen : forall g' : list triple,
             List.length (flat_map (fun x => [publisher x; subscriber x]) g')
             = 2 * List.length g').
  { induction g' as [| y g' IH]; simpl; [reflexivity | rewrite IH; lia]. }
  rewrite Hlen in Hn.
  repeat split; try discriminate; try (simpl; lia); try assumption.
  - apply Ht1. discriminate.
  - apply Hn1. discriminate.
Qed.

End GraphBuilderMore.

(** ** The fetch loop *)

Lemma fetch_details_lookup {V} (fetch : string -> result V)
    (names : list string) (d d' : dict V) :
  fetch_details fetch names d = Ok d' ->
  forall k v,
    dict_get k d' = Some v <->
    (In k names /\ fetch k = Ok v) \/ (~ In k names /\ dict_get k d = Some v).
Proof.
  revert d. induction names as [| name rest IH]; simpl; intros d H k v.
  - injection H as <-. tauto.
  - apply bind_ok in H. destruct H as (v0 & Hv0 & H).
    rewrite (IH _ H k v), dict_get_set.
    destruct (String.eqb_spec k name) as [-> | Hne].
    + destruct (in_dec string_dec name rest) as [Hin | Hnin].
      * split; [intros [[_ Hf] | [Hn _]]; [left; auto | contradiction] |].
        intros [[_ Hf] | [Hn _]]; [left; auto | exfalso; apply Hn; auto].
      * split.
        -- intros [[Hin _] | [_ Hv]]; [contradiction |].
           left. split; [auto | congruence].
        -- intros [[_ Hf] | [Hn _]]; [| exfalso; apply Hn; auto].
           right. split; [exact Hnin | congruence].
    + split.
      * intros [[Hin Hf] | [Hn Hd]]; [left; auto | right].
        split; [| exact Hd]. intros [Heq | Hin]; [congruence | contradiction].
      * intros [[[Heq | Hin] Hf] | [Hn Hd]].
        -- congruence.
        -- left. auto.
        -- right. split; [| exact Hd]. intros Hin. apply Hn. auto.
Qed.

Lemma fetch_details_keys {V} (fetch : string -> result V)
    (names : list string) (d d' : dict V) :
  fetch_details fetch names d = Ok d' ->
  NoDup (map fst d) -> NoDup (map fst d').
Proof.
  revert d. induction names as [| name rest IH]; simpl; intros d H Hnd.
  - injection H as <-. exact Hnd.
  - apply bind_ok in H. destruct H as (v0 & _ & H).
    apply (IH _ H). apply dict_set_nodup. exact Hnd.
Qed.

Lemma fetch_details_total {V} (fetch : string -> result V)
    (names : list string) (d : dict V) :
  (forall name, In name names -> exists v, fetch name = Ok v) ->
  exists d', fetch_details fetch names d = Ok d'.
Proof.
  revert d. induction names as [| name rest IH]; simpl; intros d H.
  - eexists. reflexivity.
  - destruct (H name (or_introl eq_refl)) as [v Hv]. rewrite Hv. cbn [bind].
    apply IH. intros n Hn. apply H. right. exact Hn.
Qed.

Lemma fetch_details_raise {V} (fetch : string -> result V)
    (before after : list string) (name e : string) (d : dict V) :
  (forall q, In q before -> exists v, fetch q = Ok v) ->
  fetch name = Raise e ->
  fetch_details fetch (before ++ name :: after) d = Raise e.
Proof.
  revert d. induction before as [| q before IH]; simpl; intros d Hok He.
  - rewrite He. reflexivity.
  - destruct (Hok q (or_introl eq_refl)) as [v Hv]. rewrite Hv. cbn [bind].
    apply IH; [| exact He]. intros q' Hq'. apply Hok. right. exact Hq'.
Qed.

(** Every name is fetched whenever the loop returns. *)
Lemma fetch_details_fetched {V} (fetch : string -> result V)
    (names : list string) (d d' : dict V) (name : string) :
  fetch_details fetch names d = Ok d' -> In name names ->
  exists v, fetch name = Ok v.
Proof.
  revert d. induction names as [| n rest IH]; simpl; intros d H Hin.
  - contradiction.
  - apply bind_ok in H. destruct H as (v0 & Hv0 & H).
    destruct Hin as [<- | Hin]; [exists v0; exact Hv0 | exact (IH _ H Hin)].
Qed.

(** What a returning fetch loop started on the empty dictionary holds. *)
Lemma fetch_details_from_empty {V} (fetch : string -> result V)
    (names : list string) (details : dict V) :
  fetch_details fetch names [] = Ok details ->
  (forall k v, dict_get k details = Some v <-> In k names /\ fetch k = Ok v) /\
  (forall k, In k names -> exists v, dict_get k details = Some v) /\
  NoDup (map fst details).
Proof.
  intros H. split; [| split].
  - intros k v. rewrite (fetch_details_lookup _ _ _ _ H k v). simpl.
    split; [intros [Hl | [_ Hr]]; [exact Hl | discriminate Hr] | auto].
  - intros k Hk. destruct (fetch_details_fetched _ _ _ _ k H Hk) as [v Hv].
    exists v. apply (fetch_details_lookup _ _ _ _ H k v). left. auto.
  - apply (fetch_details_keys _ _ _ _ H). constructor.
Qed.

Section ParameterAccessorsMore.

Context {rx : Regex} {pserver : Type} {ps : ParamServer pserver}.

Lemma rosparam_get_loop_fetch (params : list string) (values : dict string)
    (st : pserver) :
  rosparam_get_loop params values st
  = fetch_details (fun param => get_param param st) params values.
Proof.
  revert values. induction params as [| param rest IH]; simpl; intros values.
  - reflexivity.
  - destruct (get_param param st); simpl; [apply IH | reflexivity].
Qed.

(** X6.  [rosparam_get] returns exactly when every requested key can be
    read; the mapping then has one entry per distinct key, and looking a
    key up gives the value the parameter server holds for it. *)
Theorem rosparam_get_lookup (params : list string) (st : pserver) :
  ((exists values, rosparam_get params st = Ok values) <->
   (forall p, In p params -> exists v, get_param p st = Ok v)) /\
  (forall values,
      rosparam_get params st = Ok values ->
      (forall k v,
          dict_get k values = Some v <-> In k params /\ get_param k st = Ok v) /\
      NoDup (map fst values)).
Proof.
  unfold rosparam_get. rewrite rosparam_get_loop_fetch. split.
  - split.
    + intros [values H] p Hp. exact (fetch_details_fetched _ _ _ _ p H Hp).
    + intros H. apply fetch_details_total. exact H.
  - intros values H.
    destruct (fetch_details_from_empty _ _ _ H) as (Hl & _ & Hk). auto.
Qed.

(** X7.  [rosparam_get] stops at the first key that cannot be read: the
    exception of that key reaches the caller, and no value read before it
    is returned. *)
Theorem rosparam_get_first_failure
    (before after : list string) (param e : string) (st : pserver) :
  (forall q, In q before -> exists v, get_param q st = Ok v) ->
  get_param param st = Raise e ->
  rosparam_get (before ++ param :: after) st = Raise e.
Proof.
  intros Hok He. unfold rosparam_get. rewrite rosparam_get_loop_fetch.
  exact (fetch_details_raise (fun p => get_param p st) before after param e []
           Hok He).
Qed.

Lemma blacklist_stage_or_empty blacklist l :
  blacklist_stage blacklist l
  = filterM (fun x => rmap negb (blacklisted (or_empty blacklist) x)) l.
Proof.
  unfold blacklist_stage, blacklist_filter, or_empty.
  destruct (truthy_list blacklist); [reflexivity |].
  symmetry. apply filterM_all_true. intros x _. reflexivity.
Qed.

Lemma unmatched_passes blacklist x :
  passes (fun x => rmap negb (blacklisted (or_empty blacklist) x)) x
  = unmatched blacklist x.
Proof.
  unfold passes, unmatched.
  destruct (blacklisted (or_empty blacklist) x) as [[|] | e]; reflexivity.
Qed.

Lemma unmatched_spared blacklist x :
  unmatched blacklist x = true <-> spared blacklist x.
Proof.
  unfold unmatched, spared, or_empty.
  destruct blacklist as [[| b bs] |].
  - split; [left; reflexivity | reflexivity].
  - change (truthy_list (Some (b :: bs))) with true. cbv iota. split.
    + intros H. right. exists (b :: bs). split; [reflexivity |].
      destruct (blacklisted (b :: bs) x) as [[|] | e];
        [discriminate H | reflexivity | discriminate H].
    + intros [H | (b' & Hb & Hx)]; [discriminate H |].
      injection Hb as <-. rewrite Hx. reflexivity.
  - split; [left; reflexivity | reflexivity].
Qed.

Lemma filterM_first_raise {A} (f : A -> result bool) before x after e :
  (forall y, In y before -> exists b, f y = Ok b) ->
  f x = Raise e ->
  filterM f (before ++ x :: after) = Raise e.
Proof.
  induction before as [| y before IH]; intros Hok He; cbn [app filterM].
  - rewrite He. reflexivity.
  - destruct (Hok y (or_introl eq_refl)) as [b Hb]. rewrite Hb. cbn [bind].
    rewrite IH; [reflexivity | | exact He].
    intros z Hz. apply Hok. right. exact Hz.
Qed.

(** X8.  The payload of [rosparam_list] when the parameter server lists
    the keys [all].  A successful payload names the namespace, and its
    keys are the listed keys that no blacklist pattern matches, in the
    order the server listed them: the sublist of [all] that the blacklist
    test keeps, with [total] its length.  That payload is returned whenever
    the blacklist test raises on no listed key.  When the test raises on a
    listed key and on none before it, the reply is the error payload with
    the text of that exception, like a failure of the server. *)
Theorem rosparam_list_payload namespace blacklist (st : pserver) all :
  list_params namespace st = Ok all ->
  (forall ns total params,
      rosparam_list namespace blacklist st = Ok (ParamListOk ns total params) ->
      ns = namespace /\
      total = List.length params /\
      params = filter (unmatched blacklist) all /\
      forall x, In x params <-> In x all /\ spared blacklist x) /\
  ((forall x, In x all ->
              exists hit, blacklisted (or_empty blacklist) x = Ok hit) ->
   rosparam_list namespace blacklist st
   = Ok (ParamListOk namespace
           (List.length (filter (unmatched blacklist) all))
           (filter (unmatched blacklist) all))) /\
  (forall before x after e,
      all = (before ++ x :: after)%list ->
      (forall y, In y before ->
                 exists hit, blacklisted (or_empty blacklist) y = Ok hit) ->
      blacklisted (or_empty blacklist) x = Raise e ->
      rosparam_list namespace blacklist st
      = Ok (ParamListError ("Failed to get ROS parameters: " ++ e))).
Proof.
  intros Hall. unfold rosparam_list. rewrite Hall. cbn [bind].
  rewrite blacklist_stage_or_empty.
  assert (Hfilter : forall kept,
             filterM (fun x => rmap negb (blacklisted (or_empty blacklist) x)) all
             = Ok kept ->
             kept = filter (unmatched blacklist) all).
  { intros kept Hkept. rewrite (filterM_ok_filter _ _ _ Hkept).
    apply filter_ext. intros x. apply unmatched_passes. }
  split; [| split].
  - intros ns total params H.
    destruct (filterM _ all) as [kept | e] eqn:Hkept; [| discriminate H].
    cbn [bind] in H. injection H as <- <- <-.
    pose proof (Hfilter kept eq_refl) as Hk.
    split; [reflexivity |]. split; [reflexivity |]. split; [exact Hk |].
    intros x. rewrite Hk, filter_In, unmatched_spared. tauto.
  - intros Hok.
    destruct (filterM_total (fun x => rmap negb (blacklisted (or_empty blacklist) x))
                all) as [kept Hkept].
    + intros x Hx. destruct (Hok x Hx) as [hit Hhit]. rewrite Hhit.
      eexists. reflexivity.
    + rewrite Hkept. cbn [bind]. rewrite (Hfilter kept Hkept). reflexivity.
  - intros before x after e -> Hok He.
    rewrite (filterM_first_raise _ before x after e); [reflexivity | |].
    + intros y Hy. destruct (Hok y Hy) as [hit Hhit]. rewrite Hhit.
      eexists. reflexivity.
    + rewrite He. reflexivity.
Qed.

(** X9.  Rerouting under ["/rosa"] is idempotent: the key
    [rosparam_set] writes with [is_rosa_param] always starts with
    ["/rosa"], so rerouting it again leaves it as it is. *)
Theorem target_key_idempotent (param : string) (is_rosa_param : bool) :
  target_key (target_key param is_rosa_param) is_rosa_param
  = target_key param is_rosa_param /\
  startswith (target_key param true) "/rosa" = true.
Proof.
  assert (Hrosa : startswith (target_key param true) "/rosa" = true).
  { unfold target_key. cbn [andb].
    destruct (startswith param "/rosa") eqn:Hs; cbn [negb]; [exact Hs |].
    rewrite rerouted_key_unfold. unfold startswith.
    change ("/rosa/" ++ ?s) with ("/rosa" ++ ("/" ++ s)).
    apply prefix_append. }
  split; [| exact Hrosa].
  destruct is_rosa_param; [| reflexivity].
  unfold target_key at 1. rewrite Hrosa. reflexivity.
Qed.

End ParameterAccessorsMore.

(** ** Replacing one character *)

Lemma prefix_char (c a : ascii) (s : string) :
  String.prefix (String c EmptyString) (String a s)
  = if ascii_dec c a then true else false.
Proof.
  cbn [String.prefix]. destruct (ascii_dec c a); [destruct s |]; reflexivity.
Qed.

Lemma replace_char_step (c d a : ascii) (s : string) :
  replace_from (String c EmptyString) (String d EmptyString) (String a s) 0
  = String (if ascii_dec c a then d else a)
      (replace_from (String c EmptyString) (String d EmptyString) s 0).
Proof.
  cbn [replace_from]. rewrite prefix_char.
  destruct (ascii_dec c a); reflexivity.
Qed.

Lemma replace_char_length (c d : ascii) (s : string) :
  String.length (str_replace (String c EmptyString) (String d EmptyString) s)
  = String.length s.
Proof.
  unfold str_replace. induction s as [| a s IH].
  - reflexivity.
  - rewrite replace_char_step. cbn [String.length]. rewrite IH. reflexivity.
Qed.

Lemma replace_char_gone (c d : ascii) (s : string) :
  c <> d ->
  contains (String c EmptyString)
    (str_replace (String c EmptyString) (String d EmptyString) s) = false.
Proof.
  intros Hcd. unfold str_replace. induction s as [| a s IH].
  - reflexivity.
  - rewrite replace_char_step, contains_cons, prefix_char, IH.
    destruct (ascii_dec c a) as [Hca | Hca].
    + destruct (ascii_dec c d); [contradiction | reflexivity].
    + destruct (ascii_dec c a); [contradiction | reflexivity].
Qed.

Section DetailFetchers.

Variable ros : introspection.

(** X10.  What the detail fetchers return: a mapping with one entry per
    distinct requested name, where looking a name up gives what the
    registry answered for it; for [rosnode_info] with line feeds replaced
    by spaces, for [rostopic_info] parsed into a record that carries the
    topic name. *)
Theorem detail_fetchers_lookup :
  (forall msg_type details,
      rosmsg_info ros msg_type = Ok details ->
      NoDup (map fst details) /\
      forall k v, dict_get k details = Some v <->
                  In k msg_type /\ get_msg_text ros k = Ok v) /\
  (forall srv_type raw details,
      rossrv_info ros srv_type raw = Ok details ->
      NoDup (map fst details) /\
      forall k v, dict_get k details = Some v <->
                  In k srv_type /\ get_srv_text ros k raw = Ok v) /\
  (forall services details,
      rosservice_info ros services = Ok details ->
      NoDup (map fst details) /\
      forall k v, dict_get k details = Some v <->
                  In k services /\
                  exists uri, get_service_uri ros k = Ok uri /\
                              get_service_headers ros k uri = Ok v) /\
  (forall nodes details,
      rosnode_info ros nodes = Ok details ->
      NoDup (map fst details) /\
      forall k v, dict_get k details = Some v <->
                  In k nodes /\
                  exists text, get_node_info_description ros k = Ok text /\
                               v = str_replace line_feed " " text) /\
  (forall topics details,
      rostopic_info ros topics = Ok details ->
      NoDup (map fst details) /\
      forall k v, dict_get k details = Some v <->
                  In k topics /\
                  exists text, get_info_text ros k = Ok text /\
                               v = parse_info_text k text /\ td_topic v = k).
Proof.
  repeat apply conj.
  - intros names details H.
    destruct (fetch_details_from_empty _ _ _ H) as (Hl & _ & Hk). auto.
  - intros names raw details H.
    destruct (fetch_details_from_empty _ _ _ H) as (Hl & _ & Hk). auto.
  - intros names details H.
    destruct (fetch_details_from_empty _ _ _ H) as (Hl & _ & Hk).
    split; [exact Hk |]. intros k v. rewrite (Hl k v).
    destruct (get_service_uri ros k) as [uri | e]; cbn [bind].
    + split; [intros [Hin Hh]; split; [exact Hin | exists uri; auto] |].
      intros (Hin & uri' & Hu & Hh). injection Hu as <-. auto.
    + split; [intros [_ Hh]; discriminate Hh |].
      intros (_ & uri' & Hu & _). discriminate Hu.
  - intros names details H.
    destruct (fetch_details_from_empty _ _ _ H) as (Hl & _ & Hk).
    split; [exact Hk |]. intros k v. rewrite (Hl k v).
    destruct (get_node_info_description ros k) as [text | e];
      cbn [rmap bind].
    + split; [intros [Hin Hv]; injection Hv as <-; split;
              [exact Hin | exists text; auto] |].
      intros (Hin & text' & Ht & ->). injection Ht as <-. auto.
    + split; [intros [_ Hv]; discriminate Hv |].
      intros (_ & text' & Ht & _). discriminate Ht.
  - intros names details H.
    destruct (fetch_details_from_empty _ _ _ H) as (Hl & _ & Hk).
    split; [exact Hk |]. intros k v. rewrite (Hl k v).
    destruct (get_info_text ros k) as [text | e]; cbn [rmap bind].
    + split; [intros [Hin Hv]; injection Hv as <-; split;
              [exact Hin | exists text; auto] |].
      intros (Hin & text' & Ht & -> & _). injection Ht as <-. auto.
    + split; [intros [_ Hv]; discriminate Hv |].
      intros (_ & text' & Ht & _). discriminate Ht.
Qed.

(** X11.  None of the detail fetchers has a handler: the first name whose
    registry call raises ends the batch with that exception, whatever was
    fetched before it. *)
Theorem detail_fetchers_first_failure (before after : list string)
    (name e : string) :
  ((forall q, In q before -> exists v, get_msg_text ros q = Ok v) ->
   get_msg_text ros name = Raise e ->
   rosmsg_info ros (before ++ name :: after) = Raise e) /\
  (forall raw,
      (forall q, In q before -> exists v, get_srv_text ros q raw = Ok v) ->
      get_srv_text ros name raw = Raise e ->
      rossrv_info ros (before ++ name :: after) raw = Raise e) /\
  ((forall q, In q before ->
              exists uri v, get_service_uri ros q = Ok uri /\
                            get_service_headers ros q uri = Ok v) ->
   (get_service_uri ros name = Raise e \/
    exists uri, get_service_uri ros name = Ok uri /\
                get_service_headers ros name uri = Raise e) ->
   rosservice_info ros (before ++ name :: after) = Raise e) /\
  ((forall q, In q before -> exists v, get_node_info_description ros q = Ok v) ->
   get_node_info_description ros name = Raise e ->
   rosnode_info ros (before ++ name :: after) = Raise e) /\
  ((forall q, In q before -> exists v, get_info_text ros q = Ok v) ->
   get_info_text ros name = Raise e ->
   rostopic_info ros (before ++ name :: after) = Raise e).
Proof.
  repeat apply conj.
  - intros Hok He. apply fetch_details_raise; assumption.
  - intros raw Hok He. apply fetch_details_raise; assumption.
  - intros Hok He. apply fetch_details_raise.
    + intros q Hq. destruct (Hok q Hq) as (uri & v & Hu & Hh).
      exists v. rewrite Hu. exact Hh.
    + destruct He as [He | (uri & Hu & He)].
      * rewrite He. reflexivity.
      * rewrite Hu. exact He.
  - intros Hok He. apply fetch_details_raise.
    + intros q Hq. destruct (Hok q Hq) as [v Hv]. rewrite Hv.
      eexists. reflexivity.
    + rewrite He. reflexivity.
  - intros Hok He. apply fetch_details_raise.
    + intros q Hq. destruct (Hok q Hq) as [v Hv]. rewrite Hv.
      eexists. reflexivity.
    + rewrite He. reflexivity.
Qed.

(** X12.  Every description [rosnode_info] returns is a single line: it
    holds no line feed and is as long as the text the registry gave. *)
Theorem rosnode_info_single_line nodes details node text :
  rosnode_info ros nodes = Ok details ->
  dict_get node details = Some text ->
  contains line_feed text = false /\
  exists raw, get_node_info_description ros node = Ok raw /\
              String.length text = String.length raw.
Proof.
  intros H Hget.
  destruct (fetch_details_from_empty _ _ _ H) as (Hl & _ & _).
  apply Hl in Hget. destruct Hget as [_ Hv].
  apply rmap_ok in Hv. destruct Hv as (raw & Hraw & ->).
  split.
  - apply replace_char_gone. discriminate.
  - exists raw. split; [exact Hraw | apply replace_char_length].
Qed.

End DetailFetchers.

Lemma list_ascii_of_append (a b : string) :
  list_ascii_of_string (a ++ b)
  = (list_ascii_of_string a ++ list_ascii_of_string b)%list.
Proof.
  induction a as [| c a IH]; simpl; [reflexivity | rewrite IH; reflexivity].
Qed.

Lemma string_of_list_append (l1 l2 : list ascii) :
  string_of_list_ascii (l1 ++ l2)
  = string_of_list_ascii l1 ++ string_of_list_ascii l2.
Proof.
  induction l1 as [| c l1 IH]; simpl; [reflexivity | rewrite IH; reflexivity].
Qed.

Lemma str_rev_append (a b : string) : str_rev (a ++ b) = str_rev b ++ str_rev a.
Proof.
  unfold str_rev.
  rewrite list_ascii_of_append, rev_app_distr, string_of_list_append.
  reflexivity.
Qed.

Lemma endswith_append (a b : string) : endswith (a ++ b) b = true.
Proof. unfold endswith. rewrite str_rev_append. apply prefix_append. Qed.

Section LogListerMore.

Context {rx : Regex}.

(** X13.  With the blacklist left at [None], [roslog_list] returns only
    for an empty log directory; as soon as the directory holds one file the
    call raises the type error of iterating [None]. *)
Theorem roslog_list_without_blacklist fs min_size dir names :
  get_log_dir fs = Ok dir ->
  listdir fs (dir ++ "/") = Ok names ->
  (names = [] ->
   rmap logs_with_size_in_bytes (roslog_list fs min_size None) = Ok []) /\
  (names <> [] ->
   roslog_list fs min_size None = Raise "'NoneType' object is not iterable").
Proof.
  intros Hdir Hlist. unfold roslog_list. rewrite Hdir. cbn [bind].
  rewrite Hlist. cbn [bind]. split.
  - intros ->. reflexivity.
  - intros Hne. destruct names as [| x names]; [contradiction Hne; reflexivity |].
    reflexivity.
Qed.

(** X14.  The directory [roslog_list] reports is the one
    [roslog_get_log_directory] returns, and it ends with a slash. *)
Theorem roslog_directory_agrees fs min_size blacklist r :
  roslog_list fs min_size blacklist = Ok r ->
  roslog_get_log_directory fs = Ok (log_file_directory r) /\
  endswith (log_file_directory r) "/" = true.
Proof.
  unfold roslog_list, roslog_get_log_directory. intros H.
  apply bind_ok in H. destruct H as (dir & Hdir & H).
  apply bind_ok in H. destruct H as (names & _ & H).
  apply bind_ok in H. destruct H as (kept & _ & H).
  apply bind_ok in H. destruct H as (sizes & _ & H).
  injection H as <-. cbn [log_file_directory]. rewrite Hdir. split; [reflexivity |].
  apply endswith_append.
Qed.

End LogListerMore.

(** ** Conditional filter stages *)

Lemma rmap_negb_true (r : result bool) : rmap negb r = Ok true <-> r = Ok false.
Proof.
  destruct r as [[|] | e]; cbn [rmap bind negb]; split; intros H;
    try reflexivity; discriminate H.
Qed.

Lemma cond_filterM_in {A} (c : bool) (f : A -> result bool) (l l' : list A)
    (x : A) :
  (if c then filterM f l else Ok l) = Ok l' ->
  (In x l' <-> In x l /\ (c = true -> f x = Ok true)).
Proof.
  destruct c; intros H.
  - rewrite (filterM_in _ _ _ x H). tauto.
  - injection H as <-. split; [intros Hx; split; [exact Hx | discriminate] | tauto].
Qed.

Lemma cond_filter_in {A} (c : bool) (g : A -> bool) (l : list A) (x : A) :
  In x (if c then filter g l else l) <-> In x l /\ (c = true -> g x = true).
Proof.
  destruct c.
  - rewrite filter_In. tauto.
  - split; [intros Hx; split; [exact Hx | discriminate] | tauto].
Qed.

Section ServiceLister.

Context {rx : Regex}.

(** X15.  [rosservice_list] on a list of service names: a name is
    returned exactly when the registry lists it and it passes every filter
    that is switched on: not a logging service (no ["/rosout"] prefix, no
    ["logger"] inside), not under ["/rosapi"], no ["param"] inside, not
    matched by the exclude pattern, matched by the include pattern, not
    matched by any blacklist pattern.  Nothing is returned that the
    registry did not list. *)
Theorem rosservice_list_exact
    ros node namespace include_nodes regex_pattern
    exclude_logging exclude_rosapi exclude_parameters exclude_pattern
    blacklist services out n :
  get_service_list ros node namespace include_nodes = Ok services ->
  rosservice_list ros node namespace include_nodes regex_pattern
    exclude_logging exclude_rosapi exclude_parameters exclude_pattern
    blacklist = Ok out ->
  incl out services /\
  (In (ServiceName n) out <->
   In (ServiceName n) services /\
   (exclude_logging = true ->
    startswith n "/rosout" = false /\ contains "logger" n = false) /\
   (exclude_rosapi = true -> startswith n "/rosapi" = false) /\
   (exclude_parameters = true -> contains "param" n = false) /\
   (truthy_str exclude_pattern = true ->
    regex_match (".*" ++ fmt_opt exclude_pattern) n = Ok false) /\
   (truthy_str regex_pattern = true ->
    regex_match (".*" ++ fmt_opt regex_pattern) n = Ok true) /\
   (truthy_list blacklist = true ->
    exists b, blacklist = Some b /\ blacklisted b n = Ok false)).
Proof.
  intros Hreg H. unfold rosservice_list in H. rewrite Hreg in H. cbn [bind] in H.
  apply bind_ok in H. destruct H as (s1 & H1 & H).
  apply bind_ok in H. destruct H as (s2 & H2 & H).
  apply bind_ok in H. destruct H as (s4 & H4 & H).
  apply bind_ok in H. destruct H as (s5 & H5 & H).
  assert (Hlog : forall x,
             In x s1 <->
             In x services /\
             (exclude_logging = true ->
              item_startswith x "/rosout" = Ok false /\
              item_contains "logger" x = false)).
  { intros x. destruct exclude_logging.
    - apply bind_ok in H1. destruct H1 as (s0 & H0 & H1). injection H1 as <-.
      rewrite filter_In, (filterM_in _ _ _ x H0), rmap_negb_true, negb_true_iff.
      tauto.
    - injection H1 as <-.
      split; [intros Hx; split; [exact Hx | discriminate] | tauto]. }
  pose proof (fun x => cond_filterM_in _ _ _ _ x H2) as Hapi.
  pose proof (fun x => cond_filter_in exclude_parameters
                         (fun x => negb (item_contains "param" x)) s2 x) as Hpar.
  pose proof (fun x => cond_filterM_in _ _ _ _ x H4) as Hexc.
  pose proof (fun x => cond_filterM_in _ _ _ _ x H5) as Hinc.
  pose proof (fun x => cond_filterM_in _ _ _ _ x H) as Hbl.
  split.
  - intros x Hx. apply Hbl in Hx. destruct Hx as [Hx _].
    apply Hinc in Hx. destruct Hx as [Hx _].
    apply Hexc in Hx. destruct Hx as [Hx _].
    apply Hpar in Hx. destruct Hx as [Hx _].
    apply Hapi in Hx. destruct Hx as [Hx _].
    apply Hlog in Hx. tauto.
  - rewrite (Hbl (ServiceName n)), (Hinc (ServiceName n)),
      (Hexc (ServiceName n)), (Hpar (ServiceName n)), (Hapi (ServiceName n)),
      (Hlog (ServiceName n)).
    rewrite !rmap_negb_true, negb_true_iff.
    cbn [item_startswith item_contains item_match].
    change (item_blacklisted
              match blacklist with Some b => b | None => [] end (ServiceName n))
      with (blacklisted match blacklist with Some b => b | None => [] end n).
    assert (Hs : forall p b, Ok (startswith n p) = Ok b <-> startswith n p = b).
    { intros p b. split; [intros Heq; injection Heq; auto | intros ->; reflexivity]. }
    rewrite !Hs.
    assert (Hb : (truthy_list blacklist = true ->
                  blacklisted match blacklist with Some b => b | None => [] end n
                  = Ok false) <->
                 (truthy_list blacklist = true ->
                  exists b, blacklist = Some b /\ blacklisted b n = Ok false)).
    { destruct blacklist as [[| b bs] |]; cbn [truthy_list];
        try (split; intros _ Hf; discriminate Hf).
      split; intros Hx Ht.
      - exists (b :: bs). auto.
      - destruct (Hx Ht) as (b' & Heq & Hb'). injection Heq as <-. exact Hb'. }
    rewrite Hb. tauto.
Qed.

(** X16.  [rosservice_list] has no handler, and its filters expect
    names: a failure of the registry reaches the caller, and so does the
    attribute error of calling [startswith] on a name-and-nodes entry, which
    happens on the first entry whenever the logging or the ["/rosapi"]
    exclusion is on. *)
Theorem rosservice_list_raises
    ros node namespace include_nodes regex_pattern
    exclude_logging exclude_rosapi exclude_parameters exclude_pattern
    blacklist :
  (forall e,
      get_service_list ros node namespace include_nodes = Raise e ->
      rosservice_list ros node namespace include_nodes regex_pattern
        exclude_logging exclude_rosapi exclude_parameters exclude_pattern
        blacklist = Raise e) /\
  (forall name nodes rest,
      get_service_list ros node namespace include_nodes
      = Ok (ServiceWithNodes name nodes :: rest) ->
      exclude_logging = true \/ exclude_rosapi = true ->
      rosservice_list ros node namespace include_nodes regex_pattern
        exclude_logging exclude_rosapi exclude_parameters exclude_pattern
        blacklist = Raise "'list' object has no attribute 'startswith'").
Proof.
  split.
  - intros e He. unfold rosservice_list. rewrite He. reflexivity.
  - intros name nodes rest Hreg Hflag. unfold rosservice_list.
    rewrite Hreg. cbn [bind].
    destruct exclude_logging; [reflexivity |].
    destruct Hflag as [Hflag | ->]; [discriminate Hflag |].
    reflexivity.
Qed.

End ServiceLister.

Section PackageLister.

Context {rx : Regex} {attr : Type}.

(** What [rospkg_list] computes, stage by stage. *)
Lemma rospkg_list_stages (rp : rospack attr) package_pattern ignore_msgs
    blacklist r :
  rospkg_list rp package_pattern ignore_msgs blacklist = Ok r ->
  exists all matched kept,
    list_packages rp = Ok all /\
    (if negb (package_pattern =? "") && negb (package_pattern =? ".*")
     then filterM (fun x => regex_match (".*" ++ package_pattern) x)
            (if ignore_msgs
             then filter (fun x => negb (endswith x "msgs")) all else all)
     else Ok (if ignore_msgs
              then filter (fun x => negb (endswith x "msgs")) all else all))
    = Ok matched /\
    blacklist_stage blacklist matched = Ok kept /\
    pkg_total r = List.length all /\
    msg_pkg_count r
    = List.length all
      - List.length (if ignore_msgs
                     then filter (fun x => negb (endswith x "msgs")) all
                     else all) /\
    pkg_match_pattern r = List.length kept /\
    packages r = py_sorted kept.
Proof.
  unfold rospkg_list. intros H.
  apply bind_ok in H. destruct H as (all & Hall & H).
  apply bind_ok in H. destruct H as (matched & Hmatched & H).
  apply bind_ok in H. destruct H as (kept & Hkept & H).
  injection H as <-. cbn.
  exists all, matched, kept. repeat split; assumption.
Qed.

(** X17.  The counters of [rospkg_list]: [total] counts the whole package
    index, [msg_pkg_count] the packages dropped for ending in ["msgs"]
    (none when [ignore_msgs] is off), and [match_pattern] is the length of
    the returned list, so that the matched and the dropped packages
    together never exceed the total. *)
Theorem rospkg_list_counters (rp : rospack attr) package_pattern ignore_msgs
    blacklist r all :
  rospkg_list rp package_pattern ignore_msgs blacklist = Ok r ->
  list_packages rp = Ok all ->
  pkg_total r = List.length all /\
  msg_pkg_count r
  = (if ignore_msgs
     then List.length (filter (fun x => endswith x "msgs") all) else 0) /\
  pkg_match_pattern r = List.length (packages r) /\
  pkg_match_pattern r + msg_pkg_count r <= pkg_total r.
Proof.
  intros H Hall. apply rospkg_list_stages in H.
  destruct H as (all' & matched & kept & Hall' & Hm & Hk & Ht & Hc & Hp & Hs).
  assert (all' = all) by congruence. subst all'.
  assert (Hsplit : List.length (filter (fun x => endswith x "msgs") all)
                   + List.length (filter (fun x => negb (endswith x "msgs")) all)
                   = List.length all).
  { clear. induction all as [| x all IH]; simpl; [reflexivity |].
    destruct (endswith x "msgs"); simpl; lia. }
  assert (Hkm : List.length kept <= List.length matched).
  { apply blacklist_stage_survivors in Hk. rewrite Hk. apply filter_length_le. }
  assert (Hmf : List.length matched
                <= List.length (if ignore_msgs
                                then filter (fun x => negb (endswith x "msgs")) all
                                else all)).
  { destruct (negb (package_pattern =? "") && negb (package_pattern =? ".*")).
    - exact (filterM_length _ _ _ Hm).
    - injection Hm as <-. apply Nat.le_refl. }
  rewrite Ht, Hc, Hp, Hs.
  rewrite (Permutation_length (py_sorted_perm kept)).
  destruct ignore_msgs; repeat split; lia.
Qed.

(** X18.  The list [rospkg_list] returns is in ascending order and holds
    exactly the packages of the index that do not end in ["msgs"] (with
    [ignore_msgs]), match the pattern (unless it is empty or [".*"], in
    which case no match is attempted) and match no blacklist pattern. *)
Theorem rospkg_list_exact (rp : rospack attr) package_pattern ignore_msgs
    blacklist r all :
  rospkg_list rp package_pattern ignore_msgs blacklist = Ok r ->
  list_packages rp = Ok all ->
  Sorted str_le (packages r) /\
  forall x,
    In x (packages r) <->
    In x all /\
    (ignore_msgs = true -> endswith x "msgs" = false) /\
    (package_pattern <> "" -> package_pattern <> ".*" ->
     regex_match (".*" ++ package_pattern) x = Ok true) /\
    (truthy_list blacklist = true ->
     exists b, blacklist = Some b /\ blacklisted b x = Ok false).
Proof.
  intros H Hall. apply rospkg_list_stages in H.
  destruct H as (all' & matched & kept & Hall' & Hm & Hk & _ & _ & _ & Hs).
  assert (all' = all) by congruence. subst all'.
  rewrite Hs. split; [apply py_sorted_sorted |].
  intros x. rewrite py_sorted_in.
  apply blacklist_stage_survivors in Hk.
  rewrite Hk, filter_In, blacklist_test_passes.
  rewrite (cond_filterM_in _ _ _ _ x Hm), cond_filter_in, negb_true_iff.
  assert (Hpat : negb (package_pattern =? "") && negb (package_pattern =? ".*")
                 = true <->
                 package_pattern <> "" /\ package_pattern <> ".*").
  { rewrite andb_true_iff, !negb_true_iff.
    destruct (String.eqb_spec package_pattern "");
      destruct (String.eqb_spec package_pattern ".*"); split;
      intros [? ?]; try discriminate; try contradiction; auto. }
  rewrite Hpat. tauto.
Qed.

End PackageLister.

Section PackageInfo.

Context {attr : Type} (attr_truthy : attr -> bool).

Lemma add_members_lookup (m : manifest attr) (entry : dict (info_value attr))
    (k : string) :
  dict_get k (add_members attr_truthy m entry)
  = if existsb (fun member => (k =? member) && copied_member attr_truthy m member)
         (slots m)
    then Some (InfoAttr (getattr m k))
    else dict_get k entry.
Proof.
  unfold add_members. generalize (slots m) as members. intros members.
  revert entry. induction members as [| member members IH]; simpl; intros entry.
  - reflexivity.
  - rewrite IH. unfold copied_member at 2.
    destruct (existsb _ members); [rewrite orb_true_r; reflexivity |].
    rewrite orb_false_r.
    destruct (startswith member "_"); cbn [negb andb].
    + rewrite andb_false_r. reflexivity.
    + destruct (attr_truthy (getattr m member)).
      * rewrite dict_get_set, andb_true_r.
        destruct (String.eqb_spec k member) as [-> | Hne]; reflexivity.
      * rewrite andb_false_r. reflexivity.
Qed.

(** X19.  Under each package [rospkg_info] stores the path, the
    dependents and the manifest attributes.  An attribute is stored exactly
    when its name is a slot of the manifest that does not start with an
    underscore and its value is truthy; the path and the dependents are
    kept unless a copied slot carries the same name. *)
Theorem rospkg_info_entry (rp : rospack attr) packages details package entry :
  rospkg_info attr_truthy rp packages = Ok details ->
  dict_get package details = Some entry ->
  exists path dependencies m,
    get_path rp package = Ok path /\
    get_depends_on rp package = Ok dependencies /\
    get_manifest rp package = Ok m /\
    (forall member a,
        dict_get member entry = Some (InfoAttr a) <->
        In member (slots m) /\ startswith member "_" = false /\
        attr_truthy (getattr m member) = true /\ a = getattr m member) /\
    (~ In "path" (slots m) -> dict_get "path" entry = Some (InfoPath path)) /\
    (~ In "dependencies" (slots m) ->
     dict_get "dependencies" entry = Some (InfoDependencies dependencies)).
Proof.
  intros H Hget.
  destruct (fetch_details_from_empty _ _ _ H) as (Hl & _ & _).
  apply Hl in Hget. destruct Hget as [_ Hf].
  apply bind_ok in Hf. destruct Hf as (path & Hpath & Hf).
  apply bind_ok in Hf. destruct Hf as (deps & Hdeps & Hf).
  apply bind_ok in Hf. destruct Hf as (m & Hm & Hf).
  injection Hf as <-.
  exists path, deps, m. repeat apply conj; try assumption.
  - intros member a. rewrite add_members_lookup.
    destruct (existsb _ (slots m)) eqn:Hex.
    + apply existsb_exists in Hex. destruct Hex as (member' & Hin & Hc).
      apply andb_true_iff in Hc. destruct Hc as [Heq Hc].
      apply String.eqb_eq in Heq. subst member'.
      unfold copied_member in Hc. apply andb_true_iff in Hc.
      destruct Hc as [Hpub Htruthy]. apply negb_true_iff in Hpub.
      split.
      * intros Hs. injection Hs as <-. auto.
      * intros (_ & _ & _ & ->). reflexivity.
    + split.
      * intros Hs. exfalso. cbn [dict_get] in Hs.
        destruct (member =? "path"); [discriminate Hs |].
        destruct (member =? "dependencies"); discriminate Hs.
      * intros (Hin & Hpub & Htruthy & _). exfalso.
        assert (Hex' : existsb
                         (fun member' =>
                            (member =? member')
                            && copied_member attr_truthy m member')
                         (slots m) = true).
        { apply existsb_exists. exists member. split; [exact Hin |].
          unfold copied_member.
          rewrite String.eqb_refl, Hpub, Htruthy. reflexivity. }
        congruence.
  - intros Hnot. rewrite add_members_lookup.
    destruct (existsb _ (slots m)) eqn:Hex; [| reflexivity].
    apply existsb_exists in Hex. destruct Hex as (member' & Hin & Hc).
    apply andb_true_iff in Hc. destruct Hc as [Heq _].
    apply String.eqb_eq in Heq. subst member'. contradiction.
  - intros Hnot. rewrite add_members_lookup.
    destruct (existsb _ (slots m)) eqn:Hex; [| reflexivity].
    apply existsb_exists in Hex. destruct Hex as (member' & Hin & Hc).
    apply andb_true_iff in Hc. destruct Hc as [Heq _].
    apply String.eqb_eq in Heq. subst member'. contradiction.
Qed.

End PackageInfo.

(** ** Lines of a text *)

Lemma contains_lf_cons (c : ascii) (s : string) :
  contains line_feed (String c s) = false <->
  c <> lf /\ contains line_feed s = false.
Proof.
  rewrite contains_cons. unfold line_feed. rewrite prefix_char.
  destruct (ascii_dec lf c) as [Heq | Hne]; cbn [orb].
  - split; [discriminate | intros [Hc _]; congruence].
  - split; [intros H; split; [congruence | exact H] | tauto].
Qed.

Lemma split_lines_line (x : string) :
  contains line_feed x = false -> split_lines x = [x].
Proof.
  induction x as [| c x IH]; intros H.
  - reflexivity.
  - apply contains_lf_cons in H. destruct H as [Hc Hx].
    cbn [split_lines]. destruct (Ascii.eqb_spec c lf); [contradiction |].
    rewrite (IH Hx). reflexivity.
Qed.

Lemma split_lines_append (x rest : string) :
  contains line_feed x = false ->
  split_lines (x ++ line_feed ++ rest) = x :: split_lines rest.
Proof.
  induction x as [| c x IH]; intros H.
  - reflexivity.
  - apply contains_lf_cons in H. destruct H as [Hc Hx].
    cbn [append split_lines]. destruct (Ascii.eqb_spec c lf); [contradiction |].
    change (x ++ String lf rest) with (x ++ line_feed ++ rest).
    rewrite (IH Hx). reflexivity.
Qed.

(** Splitting undoes joining, for lines that hold no line feed. *)
Lemma split_lines_concat (lines : list string) :
  lines <> [] ->
  Forall (fun line => contains line_feed line = false) lines ->
  split_lines (String.concat line_feed lines) = lines.
Proof.
  induction lines as [| x lines IH]; intros Hne Hall.
  - contradiction Hne. reflexivity.
  - inversion Hall as [| ? ? Hx Hrest]; subst.
    destruct lines as [| y lines].
    + cbn [String.concat]. apply split_lines_line. exact Hx.
    + cbn [String.concat]. rewrite (split_lines_append _ _ Hx).
      f_equal. apply IH; [discriminate | exact Hrest].
Qed.

Lemma first_line_append (ty rest : string) :
  contains line_feed ty = false ->
  rest = "" \/ startswith rest line_feed = true ->
  first_line (ty ++ rest) = ty.
Proof.
  induction ty as [| c ty IH]; intros H Hrest.
  - cbn [append]. destruct Hrest as [-> | Hrest]; [reflexivity |].
    destruct rest as [| r rest]; [reflexivity |].
    unfold startswith, line_feed in Hrest. rewrite prefix_char in Hrest.
    cbn [first_line]. destruct (ascii_dec lf r) as [<- | _]; [| discriminate Hrest].
    reflexivity.
  - apply contains_lf_cons in H. destruct H as [Hc Hty].
    cbn [append first_line]. destruct (Ascii.eqb_spec c lf); [contradiction |].
    rewrite (IH Hty Hrest). reflexivity.
Qed.

(** X20.  The type of a topic is read from the first line only: a text
    that starts with ["Type: "] followed by a non-empty rest of line gives
    that rest of line, and a text that does not start with ["Type: "]
    gives no type at all. *)
Theorem topic_type_line (topic ty rest info_text : string) :
  (ty <> "" -> contains line_feed ty = false ->
   rest = "" \/ startswith rest line_feed = true ->
   td_type (parse_info_text topic ("Type: " ++ ty ++ rest)) = Some ty) /\
  (startswith info_text "Type: " = false ->
   td_type (parse_info_text topic info_text) = None).
Proof.
  cbn [td_type parse_info_text]. unfold type_match. split.
  - intros Hne Hlf Hrest.
    unfold startswith. rewrite prefix_append.
    change (drop_chars 6 ("Type: " ++ ty ++ rest)) with (ty ++ rest).
    rewrite (first_line_append _ _ Hlf Hrest).
    destruct ty; [contradiction Hne; reflexivity | reflexivity].
  - intros ->. reflexivity.
Qed.

(** ** Sections of a topic description *)

Lemma scan_plain_lines (lines : list string) (st : capture) :
  Forall (fun line => plain_line line = true) lines ->
  scan_lines lines st
  = {| capture_publishers := capture_publishers st;
       capture_subscribers := capture_subscribers st;
       seen_publishers :=
         (seen_publishers st
          ++ (if capture_publishers st then map strip_star lines else []))%list;
       seen_subscribers :=
         (seen_subscribers st
          ++ (if capture_subscribers st
              then map (fun line =>
                          strip_star (if capture_publishers st
                                      then strip_star line else line)) lines
              else []))%list |}.
Proof.
  unfold scan_lines. revert st.
  induction lines as [| line lines IH]; intros st Hall.
  - cbn [fold_left map]. destruct st as [cp cs sp ss]. cbn.
    destruct cp, cs; rewrite !app_nil_r; reflexivity.
  - inversion Hall as [| ? ? Hline Hrest]; subst.
    cbn [fold_left]. rewrite (IH _ Hrest).
    unfold plain_line in Hline. apply andb_true_iff in Hline.
    destruct Hline as [Hp Hs]. apply negb_true_iff in Hp, Hs.
    unfold scan_line. rewrite Hp, Hs.
    destruct st as [cp cs sp ss]. cbn.
    destruct cp, cs; cbn; rewrite <- ?app_assoc; reflexivity.
Qed.

Lemma scan_lines_app (a b : list string) (st : capture) :
  scan_lines (a ++ b) st = scan_lines b (scan_lines a st).
Proof. unfold scan_lines. apply fold_left_app. Qed.

Lemma scan_lines_cons (line : string) (lines : list string) (st : capture) :
  scan_lines (line :: lines) st = scan_lines lines (scan_line st line).
Proof. reflexivity. Qed.

Lemma scan_publishers_header (st : capture) (line : string) :
  contains "Publishers:" line = true ->
  scan_line st line
  = {| capture_publishers := true;
       capture_subscribers := capture_subscribers st;
       seen_publishers := seen_publishers st;
       seen_subscribers := seen_subscribers st |}.
Proof. intros H. unfold scan_line. rewrite H. reflexivity. Qed.

Lemma scan_subscribers_header (st : capture) (line : string) :
  contains "Publishers:" line = false ->
  contains "Subscribers:" line = true ->
  scan_line st line
  = {| capture_publishers := false;
       capture_subscribers := true;
       seen_publishers := seen_publishers st;
       seen_subscribers := seen_subscribers st |}.
Proof. intros H1 H2. unfold scan_line. rewrite H1, H2. reflexivity. Qed.

(** X21.  The parser of [rostopic_info] on a description laid out as the
    registry prints it: the lines between the ["Publishers:"] header and
    the ["Subscribers:"] header become the publishers, the lines after the
    ["Subscribers:"] header the subscribers, each stripped as [strip_star]
    does, of the blanks at its two ends (every character [str.isspace]
    accepts, those beyond the first 128 included) and then of its bullet,
    blank lines included as empty entries; the lines before the first
    header are ignored. *)
Theorem topic_info_sections (topic : string)
    (before : list string) (publishers_header : string) (pubs : list string)
    (subscribers_header : string) (subs : list string) :
  Forall (fun line => contains line_feed line = false)
    (before ++ publishers_header :: pubs ++ subscribers_header :: subs) ->
  Forall (fun line => plain_line line = true) (before ++ pubs ++ subs) ->
  contains "Publishers:" publishers_header = true ->
  contains "Publishers:" subscribers_header = false ->
  contains "Subscribers:" subscribers_header = true ->
  let info_text :=
    String.concat line_feed
      (before ++ publishers_header :: pubs ++ subscribers_header :: subs) in
  td_publishers (parse_info_text topic info_text) = map strip_star pubs /\
  td_subscribers (parse_info_text topic info_text) = map strip_star subs.
Proof.
  intros Hlf Hplain Hph Hsh1 Hsh2 info_text.
  apply Forall_app in Hplain. destruct Hplain as [Hbefore Hplain].
  apply Forall_app in Hplain. destruct Hplain as [Hpubs Hsubs].
  unfold parse_info_text, info_text. cbn [td_publishers td_subscribers].
  rewrite split_lines_concat; [| destruct before; discriminate | exact Hlf].
  rewrite scan_lines_app, scan_lines_cons, scan_lines_app, scan_lines_cons.
  rewrite (scan_plain_lines before _ Hbefore).
  rewrite (scan_publishers_header _ _ Hph).
  rewrite (scan_plain_lines pubs _ Hpubs).
  rewrite (scan_subscribers_header _ _ Hsh1 Hsh2).
  rewrite (scan_plain_lines subs _ Hsubs).
  cbn [capture_publishers capture_subscribers seen_publishers seen_subscribers
       app].
  rewrite app_nil_r. split; reflexivity.
Qed.

(** X22.  A description without the two headers yields no publisher and
    no subscriber: the parser reports nothing rather than failing. *)
Theorem topic_info_without_headers (topic info_text : string) :
  Forall (fun line => plain_line line = true) (split_lines info_text) ->
  td_publishers (parse_info_text topic info_text) = [] /\
  td_subscribers (parse_info_text topic info_text) = [].
Proof.
  intros Hplain. unfold parse_info_text. cbn [td_publishers td_subscribers].
  rewrite (scan_plain_lines _ _ Hplain). split; reflexivity.
Qed.

(** ** Files of equal size *)

Lemma insert_by_size_filter (x : string * Z) (l : list (string * Z)) (z : Z) :
  filter (fun e => (snd e =? z)%Z) (insert_by_size x l)
  = if (snd x =? z)%Z
    then x :: filter (fun e => (snd e =? z)%Z) l
    else filter (fun e => (snd e =? z)%Z) l.
Proof.
  induction l as [| y l IH]; simpl.
  - destruct (snd x =? z)%Z; reflexivity.
  - destruct (Z.leb_spec (snd y) (snd x)) as [Hle | Hgt]; simpl.
    + destruct (snd x =? z)%Z; reflexivity.
    + rewrite IH.
      destruct (Z.eqb_spec (snd y) z), (Z.eqb_spec (snd x) z);
        try reflexivity; lia.
Qed.

Lemma sorted_by_size_desc_filter (l : list (string * Z)) (z : Z) :
  filter (fun e => (snd e =? z)%Z) (sorted_by_size_desc l)
  = filter (fun e => (snd e =? z)%Z) l.
Proof.
  induction l as [| x l IH]; simpl.
  - reflexivity.
  - rewrite insert_by_size_filter, IH. reflexivity.
Qed.

Lemma sized_logs_filter fs log_dir min_size logs z :
  map fst (filter (fun e => (snd e =? z)%Z) (sized_logs fs log_dir min_size logs))
  = filter (fun log => has_size fs log_dir log z && (min_size <=? z)%Z) logs.
Proof.
  unfold sized_logs, has_size. induction logs as [| log logs IH]; simpl.
  - reflexivity.
  - rewrite filter_app, map_app, IH.
    destruct (getsize fs (path_join log_dir log)) as [size | e]; simpl;
      [| reflexivity].
    destruct (Z.leb_spec min_size size) as [Hle | Hgt]; simpl.
    + destruct (Z.eqb_spec size z) as [-> | Hne]; simpl.
      * destruct (Z.leb_spec min_size z); [reflexivity | lia].
      * reflexivity.
    + destruct (Z.eqb_spec size z) as [-> | Hne]; simpl; [| reflexivity].
      destruct (Z.leb_spec min_size z); [lia | reflexivity].
Qed.

Section LogListerOrder.

Context {rx : Regex}.

(** X25.  The size ordering of [roslog_list] is stable: the files of any
    one size appear in the mapping in the order of the directory listing. *)
Theorem roslog_list_ties_in_listing_order
    fs min_size blacklist dir names r z :
  get_log_dir fs = Ok dir ->
  listdir fs (dir ++ "/") = Ok names ->
  NoDup names ->
  roslog_list fs min_size (Some blacklist) = Ok r ->
  map fst (filter (fun e => (snd e =? z)%Z) (logs_with_size_in_bytes r))
  = filter
      (fun log =>
         passes (fun x => rmap negb (blacklisted blacklist x)) log
         && (has_size fs (dir ++ "/") log z && (min_size <=? z)%Z))
      names.
Proof.
  intros Hdir Hlist Hnd H. unfold roslog_list in H.
  rewrite Hdir in H. cbn [bind] in H. rewrite Hlist in H. cbn [bind] in H.
  apply bind_ok in H. destruct H as (kept & Hkept & H).
  apply bind_ok in H. destruct H as (sizes & Hsizes & H).
  injection H as <-. cbn [logs_with_size_in_bytes].
  cbn [log_blacklisted] in Hkept.
  apply filterM_ok_filter in Hkept.
  assert (Hkept_nd : NoDup kept).
  { rewrite Hkept. apply NoDup_filter. exact Hnd. }
  assert (Hsized : sizes = sized_logs fs (dir ++ "/") min_size kept).
  { assert (Hall : forall log, In log kept ->
                     exists s, getsize fs (path_join (dir ++ "/") log) = Ok s).
    { clear - Hsizes. revert Hsizes. generalize (@nil (string * Z)) as acc.
      induction kept as [| x kept IH]; intros acc H log Hin; [contradiction |].
      cbn [collect_sizes] in H. apply bind_ok in H.
      destruct H as (s & Hs & H).
      destruct Hin as [<- | Hin]; [exists s; exact Hs | exact (IH _ H _ Hin)]. }
    pose proof (collect_sizes_fresh fs (dir ++ "/") min_size kept [] Hall Hkept_nd)
      as Hc.
    rewrite Hc in Hsizes. injection Hsizes as <-. reflexivity. }
  subst sizes.
  rewrite dict_of_items_nodup.
  - rewrite sorted_by_size_desc_filter, sized_logs_filter, Hkept.
    rewrite filter_twice. reflexivity.
  - apply (Permutation_NoDup
             (l := map fst (sized_logs fs (dir ++ "/") min_size kept))).
    + apply Permutation_map, Permutation_sym, sorted_by_size_desc_perm.
    + apply sized_logs_nodup. exact Hkept_nd.
Qed.

End LogListerOrder.

(** * The remaining tools on sample collaborators *)

Lemma stage_counters_monotone_witness :
  let r := {| total := 3; in_namespace := 2; match_pattern := 1;
              entities := ["/a/nav"] |} in
  get_entities (rx := simple_regex) two_topic_registry "node" (Some "nav")
    (Some "/a") None = Ok r /\
  match_pattern r <= in_namespace r /\ in_namespace r <= total r.
Proof.
  intros r. split; [reflexivity |].
  apply (stage_counters_monotone (rx := simple_regex) two_topic_registry "node"
           (Some "nav") (Some "/a") None r).
  reflexivity.
Defined.

Lemma get_entities_sorted_and_exact_witness :
  let r := {| total := 3; in_namespace := 2; match_pattern := 2;
              entities := ["/a/nav"] |} in
  get_entities (rx := simple_regex) two_topic_registry "node" (Some "a")
    (Some "/a") (Some ["lidar"]) = Ok r /\
  Sorted str_le (entities r) /\
  regex_match (Regex := simple_regex) (".*" ++ "a") "/a/nav" = Ok true.
Proof.
  intros r. split; [reflexivity |].
  destruct (get_entities_sorted_and_exact (rx := simple_regex)
              two_topic_registry "node" (Some "a") (Some "/a") (Some ["lidar"])
              r ["/a/nav"; "/a/lidar"; "/rosout"] eq_refl eq_refl)
    as [Hsorted Hexact].
  split; [exact Hsorted |].
  assert (Hm : match_pattern r <> 0) by discriminate.
  destruct (proj1 (Hexact Hm "/a/nav") (or_introl eq_refl))
    as (_ & _ & Hpat & _).
  exact (Hpat eq_refl).
Defined.

Lemma topic_listing_no_duplicates_witness :
  let r := {| total := 2; in_namespace := 2; match_pattern := 2;
              entities := ["/a/scan"; "/rosout"] |} in
  get_entities (rx := simple_regex) two_topic_registry "topic" None None None
  = Ok r /\
  NoDup (entities r).
Proof.
  intros r. split; [reflexivity |].
  apply (topic_listing_no_duplicates (rx := simple_regex) two_topic_registry
           None None None r).
  reflexivity.
Defined.

Lemma topic_map_lookup_witness :
  nodes_of "/scan"
    (build_topic_map (Some "/a")
       [("/scan", ["/a/lidar"; "/b/lidar"]); ("/tf", ["/a/tf"]);
        ("/scan", ["/a/sim"])])
  = ["/a/lidar"; "/a/sim"] /\
  dict_has "/odom"
    (build_topic_map (Some "/a") [("/odom", ["/b/base"])]) = false.
Proof.
  split.
  - rewrite (proj1 (topic_map_lookup (Some "/a") _ "/scan")). reflexivity.
  - destruct (dict_has "/odom"
                (build_topic_map (Some "/a") [("/odom", ["/b/base"])])) eqn:Hhas;
      [| reflexivity].
    apply (proj2 (topic_map_lookup (Some "/a") [("/odom", ["/b/base"])] "/odom"))
      in Hhas.
    contradiction Hhas. reflexivity.
Defined.

Lemma graph_edges_exact_witness :
  let x : triple := ("/a/n1", "/a/t1", "/a/n2") in
  In (publisher x) (attached_nodes (Some "/a") [("/a/t1", ["/a/n1"])] (topic_of x)) /\
  triple_blacklisted (rx := simple_regex) (or_empty None) x = Ok false /\
  publisher x <> subscriber x.
Proof.
  intros x.
  destruct (proj1 (graph_edges_exact (rx := simple_regex) (rp := simple_repr)
                     [("/a/t1", ["/a/n1"])] [("/a/t1", ["/a/n2"])] []
                     (Some "/a") (Some ".*") (Some ".*") None true
                     {| graph_convention :=
                          "Each tuple in the graph is of the form (publisher, topic, subscriber).";
                        nuance := "Disconnected nodes are not included in this graph.";
                        node_count := 2; topic_count := 1;
                        total_connections := 1;
                        graph := [x]; warning := None |}
                     x eq_refl) (or_introl eq_refl))
    as (Hp & _ & _ & Hbl & _ & Hself).
  split; [exact Hp |]. split; [exact Hbl | exact (Hself eq_refl)].
Defined.

Lemma graph_counts_bounds_witness :
  let resp :=
    {| graph_convention :=
         "Each tuple in the graph is of the form (publisher, topic, subscriber).";
       nuance := "Disconnected nodes are not included in this graph.";
       node_count := 2; topic_count := 1; total_connections := 1;
       graph := [("/a/n1", "/a/t1", "/a/n2")];
       warning := None |} in
  rosgraph_get (rx := simple_regex) (rp := simple_repr) two_node_master
    (Some "/a") (Some ".*") (Some ".*") None true = Ok (GraphOk resp) /\
  1 <= topic_count resp <= total_connections resp /\
  1 <= node_count resp <= 2 * total_connections resp.
Proof.
  intros resp. split; [reflexivity |].
  apply (graph_counts_bounds (rx := simple_regex) (rp := simple_repr)
           two_node_master (Some "/a") (Some ".*") (Some ".*") None true resp).
  reflexivity.
Defined.

Lemma rosparam_get_lookup_witness :
  let st : dict string := [("/rosa/foo", "1"); ("/speed", "2")] in
  rosparam_get (ps := store_server) ["/speed"; "/rosa/foo"; "/speed"] st
  = Ok [("/speed", "2"); ("/rosa/foo", "1")] /\
  (dict_get "/speed" [("/speed", "2"); ("/rosa/foo", "1")] = Some "2" <->
   In "/speed" ["/speed"; "/rosa/foo"; "/speed"] /\
   get_param (ParamServer := store_server) "/speed" st = Ok "2").
Proof.
  intros st. split; [reflexivity |].
  apply (proj2 (rosparam_get_lookup (ps := store_server)
                  ["/speed"; "/rosa/foo"; "/speed"] st)
           [("/speed", "2"); ("/rosa/foo", "1")] eq_refl).
Defined.

Lemma rosparam_get_first_failure_witness :
  let st : dict string := [("/speed", "2")] in
  rosparam_get (ps := store_server) ["/speed"; "/missing"; "/speed"] st
  = Raise "Parameter [/missing] is not set".
Proof.
  intros st.
  apply (rosparam_get_first_failure (ps := store_server) ["/speed"] ["/speed"]
           "/missing" "Parameter [/missing] is not set" st).
  - intros q [<- | []]. exists "2". reflexivity.
  - reflexivity.
Defined.

Lemma rosparam_list_payload_witness :
  let st : dict string := [("/speed", "2"); ("/rosa/foo", "1"); ("/arm", "3")] in
  rosparam_list (rx := simple_regex) (ps := store_server) "/" (Some ["rosa"]) st
  = Ok (ParamListOk "/" 2 ["/speed"; "/arm"]) /\
  ["/speed"; "/arm"]
  = filter (unmatched (rx := simple_regex) (Some ["rosa"]))
      ["/speed"; "/rosa/foo"; "/arm"] /\
  rosparam_list (rx := simple_regex) (ps := store_server) "/" (Some ["("]) st
  = Ok (ParamListError "Failed to get ROS parameters: regex.error").
Proof.
  intros st.
  destruct (rosparam_list_payload (rx := simple_regex) (ps := store_server)
              "/" (Some ["rosa"]) st ["/speed"; "/rosa/foo"; "/arm"] eq_refl)
    as (Hpayload & Hok & _).
  destruct (rosparam_list_payload (rx := simple_regex) (ps := store_server)
              "/" (Some ["("]) st ["/speed"; "/rosa/foo"; "/arm"] eq_refl)
    as (_ & _ & Herr).
  assert (Hreply :
            rosparam_list (rx := simple_regex) (ps := store_server) "/"
              (Some ["rosa"]) st
            = Ok (ParamListOk "/" 2 ["/speed"; "/arm"])).
  { rewrite Hok; [reflexivity |].
    intros x [<- | [<- | [<- | []]]]; eexists; reflexivity. }
  split; [exact Hreply |]. split.
  - exact (proj1 (proj2 (proj2 (Hpayload _ _ _ Hreply)))).
  - apply (Herr [] "/speed" ["/rosa/foo"; "/arm"] "regex.error" eq_refl).
    + intros y [].
    + reflexivity.
Defined.

Lemma detail_fetchers_lookup_witness :
  dict_get "/talker"
    [("/talker", "Node [/talker] Publications:   * /chatter [std_msgs/String]")]
  = Some "Node [/talker] Publications:   * /chatter [std_msgs/String]" /\
  In "/talker" ["/talker"] /\
  get_msg_text sample_ros "std_msgs/String" = Ok "string data" /\
  get_srv_text sample_ros "rospy_tutorials/AddTwoInts" false
  = Ok ("int64 a" ++ line_feed ++ "int64 b" ++ line_feed ++ "---"
        ++ line_feed ++ "int64 sum") /\
  (exists uri, get_service_uri sample_ros "/add_two_ints" = Ok uri /\
               get_service_headers sample_ros "/add_two_ints" uri
               = Ok [("type", "rospy_tutorials/AddTwoInts")]) /\
  td_topic (parse_info_text "/chatter" chatter_info) = "/chatter".
Proof.
  destruct (detail_fetchers_lookup sample_ros)
    as (Hmsg & Hsrv & Hservice & Hnode & Htopic).
  split; [reflexivity |].
  destruct (Hnode ["/talker"] _ eq_refl) as [_ Hn].
  destruct (proj1 (Hn "/talker" _) eq_refl) as [Hin _].
  split; [exact Hin |].
  destruct (Hmsg ["std_msgs/String"] _ eq_refl) as [_ Hm].
  split; [exact (proj2 (proj1 (Hm "std_msgs/String" _) eq_refl)) |].
  destruct (Hsrv ["rospy_tutorials/AddTwoInts"] false _ eq_refl) as [_ Hs].
  split; [exact (proj2 (proj1 (Hs "rospy_tutorials/AddTwoInts" _) eq_refl)) |].
  destruct (Hservice ["/add_two_ints"] _ eq_refl) as [_ Hv].
  split; [exact (proj2 (proj1 (Hv "/add_two_ints" _) eq_refl)) |].
  destruct (Htopic ["/chatter"] _ eq_refl) as [_ Ht].
  destruct (proj1 (Ht "/chatter" _) eq_refl) as (_ & text & _ & Hparsed & Hname).
  reflexivity.
Defined.

Lemma detail_fetchers_first_failure_witness :
  rosmsg_info sample_ros ["std_msgs/String"; "std_msgs/Nope"; "std_msgs/String"]
  = Raise "Cannot locate message [std_msgs/Nope]" /\
  rossrv_info sample_ros ["rospy_tutorials/AddTwoInts"; "nope/Nope"] true
  = Raise "Cannot locate service [nope/Nope]" /\
  rosservice_info sample_ros ["/add_two_ints"; "/nope"]
  = Raise "Unknown service [/nope]" /\
  rosnode_info sample_ros ["/talker"; "/ghost"]
  = Raise "cannot contact [/ghost]" /\
  rostopic_info sample_ros ["/chatter"; "/nope"] = Raise "Unknown topic /nope".
Proof.
  repeat apply conj.
  - apply (proj1 (detail_fetchers_first_failure sample_ros ["std_msgs/String"]
                    ["std_msgs/String"] "std_msgs/Nope" _)).
    + intros q [<- | []]. eexists. reflexivity.
    + reflexivity.
  - apply (proj1 (proj2 (detail_fetchers_first_failure sample_ros
                           ["rospy_tutorials/AddTwoInts"] [] "nope/Nope" _))).
    + intros q [<- | []]. eexists. reflexivity.
    + reflexivity.
  - apply (proj1 (proj2 (proj2 (detail_fetchers_first_failure sample_ros
                                  ["/add_two_ints"] [] "/nope" _)))).
    + intros q [<- | []]. eexists. eexists. split; reflexivity.
    + right. exists None. split; reflexivity.
  - apply (proj1 (proj2 (proj2 (proj2
             (detail_fetchers_first_failure sample_ros ["/talker"] []
                "/ghost" _))))).
    + intros q [<- | []]. eexists. reflexivity.
    + reflexivity.
  - apply (proj2 (proj2 (proj2 (proj2
             (detail_fetchers_first_failure sample_ros ["/chatter"] []
                "/nope" _))))).
    + intros q [<- | []]. eexists. reflexivity.
    + reflexivity.
Defined.

Lemma rosnode_info_single_line_witness :
  let text := "Node [/talker] Publications:   * /chatter [std_msgs/String]" in
  rosnode_info sample_ros ["/talker"] = Ok [("/talker", text)] /\
  contains line_feed text = false.
Proof.
  intros text. split; [reflexivity |].
  apply (rosnode_info_single_line sample_ros ["/talker"] [("/talker", text)]
           "/talker" text); reflexivity.
Defined.

Lemma roslog_list_without_blacklist_witness :
  get_log_dir two_logs = Ok "/home/ros/.ros/log" /\
  listdir two_logs ("/home/ros/.ros/log" ++ "/") = Ok ["rosout.log"; "master.log"] /\
  roslog_list (rx := simple_regex) two_logs 0 None
  = Raise "'NoneType' object is not iterable".
Proof.
  split; [reflexivity |]. split; [reflexivity |].
  apply (proj2 (roslog_list_without_blacklist (rx := simple_regex) two_logs 0
                  "/home/ros/.ros/log" ["rosout.log"; "master.log"]
                  eq_refl eq_refl)).
  discriminate.
Defined.

Lemma roslog_directory_agrees_witness :
  roslog_get_log_directory two_logs = Ok "/home/ros/.ros/log/" /\
  endswith "/home/ros/.ros/log/" "/" = true.
Proof.
  apply (roslog_directory_agrees (rx := simple_regex) two_logs default_min_size
           (Some [])
           {| log_file_directory := "/home/ros/.ros/log/";
              logs_with_size_in_bytes := [("master.log", 4096%Z)];
              notes := "Recommend only displaying the top N log files when you "
                       ++ "present this list to the user." |}).
  reflexivity.
Defined.

Lemma roslog_list_with_blacklist_witness :
  exists r,
    roslog_list (rx := simple_regex) two_logs 1024 (Some ["debug"]) = Ok r /\
    logs_with_size_in_bytes r = [("master.log", 4096%Z); ("rosout.log", 1024%Z)] /\
    StronglySorted size_ge (logs_with_size_in_bytes r).
Proof.
  destruct (roslog_list_with_blacklist (rx := simple_regex) two_logs 1024
              ["debug"] "/home/ros/.ros/log" ["rosout.log"; "master.log"]
              eq_refl eq_refl)
    as (r & Hr & _ & _ & Hsorted & _).
  - repeat constructor; simpl; intros H;
      repeat (destruct H as [H | H]; try discriminate H); exact H.
  - intros p [<- | []] text. eexists. reflexivity.
  - intros log [<- | [<- | []]]; eexists; reflexivity.
  - exists r. split; [exact Hr |]. split; [| exact Hsorted].
    assert (Heq : Ok r
                  = roslog_list (rx := simple_regex) two_logs 1024 (Some ["debug"]))
      by (symmetry; exact Hr).
    vm_compute in Heq. injection Heq as ->. reflexivity.
Defined.

Lemma rosservice_list_exact_witness :
  rosservice_list (rx := simple_regex) sample_ros None None false None
    true true true None None = Ok [ServiceName "/add_two_ints"] /\
  startswith "/add_two_ints" "/rosapi" = false /\
  contains "param" "/add_two_ints" = false.
Proof.
  split; [reflexivity |].
  destruct (rosservice_list_exact (rx := simple_regex) sample_ros None None
              false None true true true None None
              [ServiceName "/rosout/get_loggers";
               ServiceName "/talker/set_logger_level";
               ServiceName "/rosapi/topics";
               ServiceName "/camera/set_parameters";
               ServiceName "/add_two_ints"]
              [ServiceName "/add_two_ints"] "/add_two_ints" eq_refl eq_refl)
    as [_ Hexact].
  destruct (proj1 Hexact (or_introl eq_refl)) as (_ & _ & Hapi & Hpar & _).
  split; [exact (Hapi eq_refl) | exact (Hpar eq_refl)].
Defined.

Lemma rosservice_list_raises_witness :
  rosservice_list (rx := simple_regex) offline_ros None None false None
    true true true None None = Raise "Unable to communicate with master!" /\
  rosservice_list (rx := simple_regex) sample_ros None None true None
    true true true None None
  = Raise "'list' object has no attribute 'startswith'".
Proof.
  split.
  - apply (proj1 (rosservice_list_raises (rx := simple_regex) offline_ros None
                    None false None true true true None None)).
    reflexivity.
  - apply (proj2 (rosservice_list_raises (rx := simple_regex) sample_ros None
                    None true None true true true None None)
             "/add_two_ints" ["/adder"] []).
    + reflexivity.
    + left. reflexivity.
Defined.

Lemma rospkg_list_counters_witness :
  let r := {| pkg_total := 4; msg_pkg_count := 2; pkg_match_pattern := 2;
              packages := ["roscpp"; "rospy_tutorials"] |} in
  rospkg_list (rx := simple_regex) sample_rospack ".*" true None = Ok r /\
  pkg_match_pattern r = List.length (packages r) /\
  pkg_match_pattern r + msg_pkg_count r <= pkg_total r.
Proof.
  intros r. split; [reflexivity |].
  destruct (rospkg_list_counters (rx := simple_regex) sample_rospack ".*" true
              None r ["rospy_tutorials"; "std_msgs"; "roscpp"; "sensor_msgs"]
              eq_refl eq_refl)
    as (_ & _ & Hlen & Hsum).
  split; [exact Hlen | exact Hsum].
Defined.

Lemma rospkg_list_exact_witness :
  let r := {| pkg_total := 4; msg_pkg_count := 0; pkg_match_pattern := 1;
              packages := ["rospy_tutorials"] |} in
  rospkg_list (rx := simple_regex) sample_rospack "ros" false (Some ["cpp"])
  = Ok r /\
  Sorted str_le (packages r) /\
  regex_match (Regex := simple_regex) (".*" ++ "ros") "rospy_tutorials" = Ok true.
Proof.
  intros r. split; [reflexivity |].
  destruct (rospkg_list_exact (rx := simple_regex) sample_rospack "ros" false
              (Some ["cpp"]) r
              ["rospy_tutorials"; "std_msgs"; "roscpp"; "sensor_msgs"]
              eq_refl eq_refl)
    as [Hsorted Hexact].
  split; [exact Hsorted |].
  destruct (proj1 (Hexact "rospy_tutorials") (or_introl eq_refl))
    as (_ & _ & Hpat & _).
  apply Hpat; discriminate.
Defined.

Lemma rospkg_info_entry_witness :
  let entry : dict (info_value string) :=
    [("path", InfoPath "/opt/ros/noetic/share/rospy_tutorials");
     ("dependencies", InfoDependencies []);
     ("description", InfoAttr "Tutorial nodes");
     ("license", InfoAttr "BSD")] in
  rospkg_info text_truthy sample_rospack ["rospy_tutorials"]
  = Ok [("rospy_tutorials", entry)] /\
  (forall a, dict_get "_dirs" entry <> Some (InfoAttr a)) /\
  (forall a, dict_get "url" entry <> Some (InfoAttr a)).
Proof.
  intros entry. split; [reflexivity |].
  destruct (rospkg_info_entry text_truthy sample_rospack ["rospy_tutorials"]
              [("rospy_tutorials", entry)] "rospy_tutorials" entry
              eq_refl eq_refl)
    as (path & deps & m & _ & _ & Hm & Hattr & _).
  injection Hm as <-.
  split; intros a Hget; apply Hattr in Hget;
    destruct Hget as (_ & Hpub & Htruthy & _); discriminate.
Defined.

Lemma topic_type_line_witness :
  td_type
    (parse_info_text "/chatter"
       ("Type: " ++ "std_msgs/String" ++ (line_feed ++ "Publishers: None")))
  = Some "std_msgs/String" /\
  td_type (parse_info_text "/chatter" "ERROR: Unknown topic /chatter") = None.
Proof.
  destruct (topic_type_line "/chatter" "std_msgs/String"
              (line_feed ++ "Publishers: None")
              "ERROR: Unknown topic /chatter") as [Hsome Hnone].
  split.
  - apply Hsome; [discriminate | reflexivity | right; reflexivity].
  - apply Hnone. reflexivity.
Defined.

Lemma topic_info_sections_witness :
  (td_publishers (parse_info_text "/chatter" chatter_info)
   = ["/talker (http://host:40001/)"; ""] /\
   td_subscribers (parse_info_text "/chatter" chatter_info)
   = ["/listener (http://host:40002/)"; ""; ""]) /\
  td_publishers
    (parse_info_text "/chatter"
       (String.concat line_feed
          ["Publishers:"; utf8 [194; 160] ++ "* /talker" ++ utf8 [194; 160];
           "Subscribers:"]))
  = ["/talker"].
Proof.
  split.
  - apply (topic_info_sections "/chatter"
             ["Type: std_msgs/String"; ""] "Publishers: "
             [" * /talker (http://host:40001/)"; ""] "Subscribers: "
             [" * /listener (http://host:40002/)"; ""; ""]).
    + repeat constructor.
    + repeat constructor.
    + reflexivity.
    + reflexivity.
    + reflexivity.
  - apply (topic_info_sections "/chatter"
             [] "Publishers:"
             [utf8 [194; 160] ++ "* /talker" ++ utf8 [194; 160]] "Subscribers:"
             []).
    + repeat constructor.
    + repeat constructor.
    + reflexivity.
    + reflexivity.
    + reflexivity.
Defined.

(** [strip()] removes the blanks beyond the first 128 as well, here a
    no-break space and an ideographic space, and leaves the other
    characters whole: the last byte of the letter a-grave is the last byte
    of a no-break space. *)
Example strip_star_unicode_blanks :
  strip_star (utf8 [194; 160] ++ " * /talker" ++ utf8 [227; 128; 128; 10])
  = "/talker" /\
  py_strip (" " ++ utf8 [195; 160] ++ " ") = utf8 [195; 160].
Proof. split; reflexivity. Qed.

Lemma topic_info_without_headers_witness :
  td_publishers (parse_info_text "/chatter" "ERROR: Unknown topic /chatter") = [] /\
  td_subscribers (parse_info_text "/chatter" "ERROR: Unknown topic /chatter") = [].
Proof.
  apply (topic_info_without_headers "/chatter" "ERROR: Unknown topic /chatter").
  repeat constructor.
Defined.

Lemma roslog_list_ties_in_listing_order_witness :
  let r := {| log_file_directory := "/home/ros/.ros/log/";
              logs_with_size_in_bytes :=
                [("b.log", 200%Z); ("a.log", 100%Z); ("c.log", 100%Z)];
              notes := "Recommend only displaying the top N log files when you "
                       ++ "present this list to the user." |} in
  roslog_list (rx := simple_regex) tied_logs 0 (Some []) = Ok r /\
  map fst (filter (fun e => (snd e =? 100)%Z) (logs_with_size_in_bytes r))
  = ["a.log"; "c.log"].
Proof.
  intros r. split; [reflexivity |].
  rewrite (roslog_list_ties_in_listing_order (rx := simple_regex) tied_logs 0 []
             "/home/ros/.ros/log" ["a.log"; "b.log"; "c.log"] r 100%Z
             eq_refl eq_refl).
  - reflexivity.
  - repeat constructor; simpl; intros H;
      repeat (destruct H as [H | H]; try discriminate H); exact H.
  - reflexivity.
Defined.
